(** * pyresample.bilinear: bilinear resampling on irregular grids

    A shallow embedding of [pyresample/bilinear/__init__.py].  NumPy's
    float64 arrays are lists of Rocq's primitive binary64 floats, so every
    arithmetic operation rounds as the Python code does, NaN and the
    infinities included.  The whole-array operations of the source act
    point by point: the solvers are modelled at one element, the
    entry points on lists, with the exceptions that indexing and shapes
    can raise.  *)

From Stdlib Require Import Floats ZArith Bool List Lia PeanoNat.
Import ListNotations.

Local Open Scope float_scope.

(** * The program *)

(** ** QuadraticSolver: [_solve_quadratic]

    One element of the coefficient arrays.  [x > max_val] of the source is
    the IEEE test [max_val < x].  The integer literals [4] and [2] are
    promoted to float64 by NumPy. *)

Definition quad_discriminant (a__ b__ c__ : float) : float :=
  b__ * b__ - 4 * a__ * c__.

Definition quad_x_1 (a__ b__ c__ : float) : float :=
  (- b__ + sqrt (quad_discriminant a__ b__ c__)) / (2 * a__).

Definition quad_x_2 (a__ b__ c__ : float) : float :=
  (- b__ - sqrt (quad_discriminant a__ b__ c__)) / (2 * a__).

(** [(x < min_val) | (x > max_val)] *)
Definition outside (min_val max_val x : float) : bool :=
  (x <? min_val) || (max_val <? x).

Definition _solve_quadratic (a__ b__ c__ min_val max_val : float) : float :=
  let x_1 := quad_x_1 a__ b__ c__ in
  let x_2 := quad_x_2 a__ b__ c__ in
  let x__ := if outside min_val max_val x_1 then x_2 else x_1 in
  if outside min_val max_val x__ then nan else x__.

(** "x lies in [min_val, max_val]" *)
Definition in_interval (min_val max_val x : float) : bool :=
  (min_val <=? x) && (x <=? max_val).

(** ** QuadrilateralClassifier and FractionalCoordinateSolver

    A corner is one row of a [(N, 2)] array: column 0 is [x], column 1
    is [y].  [pt_1] is the upper-left corner, [pt_2] the upper-right,
    [pt_3] the lower-left and [pt_4] the lower-right one. *)

Record point := mkpoint { px : float; py : float }.

(** [_find_vert_parallels] *)
Definition _find_vert_parallels (pt_1 pt_2 pt_3 pt_4 : point) : bool :=
  let vals := (px pt_3 - px pt_1) * (py pt_4 - py pt_2) -
              (px pt_4 - px pt_2) * (py pt_3 - py pt_1) in
  vals =? 0.

(** [_find_horiz_parallels] *)
Definition _find_horiz_parallels (pt_1 pt_2 pt_3 pt_4 : point) : bool :=
  let vals := (px pt_2 - px pt_1) * (py pt_4 - py pt_3) -
              (px pt_4 - px pt_3) * (py pt_2 - py pt_1) in
  vals =? 0.

(** [x[idxs] = np.nan] with [idxs = (x < 0) | (x > 1)] at one element. *)
Definition clip01 (x : float) : float := if outside 0 1 x then nan else x.


(** [_get_ts_irregular]: returns [(t__, s__)]. *)
Definition _get_ts_irregular (pt_1 pt_2 pt_3 pt_4 : point) (out_y out_x : float)
  : float * float :=
  let x_21 := px pt_2 - px pt_1 in
  let x_31 := px pt_3 - px pt_1 in
  let x_42 := px pt_4 - px pt_2 in
  let y_21 := py pt_2 - py pt_1 in
  let y_31 := py pt_3 - py pt_1 in
  let y_42 := py pt_4 - py pt_2 in
  let a__ := x_31 * y_42 - y_31 * x_42 in
  let b__ := out_y * (x_42 - x_31) - out_x * (y_42 - y_31) +
             x_31 * py pt_2 - y_31 * px pt_2 +
             px pt_1 * y_42 - py pt_1 * x_42 in
  let c__ := out_y * x_21 - out_x * y_21 + px pt_1 * py pt_2 -
             px pt_2 * py pt_1 in
  let t__ := _solve_quadratic a__ b__ c__ 0 1 in
  let s__ := (out_y - py pt_1 - y_31 * t__) /
             (py pt_2 + y_42 * t__ - py pt_1 - y_31 * t__) in
  (t__, clip01 s__).

(** [_get_ts_uprights_parallel]: returns [(t__, s__)]. *)
Definition _get_ts_uprights_parallel (pt_1 pt_2 pt_3 pt_4 : point)
  (out_y out_x : float) : float * float :=
  let x_21 := px pt_2 - px pt_1 in
  let x_31 := px pt_3 - px pt_1 in
  let x_43 := px pt_4 - px pt_3 in
  let y_21 := py pt_2 - py pt_1 in
  let y_31 := py pt_3 - py pt_1 in
  let y_43 := py pt_4 - py pt_3 in
  let a__ := x_21 * y_43 - y_21 * x_43 in
  let b__ := out_y * (x_43 - x_21) - out_x * (y_43 - y_21) +
             px pt_1 * y_43 - py pt_1 * x_43 +
             x_21 * py pt_3 - y_21 * px pt_3 in
  let c__ := out_y * x_31 - out_x * y_31 +
             px pt_1 * py pt_3 - px pt_3 - px pt_1 in
  let s__ := _solve_quadratic a__ b__ c__ 0 1 in
  let t__ := (out_y - py pt_1 - y_21 * s__) /
             (py pt_3 + y_43 * s__ - py pt_1 - y_21 * s__) in
  (clip01 t__, s__).

(** [_get_ts_parallellogram]: returns [(t__, s__)]; [s__] is computed
    from the clipped [t__]. *)
Definition _get_ts_parallellogram (pt_1 pt_2 pt_3 : point) (out_y out_x : float)
  : float * float :=
  let x_21 := px pt_2 - px pt_1 in
  let x_31 := px pt_3 - px pt_1 in
  let y_21 := py pt_2 - py pt_1 in
  let y_31 := py pt_3 - py pt_1 in
  let t__ := clip01 ((x_21 * (out_y - py pt_1) - y_21 * (out_x - px pt_1)) /
                     (x_21 * y_31 - y_21 * x_31)) in
  let s__ := clip01 ((out_x - px pt_1 + x_31 * t__) / x_21) in
  (t__, s__).

(** The three boolean index masks of [_get_ts], in the order the source
    builds them. *)
Definition mask_uprights (vert_parallel horiz_parallel : bool) : bool :=
  vert_parallel && negb horiz_parallel.
Definition mask_parallellogram (vert_parallel horiz_parallel : bool) : bool :=
  vert_parallel && horiz_parallel.
Definition mask_irregular (vert_parallel : bool) : bool :=
  negb vert_parallel.

(** [_get_ts] at one target point.  [t__] and [s__] start as NaN; each
    masked assignment overwrites the entries its mask selects; the last
    step sets both to NaN where either lies outside [[0, 1]]. *)
Definition _get_ts (pt_1 pt_2 pt_3 pt_4 : point) (out_x out_y : float)
  : float * float :=
  let ts := (nan * 0, nan * 0) in
  let vert_parallel := _find_vert_parallels pt_1 pt_2 pt_3 pt_4 in
  let horiz_parallel := _find_horiz_parallels pt_1 pt_2 pt_3 pt_4 in
  let ts := if mask_uprights vert_parallel horiz_parallel
            then _get_ts_uprights_parallel pt_1 pt_2 pt_3 pt_4 out_y out_x
            else ts in
  let ts := if mask_parallellogram vert_parallel horiz_parallel
            then _get_ts_parallellogram pt_1 pt_2 pt_3 out_y out_x
            else ts in
  let ts := if mask_irregular vert_parallel
            then _get_ts_irregular pt_1 pt_2 pt_3 pt_4 out_y out_x
            else ts in
  let idxs := outside 0 1 (fst ts) || outside 0 1 (snd ts) in
  if idxs then (nan, nan) else ts.

(** ** Exceptions

    The Python exceptions the modelled code can raise. *)

Inductive exn := ValueError | IndexError | AttributeError.

Inductive result (A : Type) : Type :=
| Ok (a : A)
| Raise (e : exn).
Arguments Ok {A} a.
Arguments Raise {A} e.

Definition bind {A B : Type} (r : result A) (k : A -> result B) : result B :=
  match r with
  | Ok a => k a
  | Raise e => Raise e
  end.

Notation "x <- r ;; k" := (bind r (fun x => k))
  (at level 61, r at next level, right associativity).

Fixpoint mapM {A B : Type} (f : A -> result B) (l : list A) : result (list B) :=
  match l with
  | [] => Ok []
  | a :: l' => b <- f a ;; bs <- mapM f l' ;; Ok (b :: bs)
  end.

(** [l[i]] for a non-negative integer [i]. *)
Definition index {A : Type} (l : list A) (i : nat) : result A :=
  match nth_error l i with
  | Some a => Ok a
  | None => Raise IndexError
  end.

(** [l[b]] for a boolean array [b]: the shapes must agree. *)
Fixpoint select {A : Type} (l : list A) (b : list bool) : list A :=
  match l, b with
  | a :: l', true :: b' => a :: select l' b'
  | _ :: l', false :: b' => select l' b'
  | _, _ => []
  end.

Definition bool_index {A : Type} (l : list A) (b : list bool) : result (list A) :=
  if Nat.eqb (length l) (length b) then Ok (select l b) else Raise IndexError.

(** ** CornerSelector: [_get_corner] and [_get_bounding_corners]

    One row of the [(N, neighbours)] tables: the candidates of one target
    point, in the order of the neighbour search. *)

(** [np.argmax] of a boolean row: the first [True], or 0 when there is
    none. *)
Fixpoint first_true (valid : list bool) : option nat :=
  match valid with
  | [] => None
  | true :: _ => Some 0%nat
  | false :: v => option_map S (first_true v)
  end.

Definition argmax (valid : list bool) : nat :=
  match first_true valid with
  | Some i => i
  | None => 0%nat
  end.

(** [np.max] of a boolean row. *)
Definition np_max (valid : list bool) : bool := existsb (fun b => b) valid.

(** [_get_corner] at one row; a reduction over an empty row raises. *)
Definition _get_corner (valid : list bool) (in_x in_y : list float)
  (idx_ref : list nat) : result (float * float * nat) :=
  match valid with
  | [] => Raise ValueError
  | _ =>
    let idxs := argmax valid in
    let invalid := negb (np_max valid) in
    x__ <- index in_x idxs ;;
    let x__ := if invalid then nan else x__ in
    y__ <- index in_y idxs ;;
    let y__ := if invalid then nan else y__ in
    idx <- index idx_ref idxs ;;
    Ok (x__, y__, idx)
  end.

(** The four quadrant tests on [x_diff = out_x - in_x] and
    [y_diff = out_y - in_y]. *)
Definition valid_upper_left (x_diff y_diff : float) : bool :=
  (0 <? x_diff) && (y_diff <? 0).
Definition valid_upper_right (x_diff y_diff : float) : bool :=
  (x_diff <? 0) && (y_diff <? 0).
Definition valid_lower_left (x_diff y_diff : float) : bool :=
  (0 <? x_diff) && (0 <? y_diff).
Definition valid_lower_right (x_diff y_diff : float) : bool :=
  (x_diff <? 0) && (0 <? y_diff).

(** Element-wise combination of two rows of one shape. *)
Fixpoint map2 {A B C : Type} (f : A -> B -> C) (l : list A) (m : list B)
  : list C :=
  match l, m with
  | a :: l', b :: m' => f a b :: map2 f l' m'
  | _, _ => []
  end.

Record corners := mkcorners {
  c_pt_1 : point; c_pt_2 : point; c_pt_3 : point; c_pt_4 : point;
  c_idx_ref : nat * nat * nat * nat }.

(** [_get_bounding_corners] at one target point.  [out_x] tiled
    [neighbours] times is subtracted from the row [in_x], so the rows must
    have [neighbours] entries (the neighbour search returns that many
    columns; NumPy's broadcasting of a length-one axis is left out). *)
Definition _get_bounding_corners (in_x in_y : list float) (out_x out_y : float)
  (neighbours : nat) (idx_ref : list nat) : result corners :=
  let out_x_tile := repeat out_x neighbours in
  let out_y_tile := repeat out_y neighbours in
  if negb (Nat.eqb (length in_x) neighbours && Nat.eqb (length in_y) neighbours)
  then Raise ValueError else
  let x_diff := map2 sub out_x_tile in_x in
  let y_diff := map2 sub out_y_tile in_y in
  c1 <- _get_corner (map2 valid_upper_left x_diff y_diff) in_x in_y idx_ref ;;
  c2 <- _get_corner (map2 valid_upper_right x_diff y_diff) in_x in_y idx_ref ;;
  c3 <- _get_corner (map2 valid_lower_left x_diff y_diff) in_x in_y idx_ref ;;
  c4 <- _get_corner (map2 valid_lower_right x_diff y_diff) in_x in_y idx_ref ;;
  let '(x_1, y_1, idx_1) := c1 in
  let '(x_2, y_2, idx_2) := c2 in
  let '(x_3, y_3, idx_3) := c3 in
  let '(x_4, y_4, idx_4) := c4 in
  Ok (mkcorners (mkpoint x_1 y_1) (mkpoint x_2 y_2)
                (mkpoint x_3 y_3) (mkpoint x_4 y_4)
                (idx_1, idx_2, idx_3, idx_4)).

(** ** Arrays with and without a mask

    A plain [ndarray] holds floats.  In a [numpy.ma] masked array an entry
    is either masked ([None]) or holds a float; the data stored under a
    masked entry is never read by the code below. *)

Inductive ndarray :=
| Plain (values : list float)
| MaskedArray (values : list (option float)).

Definition entries (a : ndarray) : list (option float) :=
  match a with
  | Plain v => map Some v
  | MaskedArray v => v
  end.

Definition is_masked_array (a : ndarray) : bool :=
  match a with
  | Plain _ => false
  | MaskedArray _ => true
  end.

(** [np.ma.masked_where(np.isnan(t) | np.isnan(s), t)] at one entry. *)
Definition mask_if_nan (t__ s__ x : float) : option float :=
  if is_nan t__ || is_nan s__ then None else Some x.

(** ** Orchestrator: [get_bil_info]

    The neighbour search and the projection are collaborators outside
    this module.  The search result [(input_idxs, idx_ref)] is an
    argument: [input_idxs] flags the valid source points and [idx_ref]
    holds, per target point, [neighbours] indices into the valid source
    points, the value [input_size] marking a missing neighbour.  The
    projection [proj] maps one [(lon, lat)] pair to planar [(x, y)]. *)

(** [_mask_coordinates] at one coordinate pair. *)
Definition _mask_coordinates (lon lat : float) : float * float :=
  if (lon <? -180) || (180 <? lon) || (lat <? -90) || (90 <? lat)
  then (nan, nan) else (lon, lat).

(** [np.where(idx_ref == input_size, 0, idx_ref)] at one entry. *)
Definition reduce_index (input_size idx : nat) : nat :=
  if Nat.eqb idx input_size then 0%nat else idx.

Record bil_info := mkbil_info {
  bi_t : ndarray;
  bi_s : ndarray;
  bi_input_idxs : list bool;
  bi_idx_ref : list (nat * nat * nat * nat) }.

Section GetBilInfo.

Variable proj : float -> float -> float * float.

(** [_get_output_xy] *)
Definition _get_output_xy (out_lons out_lats : list float)
  : list (float * float) :=
  map2 (fun lon lat => let '(lon, lat) := _mask_coordinates lon lat in
                       proj lon lat) out_lons out_lats.

(** [_get_input_xy]: the planar coordinates of the candidates of every
    target point, one row per target. *)
Definition _get_input_xy (in_lons in_lats : list float)
  (input_idxs : list bool) (idx_ref : list (list nat))
  : result (list (list (float * float))) :=
  in_lons <- bool_index in_lons input_idxs ;;
  in_lats <- bool_index in_lats input_idxs ;;
  let lonlats := map2 _mask_coordinates in_lons in_lats in
  mapM (mapM (fun i => ll <- index lonlats i ;; Ok (proj (fst ll) (snd ll))))
       idx_ref.

(** [_get_bounding_corners] on the whole tables: one row of candidates
    per target point. *)
Fixpoint bounding_corners_of (neighbours : nat) (out_xy : list (float * float))
  (in_xy : list (list (float * float))) (idx_ref : list (list nat))
  : result (list corners) :=
  match out_xy, in_xy, idx_ref with
  | [], [], [] => Ok []
  | (out_x, out_y) :: out_xy', i :: in_xy', r :: idx_ref' =>
    c <- _get_bounding_corners (map fst i) (map snd i) out_x out_y
           neighbours r ;;
    cs <- bounding_corners_of neighbours out_xy' in_xy' idx_ref' ;;
    Ok (c :: cs)
  | _, _, _ => Raise ValueError
  end.

(** [_get_ts] as [get_bil_info] calls it, with one-dimensional [out_x]
    and [out_y].  The first two masked assignments index [out_y[idxs, :]]
    and [out_x[idxs, :]]; on a one-dimensional array that raises
    [IndexError], and it is evaluated when [np.any(idxs)] holds.  The
    third assignment indexes [out_y[idxs]].  [_get_ts] above is the same
    function on a single target given as arrays of shape [(1, 1)], where
    each of the three assignments goes through. *)
Definition _get_ts_targets (cs : list corners) (out_xy : list (float * float))
  : result (list (float * float)) :=
  let vert_parallel c :=
    _find_vert_parallels (c_pt_1 c) (c_pt_2 c) (c_pt_3 c) (c_pt_4 c) in
  let horiz_parallel c :=
    _find_horiz_parallels (c_pt_1 c) (c_pt_2 c) (c_pt_3 c) (c_pt_4 c) in
  if existsb (fun c => mask_uprights (vert_parallel c) (horiz_parallel c)) cs
  then Raise IndexError
  else if existsb (fun c => mask_parallellogram (vert_parallel c)
                                                (horiz_parallel c)) cs
  then Raise IndexError
  else Ok (map2 (fun c o => _get_ts (c_pt_1 c) (c_pt_2 c) (c_pt_3 c) (c_pt_4 c)
                                    (fst o) (snd o)) cs out_xy).

(** [get_bil_info] from the result of the neighbour search on. *)
Definition get_bil_info (in_lons in_lats out_lons out_lats : list float)
  (neighbours : nat) (masked : bool)
  (input_idxs : list bool) (idx_ref : list (list nat)) : result bil_info :=
  let input_size := length (filter (fun b => b) input_idxs) in
  let idx_ref := map (map (reduce_index input_size)) idx_ref in
  let out_xy := _get_output_xy out_lons out_lats in
  in_xy <- _get_input_xy in_lons in_lats input_idxs idx_ref ;;
  cs <- bounding_corners_of neighbours out_xy in_xy idx_ref ;;
  let idx_ref := map c_idx_ref cs in
  ts <- _get_ts_targets cs out_xy ;;
  let t__ := map fst ts in
  let s__ := map snd ts in
  if masked
  then Ok (mkbil_info (MaskedArray (map2 (fun t s => mask_if_nan t s t) t__ s__))
                      (MaskedArray (map2 (fun t s => mask_if_nan t s s) t__ s__))
                      input_idxs idx_ref)
  else Ok (mkbil_info (Plain t__) (Plain s__) input_idxs idx_ref).

End GetBilInfo.

(** ** WeightApplier: [get_sample_from_bil_info] *)

(** [np.fmin] and [np.fmax]: the operand that is not NaN wins. *)
Definition fmin (x y : float) : float :=
  if is_nan x then y else if is_nan y then x else if y <? x then y else x.
Definition fmax (x y : float) : float :=
  if is_nan x then y else if is_nan y then x else if x <? y then y else x.

Definition reduce (f : float -> float -> float) (l : list float) : result float :=
  match l with
  | [] => Raise ValueError
  | x :: l' => Ok (fold_left f l' x)
  end.

(** The unmasked values of an array. *)
Fixpoint compressed (l : list (option float)) : list float :=
  match l with
  | [] => []
  | Some x :: l' => x :: compressed l'
  | None :: l' => compressed l'
  end.

(** [np.nanmin] and [np.nanmax]: NaN entries are ignored, and so are the
    masked entries of a masked array.  A masked array without an unmasked
    entry gives NumPy's [masked] constant; every entry read from such an
    array is masked in the output whatever the bound is, and NaN stands
    for the bound here. *)
Definition nanreduce (f : float -> float -> float) (a : ndarray) : result float :=
  match a with
  | Plain v => reduce f v
  | MaskedArray [] => Raise ValueError
  | MaskedArray v =>
    match compressed v with
    | [] => Ok nan
    | l => reduce f l
    end
  end.
Definition nanmin : ndarray -> result float := nanreduce fmin.
Definition nanmax : ndarray -> result float := nanreduce fmax.

(** [a[b]] for a boolean array [b], keeping the kind of array. *)
Definition ndarray_bool_index (a : ndarray) (b : list bool) : result ndarray :=
  match a with
  | Plain v => v' <- bool_index v b ;; Ok (Plain v')
  | MaskedArray v => v' <- bool_index v b ;; Ok (MaskedArray v')
  end.

(** The bilinear weighted sum at one target point. *)
Definition bilinear_sum (p_1 p_2 p_3 p_4 s__ t__ : float) : float :=
  p_1 * (1 - s__) * (1 - t__) +
  p_2 * s__ * (1 - t__) +
  p_3 * (1 - s__) * t__ +
  p_4 * s__ * t__.

(** The same on entries that may be masked: the result is masked when
    an operand is. *)
Definition bilinear_entry (p_1 p_2 p_3 p_4 s__ t__ : option float)
  : option float :=
  match p_1, p_2, p_3, p_4, s__, t__ with
  | Some p_1, Some p_2, Some p_3, Some p_4, Some s__, Some t__ =>
    Some (bilinear_sum p_1 p_2 p_3 p_4 s__ t__)
  | _, _, _, _, _, _ => None
  end.

(** [(result > data_max) | (result < data_min) | np.isnan(result) |
    result.mask] followed by [masked_where], at one entry. *)
Definition guard (data_min data_max : float) (r : option float) : option float :=
  match r with
  | None => None
  | Some r =>
    if (data_max <? r) || (r <? data_min) || is_nan r then None else Some r
  end.

(** The rows of [new_data[idx_arr]] with their first four columns. *)
Definition gather_row (new_data : list (option float)) (row : list nat)
  : result (option float * option float * option float * option float) :=
  vals <- mapM (index new_data) row ;;
  p_1 <- index vals 0 ;;
  p_2 <- index vals 1 ;;
  p_3 <- index vals 2 ;;
  p_4 <- index vals 3 ;;
  Ok (p_1, p_2, p_3, p_4).

(** NumPy's broadcasting of two one-dimensional shapes: the lengths are
    equal or one of them is one, which then follows the other. *)
Definition broadcast_length (n m : nat) : result nat :=
  if Nat.eqb n m then Ok n
  else if Nat.eqb n 1 then Ok m
  else if Nat.eqb m 1 then Ok n
  else Raise ValueError.

(** An operand read at the broadcast length [n]: an operand of one entry
    repeats it. *)
Definition broadcast_to {A : Type} (n : nat) (l : list A) : list A :=
  match l with
  | [a] => repeat a n
  | _ => l
  end.

(** The weighted sums entry by entry, for operands of one length. *)
Fixpoint weighted_entries
  (ps : list (option float * option float * option float * option float))
  (s__ t__ : list (option float)) : list (option float) :=
  match ps, s__, t__ with
  | (p_1, p_2, p_3, p_4) :: ps', s :: s', t :: t' =>
    bilinear_entry p_1 p_2 p_3 p_4 s t :: weighted_entries ps' s' t'
  | _, _, _ => []
  end.

(** The weighted sums of all target points.  The columns [p_1] to [p_4],
    [s__] and [t__] are one-dimensional and NumPy broadcasts them against
    each other, the columns with [s__] first and the product with [t__]
    then; operands that do not broadcast raise [ValueError]. *)
Definition weighted_sums
  (ps : list (option float * option float * option float * option float))
  (s__ t__ : list (option float)) : result (list (option float)) :=
  n <- broadcast_length (length ps) (length s__) ;;
  n <- broadcast_length n (length t__) ;;
  Ok (weighted_entries (broadcast_to n ps) (broadcast_to n s__)
                       (broadcast_to n t__)).

(** The first part of [get_sample_from_bil_info], up to the weighted sum:
    the reduced data, the two bounds and the sums. *)
Definition weighted_result (data t__ s__ : ndarray)
  (input_idxs : list bool) (idx_arr : list (list nat))
  : result (ndarray * float * float * list (option float)) :=
  new_data <- ndarray_bool_index data input_idxs ;;
  data_min <- nanmin new_data ;;
  data_max <- nanmax new_data ;;
  ps <- mapM (gather_row (entries new_data)) idx_arr ;;
  result <- weighted_sums ps (entries s__) (entries t__) ;;
  Ok (new_data, data_min, data_max, result).

(** [get_sample_from_bil_info] with [output_shape=None].  The weighted sum
    is a masked array when the reduced data, [s__] or [t__] is one; a
    plain array has no attribute [mask]. *)
Definition get_sample_from_bil_info (data t__ s__ : ndarray)
  (input_idxs : list bool) (idx_arr : list (list nat))
  : result (list (option float)) :=
  r <- weighted_result data t__ s__ input_idxs idx_arr ;;
  let '(new_data, data_min, data_max, result) := r in
  if is_masked_array new_data || is_masked_array s__ || is_masked_array t__
  then Ok (map (guard data_min data_max) result)
  else Raise AttributeError.

(** ** Wrapper: [resample_bilinear]

    The source geometry is a pair of coordinate arrays, masked first, or
    an area object; both give longitudes and latitudes.  As for
    [get_bil_info], the result of the neighbour search is an argument.
    [data] is an array with its shape, its values flattened in row-major
    order.  [UnboundLocalError] joins the exceptions of the functions
    above. *)

Inductive py_exn :=
| Exn (e : exn)
| UnboundLocalError.

Inductive outcome (A : Type) : Type :=
| Returns (a : A)
| Raises (e : py_exn).
Arguments Returns {A} a.
Arguments Raises {A} e.

Definition lift {A : Type} (r : result A) : outcome A :=
  match r with
  | Ok a => Returns a
  | Raise e => Raises (Exn e)
  end.

Definition obind {A B : Type} (r : outcome A) (k : A -> outcome B) : outcome B :=
  match r with
  | Returns a => k a
  | Raises e => Raises e
  end.

Record data_array := mkdata { d_shape : list nat; d_values : ndarray }.

(** The four indices stored for a target: a row of the [(N, 4)] index
    array. *)
Definition index_row (r : nat * nat * nat * nat) : list nat :=
  let '(idx_1, idx_2, idx_3, idx_4) := r in [idx_1; idx_2; idx_3; idx_4].

(** [_mask_coordinates(in_area[0], in_area[1])] on two flat arrays.  The
    comparisons broadcast; arrays of different lengths raise, in the
    broadcast or, when one of them has a single entry, in the masked
    assignment. *)
Definition mask_coordinate_arrays (lons lats : list float)
  : result (list float * list float) :=
  if Nat.eqb (length lons) (length lats)
  then Ok (map2 (fun lon lat => fst (_mask_coordinates lon lat)) lons lats,
           map2 (fun lon lat => snd (_mask_coordinates lon lat)) lons lats)
  else if Nat.eqb (length lons) 1 || Nat.eqb (length lats) 1
  then Raise IndexError
  else Raise ValueError.

(** [a[:, i]] for a flattened array of [n] rows and [k] columns. *)
Fixpoint column_of {A : Type} (n k i : nat) (l : list A) : list A :=
  match n with
  | O => []
  | S n' =>
    match nth_error l i with
    | Some a => a :: column_of n' k i (skipn k l)
    | None => []
    end
  end.

Definition ndarray_column (n k i : nat) (a : ndarray) : ndarray :=
  match a with
  | Plain v => Plain (column_of n k i v)
  | MaskedArray v => MaskedArray (column_of n k i v)
  end.

(** The number of datasets and of rows after the reshaping of [data]:
    [(num_dsets, rows)].  Three dimensions or more whose first two
    multiply to the number of source points give [shape[2]] datasets;
    [reshape] raises when the sizes do not agree.  Otherwise there is one
    dataset, and [data.shape[0]] raises for an array without
    dimension. *)
Definition datasets_of (shape : list nat) (n_source : nat) : result (nat * nat) :=
  match shape with
  | s0 :: s1 :: s2 :: _ =>
    if Nat.eqb (s0 * s1) n_source
    then if Nat.eqb (fold_right Nat.mul 1%nat shape) (s0 * s1 * s2)
         then Ok (s2, (s0 * s1)%nat) else Raise ValueError
    else Ok (1%nat, s0)
  | s0 :: _ => Ok (1%nat, s0)
  | [] => Raise IndexError
  end.

(** What a plain array receives from a masked one: the values of the
    unmasked entries and, for the masked entry at position [j], the data
    [under j] lying below the mask. *)
Fixpoint stored (under : nat -> float) (j : nat) (r : list (option float))
  : list float :=
  match r with
  | [] => []
  | Some v :: r' => v :: stored under (S j) r'
  | None :: r' => under j :: stored under (S j) r'
  end.

(** The result of [resample_bilinear], of shape [(out_area.size,
    num_dsets)], is held by columns: one list per dataset. *)
Inductive resampled :=
| PlainResult (columns : list (list float))
| MaskedResult (columns : list (list (option float))).

Section ResampleBilinear.

Variable proj : float -> float -> float * float.

(** The data below the masked entries of the sample of dataset [i]; the
    masked arrays of this model do not carry it. *)
Variable under : nat -> nat -> float.

(** [result[:, i] = get_sample_from_bil_info(data[:, i], ...)] for one
    dataset: the column takes the sample when the lengths agree, and a
    sample of one entry is broadcast. *)
Definition resample_dataset (data : ndarray) (rows num_dsets out_size : nat)
  (info : bil_info) (i : nat) : result (list float) :=
  r <- get_sample_from_bil_info (ndarray_column rows num_dsets i data)
         (bi_t info) (bi_s info) (bi_input_idxs info)
         (map index_row (bi_idx_ref info)) ;;
  if Nat.eqb (length r) out_size then Ok (stored (under i) 0 r)
  else match stored (under i) 0 r with
       | [v] => Ok (repeat v out_size)
       | _ => Raise ValueError
       end.

(** The resampling information: the source coordinates, masked when
    given as a pair of arrays, and [get_bil_info] with [masked=False]. *)
Definition resampling_info (in_area_is_tuple : bool)
  (in_lons in_lats out_lons out_lats : list float) (neighbours : nat)
  (input_idxs : list bool) (idx_ref : list (list nat)) : result bil_info :=
  lonlats <- (if in_area_is_tuple
              then mask_coordinate_arrays in_lons in_lats
              else Ok (in_lons, in_lats)) ;;
  get_bil_info proj (fst lonlats) (snd lonlats) out_lons out_lats
    neighbours false input_idxs idx_ref.

(** [resample_bilinear].  In the branch for a single dataset the call
    [get_sample_from_bil_info(data[:, i], ...)] reads the loop variable
    [i] of the other branch, which is not bound there.
    [result == np.nan] compares every entry with NaN. *)
Definition resample_bilinear (data : data_array) (in_area_is_tuple : bool)
  (in_lons in_lats out_lons out_lats : list float) (neighbours : nat)
  (fill_value : option float)
  (input_idxs : list bool) (idx_ref : list (list nat)) : outcome resampled :=
  obind (lift (resampling_info in_area_is_tuple in_lons in_lats out_lons
                 out_lats neighbours input_idxs idx_ref)) (fun info =>
  obind (lift (datasets_of (d_shape data) (length (bi_input_idxs info))))
        (fun nr =>
  let '(num_dsets, rows) := nr in
  obind (if Nat.ltb 1 num_dsets
         then lift (mapM (resample_dataset (d_values data) rows num_dsets
                            (length out_lons) info)
                         (seq 0 num_dsets))
         else Raises UnboundLocalError) (fun result =>
  match fill_value with
  | None =>
    Returns (MaskedResult
               (map (map (fun x => if is_nan x then None else Some x)) result))
  | Some fill =>
    Returns (PlainResult
               (map (map (fun x => if x =? nan then fill else x)) result))
  end))).

End ResampleBilinear.

(** ** Sample data

    The projection used by the examples takes longitude and latitude as
    planar coordinates. *)

Definition planar (lon lat : float) : float * float := (lon, lat).

(** * Vocabulary of the properties *)

(** Zero or a finite number: neither NaN nor an infinity. *)
Definition Snum (x : spec_float) : bool :=
  match x with S754_zero _ | S754_finite _ _ _ => true | _ => false end.

(** One rounding pass of [binary_round_aux]. *)
Definition pass (m e : Z) (l : location) : shr_record * Z := shr_fexp prec emax m e l.

(** A fractional coordinate is usable when it is NaN or lies in
    [[0, 1]]. *)
Definition nan_or_unit (x : float) : bool := is_nan x || in_interval 0 1 x.

Definition nan_or_unit_entry (x : option float) : bool :=
  match x with
  | None => true
  | Some x => nan_or_unit x
  end.

(** The last step of [_get_ts]. *)
Definition final_clip (ts : float * float) : float * float :=
  if outside 0 1 (fst ts) || outside 0 1 (snd ts) then (nan, nan) else ts.

(** A candidate: planar coordinates and index into the valid source
    points. *)
Definition cand_x (c : float * float * nat) : float := fst (fst c).
Definition cand_y (c : float * float * nat) : float := snd (fst c).
Definition cand_idx (c : float * float * nat) : nat := snd c.

(** What [_get_corner] returns for a test [f] on the candidates: the
    first candidate that passes, or NaN coordinates with the index of the
    first candidate of the row. *)
Definition chosen (f : float * float * nat -> bool)
  (cands : list (float * float * nat)) (c0 : float * float * nat)
  : float * float * nat :=
  match find f cands with
  | Some c => c
  | None => (nan, nan, cand_idx c0)
  end.

(** A candidate is eligible for a quadrant when the quadrant test holds
    of the offsets [out_x - in_x] and [out_y - in_y], target minus
    candidate. *)
Definition eligible (valid : float -> float -> bool) (out_x out_y : float)
  (c : float * float * nat) : bool :=
  valid (out_x - cand_x c) (out_y - cand_y c).

(** The four quadrants, their tests on [(x_diff, y_diff)] and their
    places in the result of [_get_bounding_corners]. *)
Inductive quadrant := UpperLeft | UpperRight | LowerLeft | LowerRight.

Definition quadrant_test (q : quadrant) : float -> float -> bool :=
  match q with
  | UpperLeft => valid_upper_left
  | UpperRight => valid_upper_right
  | LowerLeft => valid_lower_left
  | LowerRight => valid_lower_right
  end.

Definition corner_point (c : corners) (q : quadrant) : point :=
  match q with
  | UpperLeft => c_pt_1 c
  | UpperRight => c_pt_2 c
  | LowerLeft => c_pt_3 c
  | LowerRight => c_pt_4 c
  end.

Definition corner_index (c : corners) (q : quadrant) : nat :=
  let '(idx_1, idx_2, idx_3, idx_4) := c_idx_ref c in
  match q with
  | UpperLeft => idx_1
  | UpperRight => idx_2
  | LowerLeft => idx_3
  | LowerRight => idx_4
  end.

(** The quadrant tests as the specification words them, on candidate
    minus target. *)
Definition spec_upper_left (out_x out_y : float) (c : float * float * nat) : bool :=
  (0 <? cand_x c - out_x) && (cand_y c - out_y <? 0).
Definition spec_lower_right (out_x out_y : float) (c : float * float * nat) : bool :=
  (cand_x c - out_x <? 0) && (0 <? cand_y c - out_y).

(** The four quadrants are disjoint: a candidate is eligible for at most
    one of them. *)
Definition quadrant_count (out_x out_y : float) (c : float * float * nat) : nat :=
  Nat.b2n (eligible valid_upper_left out_x out_y c) +
  Nat.b2n (eligible valid_upper_right out_x out_y c) +
  Nat.b2n (eligible valid_lower_left out_x out_y c) +
  Nat.b2n (eligible valid_lower_right out_x out_y c).

Definition occupied (valid : float -> float -> bool) (out_x out_y : float)
  (row : list (float * float * nat)) : nat :=
  Nat.b2n (existsb (eligible valid out_x out_y) row).

(** A corner without coordinates leaves the target without fractional
    coordinates. *)
Definition nan_point (p : point) : Prop :=
  is_nan (px p) = true /\ is_nan (py p) = true.

(** A target without one of its corners. *)
Definition lacks_corner (c : corners) : Prop :=
  nan_point (c_pt_1 c) \/ nan_point (c_pt_2 c) \/
  nan_point (c_pt_3 c) \/ nan_point (c_pt_4 c).

(** An entry without a value: NaN, or masked. *)
Definition absent_entry (x : option float) : bool :=
  match x with
  | None => true
  | Some x => is_nan x
  end.

(** The entries of the reduced data that some corner of some target
    point refers to, and the maximum over them: the bound as the
    specification words it. *)
Definition referenced (new_data : list (option float))
  (idx_arr : list (list nat)) : list (option float) :=
  flat_map (fun row =>
              flat_map (fun i => match nth_error new_data i with
                                 | Some v => [v]
                                 | None => []
                                 end) (firstn 4 row)) idx_arr.

Definition spec_data_max (new_data : list (option float))
  (idx_arr : list (list nat)) : result float :=
  nanmax (MaskedArray (referenced new_data idx_arr)).

(** The test of [_find_vert_parallels] on the corners of a target. *)
Definition uprights_parallel (c : corners) : bool :=
  _find_vert_parallels (c_pt_1 c) (c_pt_2 c) (c_pt_3 c) (c_pt_4 c).

(** The lengths of the columns of a result, and its kind. *)
Definition column_lengths (r : resampled) : list nat :=
  match r with
  | PlainResult c => map (@length float) c
  | MaskedResult c => map (@length (option float)) c
  end.

Definition is_masked_result (r : resampled) : bool :=
  match r with
  | PlainResult _ => false
  | MaskedResult _ => true
  end.

(** The entry of an operand that broadcasting reads at position [i]: the
    only entry of an operand of one entry, the entry [i] otherwise. *)
Definition broadcast_index {A : Type} (l : list A) (i : nat) : nat :=
  match l with
  | [_] => 0%nat
  | _ => i
  end.

(** * Properties *)

(** ** IEEE facts used by the proofs

    Everything is derived from the specification of the primitive
    operations over [spec_float]. *)

Module FloatFacts.

Lemma SFcompare_refl x : x <> S754_nan -> SFcompare x x = Some Eq.
Proof.
  destruct x as [s|s| |s m e]; simpl; intros H; try congruence.
  - destruct s; reflexivity.
  - rewrite Z.compare_refl, Pos.compare_cont_refl. destruct s; reflexivity.
Qed.

Lemma is_nan_spec x : is_nan x = true <-> Prim2SF x = S754_nan.
Proof.
  unfold is_nan. rewrite FloatAxioms.eqb_spec. unfold SFeqb. split.
  - intros H. destruct (Prim2SF x) eqn:E; try reflexivity;
      rewrite SFcompare_refl in H by discriminate; discriminate.
  - intros ->. reflexivity.
Qed.

Lemma is_nan_false_spec x : is_nan x = false <-> Prim2SF x <> S754_nan.
Proof.
  rewrite <- is_nan_spec. destruct (is_nan x); split; congruence.
Qed.

(** Comparisons with NaN are false. *)
Lemma ltb_nan_l x y : is_nan x = true -> (x <? y) = false.
Proof.
  rewrite is_nan_spec, ltb_spec. intros ->. reflexivity.
Qed.

Lemma ltb_nan_r x y : is_nan y = true -> (x <? y) = false.
Proof.
  rewrite is_nan_spec, ltb_spec. intros ->.
  unfold SFltb. destruct (Prim2SF x); reflexivity.
Qed.

Lemma leb_nan_l x y : is_nan x = true -> (x <=? y) = false.
Proof.
  rewrite is_nan_spec, leb_spec. intros ->. reflexivity.
Qed.

Lemma leb_nan_r x y : is_nan y = true -> (x <=? y) = false.
Proof.
  rewrite is_nan_spec, leb_spec. intros ->.
  unfold SFleb. destruct (Prim2SF x); reflexivity.
Qed.

Lemma eqb_nan_l x y : is_nan x = true -> (x =? y) = false.
Proof.
  rewrite is_nan_spec, FloatAxioms.eqb_spec. intros ->. reflexivity.
Qed.

(** The order is total away from NaN. *)
Lemma SFcompare_antisym x y :
  SFcompare y x = option_map CompOpp (SFcompare x y).
Proof.
  destruct x as [sx|sx| |sx mx ex], y as [sy|sy| |sy my ey]; simpl;
    try reflexivity;
    try (destruct sx; reflexivity); try (destruct sy; reflexivity);
    try (destruct sx, sy; reflexivity).
  f_equal. rewrite (Z.compare_antisym ex ey).
  assert (Hm : Pos.compare_cont Eq my mx
               = CompOpp (Pos.compare_cont Eq mx my))
    by (symmetry; apply (Pos.compare_cont_antisym mx my Eq)).
  rewrite Hm. clear Hm.
  destruct sx, sy; simpl; try reflexivity;
    destruct (ex ?= ey)%Z; simpl; try reflexivity;
    destruct (Pos.compare_cont Eq mx my); reflexivity.
Qed.

Lemma ltb_false_leb x y :
  is_nan x = false -> is_nan y = false ->
  (x <? y) = false -> (y <=? x) = true.
Proof.
  rewrite !is_nan_false_spec, ltb_spec, leb_spec.
  unfold SFltb, SFleb. rewrite (SFcompare_antisym (Prim2SF x) (Prim2SF y)).
  intros Hx Hy.
  destruct (SFcompare (Prim2SF x) (Prim2SF y)) as [[]|] eqn:Ec;
    simpl; try congruence.
  destruct (Prim2SF x), (Prim2SF y); simpl in Ec; congruence.
Qed.

Lemma ltb_true_leb x y : (x <? y) = true -> (y <=? x) = false.
Proof.
  rewrite ltb_spec, leb_spec. unfold SFltb, SFleb.
  rewrite (SFcompare_antisym (Prim2SF x) (Prim2SF y)).
  destruct (SFcompare (Prim2SF x) (Prim2SF y)) as [[]|]; simpl; congruence.
Qed.

Lemma leb_true_ltb x y : (x <=? y) = true -> (y <? x) = false.
Proof.
  intros H. destruct (y <? x) eqn:E; [|reflexivity].
  apply ltb_true_leb in E. congruence.
Qed.

(** *** Rounding: digits, shifts and the two passes of [binary_round_aux] *)

Local Open Scope Z_scope.

Lemma digits2_size p : digits2_pos p = Pos.size p.
Proof. induction p; simpl; congruence. Qed.

Lemma Zdigits2_bounds p :
  2 ^ (Zdigits2 (Zpos p) - 1) <= Zpos p < 2 ^ Zdigits2 (Zpos p).
Proof.
  change (Zdigits2 (Zpos p)) with (Zpos (digits2_pos p)).
  rewrite digits2_size.
  pose proof (Pos.size_le p) as Hle. pose proof (Pos.size_gt p) as Hgt.
  apply Pos2Z.pos_le_pos in Hle. apply Pos2Z.pos_lt_pos in Hgt.
  rewrite Pos2Z.inj_pow in Hle, Hgt.
  change (Zpos p~0) with (2 * Zpos p) in Hle.
  remember (Zpos (Pos.size p)) as k eqn:Ek.
  assert (Hk : 0 < k) by (subst k; apply Pos2Z.is_pos).
  clear Ek. split; [|exact Hgt].
  replace k with (Z.succ (k - 1)) in Hle by lia.
  rewrite Z.pow_succ_r in Hle by lia. lia.
Qed.

Lemma Zdigits2_nonneg m : 0 <= Zdigits2 m.
Proof. destruct m; simpl; lia. Qed.

Lemma Zdigits2_mono a b : 0 <= a <= b -> Zdigits2 a <= Zdigits2 b.
Proof.
  intros [Ha Hab]. destruct a as [|a|a]; [apply Zdigits2_nonneg| |lia].
  destruct b as [|b|b]; try lia.
  pose proof (Zdigits2_bounds a) as [Ha1 _].
  pose proof (Zdigits2_bounds b) as [_ Hb2].
  destruct (Z_le_gt_dec (Zdigits2 (Zpos a)) (Zdigits2 (Zpos b))) as [|Hgt]; [assumption|].
  exfalso.
  assert (2 ^ Zdigits2 (Zpos b) <= 2 ^ (Zdigits2 (Zpos a) - 1)).
  { apply Z.pow_le_mono_r; [lia|]. lia. }
  lia.
Qed.

Lemma Zdigits2_succ a : 0 <= a -> Zdigits2 (a + 1) <= Zdigits2 a + 1.
Proof.
  intros Ha. destruct a as [|a|a]; [simpl; lia| |lia].
  replace (Z.pos a + 1) with (Zpos (a + 1)) by lia.
  pose proof (Zdigits2_bounds a) as [_ Ha2].
  pose proof (Zdigits2_bounds (a + 1)) as [Hb1 _].
  pose proof (Zdigits2_nonneg (Zpos a)) as Hn.
  remember (Zdigits2 (Zpos a)) as da. remember (Zdigits2 (Zpos (a + 1))) as db.
  destruct (Z_le_gt_dec db (da + 1)) as [|Hgt]; [assumption|].
  exfalso.
  assert (H : 2 ^ (da + 1) <= 2 ^ (db - 1)).
  { apply Z.pow_le_mono_r; lia. }
  rewrite Z.pow_add_r in H by lia.
  lia.
Qed.

Lemma shr_1_bounds mrs : 0 <= shr_m mrs -> 0 <= shr_m (shr_1 mrs) <= shr_m mrs.
Proof.
  destruct mrs as [m r s]. simpl. intros Hm.
  destruct m as [|[p|p|]|p]; simpl; lia.
Qed.

Lemma iter_shr_1_bounds p : forall mrs,
  0 <= shr_m mrs -> 0 <= shr_m (SpecFloat.iter_pos shr_1 p mrs) <= shr_m mrs.
Proof.
  induction p; intros mrs Hm; simpl.
  - pose proof (shr_1_bounds mrs Hm) as H1.
    pose proof (IHp (shr_1 mrs) (proj1 H1)) as H2.
    pose proof (IHp _ (proj1 H2)) as H3. lia.
  - pose proof (IHp mrs Hm) as H2.
    pose proof (IHp _ (proj1 H2)) as H3. lia.
  - apply shr_1_bounds; assumption.
Qed.

Lemma shr_bounds mrs e n :
  0 <= shr_m mrs -> 0 <= shr_m (fst (shr mrs e n)) <= shr_m mrs.
Proof.
  intros Hm. destruct n; simpl; try lia. apply iter_shr_1_bounds; assumption.
Qed.

Lemma round_nearest_even_bounds m l :
  0 <= m -> m <= round_nearest_even m l <= m + 1.
Proof.
  intros Hm. destruct l as [|[]]; simpl; try lia. destruct (Z.even m); lia.
Qed.

Local Abbreviation fexp64 := (fexp prec emax).

Lemma fexp64_eq x : fexp64 x = Z.max (x - 53) (-1074).
Proof. reflexivity. Qed.

Lemma shr_nonpos mrs e n : n <= 0 -> shr mrs e n = (mrs, e).
Proof. destruct n; try reflexivity. lia. Qed.

Lemma shr_pos_snd mrs e n : 0 < n -> snd (shr mrs e n) = e + n.
Proof. destruct n; try lia. reflexivity. Qed.

Lemma shr_fst_indep mrs e e' n : fst (shr mrs e n) = fst (shr mrs e' n).
Proof. destruct n; reflexivity. Qed.

Lemma bra_unfold sx mx ex lx :
  binary_round_aux prec emax sx mx ex lx =
  let p1 := pass mx ex lx in
  let p2 := pass (round_nearest_even (shr_m (fst p1)) (loc_of_shr_record (fst p1)))
                 (snd p1) loc_Exact in
  match shr_m (fst p2) with
  | Z0 => S754_zero sx
  | Zpos m => if Z.leb (snd p2) 971 then S754_finite sx m (snd p2) else S754_infinity sx
  | _ => S754_nan
  end.
Proof.
  unfold binary_round_aux, pass. destruct (shr_fexp prec emax mx ex lx) as [m1 e1].
  simpl. destruct (shr_fexp prec emax _ e1 loc_Exact) as [m2 e2]. reflexivity.
Qed.

Lemma pass_fst_nonneg m e l : 0 <= m -> 0 <= shr_m (fst (pass m e l)) <= m.
Proof.
  intros Hm. unfold pass, shr_fexp.
  pose proof (shr_bounds (shr_record_of_loc m l) e
                (fexp64 (Zdigits2 m + e) - e)) as H.
  assert (Hr : shr_m (shr_record_of_loc m l) = m) by (destruct l as [|[]]; reflexivity).
  rewrite Hr in H. apply H. exact Hm.
Qed.

(** Rounding a non-negative mantissa never produces NaN. *)
Lemma bra_not_nan sx mx ex lx :
  0 <= mx -> binary_round_aux prec emax sx mx ex lx <> S754_nan.
Proof.
  intros Hm. rewrite bra_unfold. cbv zeta.
  set (p1 := pass mx ex lx).
  pose proof (pass_fst_nonneg mx ex lx Hm) as H1. fold p1 in H1.
  set (r := round_nearest_even _ _).
  assert (Hr : 0 <= r).
  { pose proof (round_nearest_even_bounds (shr_m (fst p1)) (loc_of_shr_record (fst p1)) (proj1 H1)).
    unfold r. lia. }
  pose proof (pass_fst_nonneg r (snd p1) loc_Exact Hr) as H2.
  destruct (shr_m (fst (pass r (snd p1) loc_Exact))); try discriminate.
  - destruct (Z.leb _ _); discriminate.
  - lia.
Qed.

Lemma pass_snd m e l :
  snd (pass m e l) = Z.max e (fexp64 (Zdigits2 m + e)).
Proof.
  unfold pass, shr_fexp.
  destruct (Z_le_gt_dec (fexp64 (Zdigits2 m + e) - e) 0) as [Hn|Hn].
  - rewrite shr_nonpos by assumption. simpl. lia.
  - rewrite shr_pos_snd by lia. lia.
Qed.

Lemma pass_step m e l :
  (fst (pass m (e + 1) l) = fst (pass m e l) /\
   snd (pass m (e + 1) l) = snd (pass m e l) + 1) \/
  snd (pass m e l) = -1074.
Proof.
  destruct (Z_le_gt_dec (-1074) (Zdigits2 m + e - 53)) as [Hnorm|Hsub].
  - left. split.
    + unfold pass, shr_fexp.
      replace (fexp64 (Zdigits2 m + (e + 1)) - (e + 1))
        with (fexp64 (Zdigits2 m + e) - e) by (rewrite !fexp64_eq; lia).
      apply shr_fst_indep.
    + rewrite !pass_snd, !fexp64_eq. lia.
  - destruct (Z_le_gt_dec (-1074) e) as [He|He].
    + left. unfold pass, shr_fexp.
      rewrite !shr_nonpos by (rewrite fexp64_eq; lia). simpl. split; reflexivity.
    + right. rewrite pass_snd, fexp64_eq. lia.
Qed.

Lemma bra_overflow_step sx mx ex s' :
  0 <= mx -> Zdigits2 mx <= 2000 ->
  binary_round_aux prec emax sx mx ex loc_Exact = S754_infinity s' ->
  binary_round_aux prec emax sx mx (ex + 1) loc_Exact = S754_infinity s'.
Proof.
  intros Hm Hd. rewrite !bra_unfold. cbv zeta.
  destruct (pass_step mx ex loc_Exact) as [[Hf Hs]|Hsub].
  - rewrite Hf, Hs.
    set (r := round_nearest_even _ _). set (e1 := snd (pass mx ex loc_Exact)).
    destruct (pass_step r e1 loc_Exact) as [[Hf2 Hs2]|Hsub2].
    + rewrite Hf2, Hs2.
      destruct (shr_m (fst (pass r e1 loc_Exact))); try discriminate.
      destruct (Z.leb_spec (snd (pass r e1 loc_Exact)) 971); try discriminate.
      intros Hinf. destruct (Z.leb_spec (snd (pass r e1 loc_Exact) + 1) 971); [lia|exact Hinf].
    + rewrite Hsub2.
      destruct (shr_m (fst (pass r e1 loc_Exact))); discriminate.
  - pose proof (pass_fst_nonneg mx ex loc_Exact Hm) as H1.
    set (p1 := pass mx ex loc_Exact) in *.
    pose proof (round_nearest_even_bounds (shr_m (fst p1))
                  (loc_of_shr_record (fst p1)) (proj1 H1)) as Hr.
    set (r := round_nearest_even _ _) in *.
    assert (Hdr : Zdigits2 r <= 2001).
    { pose proof (Zdigits2_mono r (mx + 1) ltac:(lia)).
      pose proof (Zdigits2_succ mx Hm). lia. }
    pose proof (pass_snd r (snd p1) loc_Exact) as Hs2.
    rewrite Hsub, fexp64_eq in Hs2.
    rewrite Hsub.
    destruct (shr_m (fst (pass r (-1074) loc_Exact))); try discriminate.
    destruct (Z.leb_spec (snd (pass r (-1074) loc_Exact)) 971); [discriminate|lia].
Qed.

(** *** Special values through the arithmetic operations *)

Lemma bra_inf_sign sx mx ex lx s :
  binary_round_aux prec emax sx mx ex lx = S754_infinity s -> s = sx.
Proof.
  rewrite bra_unfold. cbv zeta.
  destruct (shr_m _); try discriminate.
  destruct (Z.leb _ _); congruence.
Qed.

Lemma binary_normalize_not_nan m e sz :
  binary_normalize prec emax m e sz <> S754_nan.
Proof.
  destruct m as [|m|m]; simpl; try discriminate;
    unfold binary_round; destruct (shl_align _ _ _) as [mz ez];
    apply bra_not_nan; lia.
Qed.

Lemma SF64add_nan x y :
  SF64add x y = S754_nan ->
  x = S754_nan \/ y = S754_nan \/
  exists s, x = S754_infinity s /\ y = S754_infinity (negb s).
Proof.
  unfold SF64add.
  destruct x as [sx|sx| |sx mx ex], y as [sy|sy| |sy my ey]; simpl;
    auto; try discriminate.
  - destruct sx, sy; discriminate.
  - destruct sx, sy; try discriminate; intros _; right; right;
      eexists; split; reflexivity.
  - intros H. exfalso. revert H. apply binary_normalize_not_nan.
Qed.

Lemma SF64div_nan x y :
  SF64div x y = S754_nan ->
  x = S754_nan \/ y = S754_nan \/
  (exists s s', x = S754_zero s /\ y = S754_zero s') \/
  (exists s s', x = S754_infinity s /\ y = S754_infinity s').
Proof.
  unfold SF64div.
  destruct x as [sx|sx| |sx mx ex], y as [sy|sy| |sy my ey]; simpl;
    auto; try discriminate.
  - intros _. right; right; left. eauto.
  - intros _. right; right; right. eauto.
  - intros H. exfalso. revert H.
    unfold SFdiv_core_binary.
    set (m' := match _ with Z0 => _ | Zpos _ => _ | Zneg _ => _ end).
    assert (Hm' : 0 <= m').
    { unfold m'. destruct (_ - _ - _); try lia. apply Z.shiftl_nonneg. lia. }
    pose proof (Z.div_pos m' (Zpos my) Hm' ltac:(lia)) as Hq.
    unfold Z.div in Hq. destruct (Z.div_eucl m' (Zpos my)) as [q r].
    apply bra_not_nan. exact Hq.
Qed.

Lemma SF64sqrt_not_neg_inf x : SF64sqrt x <> S754_infinity true.
Proof.
  unfold SF64sqrt. destruct x as [s|[]| |[] m e]; simpl; try discriminate.
  destruct (SFsqrt_core_binary _ _ _ _) as [[mz ez] lz].
  intros H. apply bra_inf_sign in H. discriminate.
Qed.

Lemma SF64sqrt_of_special x :
  Snum x = false ->
  SF64sqrt x = S754_nan \/ SF64sqrt x = S754_infinity false.
Proof. destruct x as [s|[]| |s m e]; simpl; auto; discriminate. Qed.

Lemma SF64sub_special_r x y :
  Snum y = false ->
  Snum (SF64sub x y) = false.
Proof.
  destruct x as [sx|sx| |sx mx ex], y as [sy|sy| |sy my ey]; simpl;
    try reflexivity; try discriminate; destruct sx, sy; reflexivity.
Qed.

Lemma SF64mul_special_l x y :
  (exists s, x = S754_infinity s) -> Snum (SF64mul x y) = false.
Proof.
  intros [s ->]. destruct y; reflexivity.
Qed.

Lemma SF64div_by_zero x s : Snum (SF64div x (S754_zero s)) = false.
Proof. destruct x; reflexivity. Qed.

Lemma SF64div_of_special x y : Snum x = false -> Snum (SF64div x y) = false.
Proof.
  destruct x as [sx|sx| |sx mx ex], y as [sy|sy| |sy my ey]; simpl;
    try reflexivity; discriminate.
Qed.

Lemma SF64div_special_inf x s :
  Snum x = false -> SF64div x (S754_infinity s) = S754_nan.
Proof. destruct x; simpl; try reflexivity; discriminate. Qed.

Lemma SF64div_nan_r x : SF64div x S754_nan = S754_nan.
Proof. destruct x; reflexivity. Qed.

Lemma SF64sub_nan_r x : SF64sub x S754_nan = S754_nan.
Proof. destruct x; reflexivity. Qed.

(** *** Doubling overflows before quadrupling does *)

Lemma valid_digits s m e :
  valid_binary (S754_finite s m e) = true -> Zpos (digits2_pos m) <= 53.
Proof.
  simpl. unfold bounded, canonical_mantissa. intros H.
  apply andb_prop in H. destruct H as [H _]. apply Z.eqb_eq in H.
  rewrite fexp64_eq in H. lia.
Qed.

Lemma Zdigits2_mul_pow52 m :
  Zpos (digits2_pos m) <= 53 ->
  Zdigits2 (Zpos (4503599627370496 * m)) <= 2000.
Proof.
  intros Hm.
  pose proof (Zdigits2_bounds m) as [_ Hu].
  pose proof (Zdigits2_bounds (4503599627370496 * m)) as [Hl _].
  change (Zdigits2 (Zpos m)) with (Zpos (digits2_pos m)) in Hu.
  remember (Zdigits2 (Z.pos (4503599627370496 * m))) as d.
  destruct (Z_le_gt_dec d 2000) as [|Hgt]; [assumption|exfalso].
  assert (H1 : 2 ^ Zpos (digits2_pos m) <= 2 ^ 53) by (apply Z.pow_le_mono_r; lia).
  assert (H2 : 2 ^ 200 <= 2 ^ (d - 1)) by (apply Z.pow_le_mono_r; lia).
  rewrite Pos2Z.inj_mul in Hl.
  assert (H3 : Z.pos 4503599627370496 * Zpos m < 2 ^ 52 * 2 ^ 53).
  { change (Z.pos 4503599627370496) with (2 ^ 52). nia. }
  assert (H4 : 2 ^ 52 * 2 ^ 53 < 2 ^ 200) by reflexivity.
  lia.
Qed.

Local Close Scope Z_scope.

Lemma mul_two_overflow a s :
  Prim2SF (2 * a) = S754_infinity s ->
  exists s', Prim2SF (4 * a) = S754_infinity s'.
Proof.
  rewrite !mul_spec. pose proof (Prim2SF_valid a) as Hv.
  change (Prim2SF 2) with (S754_finite false 4503599627370496 (-51)).
  change (Prim2SF 4) with (S754_finite false 4503599627370496 (-50)).
  destruct (Prim2SF a) as [sa|sa| |sa ma ea]; unfold SF64mul, SFmul;
    cbv beta iota; try discriminate.
  - intros _. eauto.
  - intros H. exists s.
    replace (-50 + ea)%Z with (-51 + ea + 1)%Z by lia.
    apply bra_overflow_step; [lia| |exact H].
    apply Zdigits2_mul_pow52. apply (valid_digits _ _ _ Hv).
Qed.

End FloatFacts.
Import FloatFacts.

(** *** The solver's selection rule *)

Lemma is_finite_spec x : is_finite x = Snum (Prim2SF x).
Proof.
  unfold is_finite, is_infinity.
  destruct (is_nan x) eqn:En.
  - apply is_nan_spec in En. rewrite En. reflexivity.
  - apply is_nan_false_spec in En.
    rewrite FloatAxioms.eqb_spec, abs_spec.
    change (Prim2SF infinity) with (S754_infinity false).
    destruct (Prim2SF x) as [s|s| |s m e]; try reflexivity; congruence.
Qed.

Lemma is_finite_not_nan x : is_finite x = true -> is_nan x = false.
Proof.
  rewrite is_finite_spec. intros H. apply is_nan_false_spec.
  intros E. rewrite E in H. discriminate.
Qed.

(** Between finite bounds there are only finite numbers. *)
Lemma in_interval_finite mn mx x :
  is_finite mn = true -> is_finite mx = true ->
  in_interval mn mx x = true -> is_finite x = true.
Proof.
  rewrite !is_finite_spec. unfold in_interval. rewrite !leb_spec.
  intros Hmn Hmx H. apply andb_prop in H. destruct H as [H1 H2].
  unfold SFleb in *.
  destruct (Prim2SF x) as [s|s| |s m e]; try reflexivity.
  - destruct s.
    + destruct (Prim2SF mn); simpl in *; discriminate.
    + destruct (Prim2SF mx) as [| | |[] ? ?]; simpl in *; discriminate.
  - destruct (Prim2SF mn); simpl in *; discriminate.
Qed.

Lemma in_interval_not_outside mn mx x :
  in_interval mn mx x = true -> outside mn mx x = false.
Proof.
  unfold in_interval, outside. intros H. apply andb_prop in H.
  destruct H as [H1 H2].
  rewrite (leb_true_ltb _ _ H1), (leb_true_ltb _ _ H2). reflexivity.
Qed.

Lemma not_outside_cases mn mx x :
  is_nan mn = false -> is_nan mx = false ->
  outside mn mx x = false ->
  is_nan x = true \/ in_interval mn mx x = true.
Proof.
  unfold outside, in_interval. intros Hmn Hmx H.
  apply orb_false_elim in H. destruct H as [H1 H2].
  destruct (is_nan x) eqn:En; [left; reflexivity|right].
  rewrite (ltb_false_leb _ _ En Hmn H1), (ltb_false_leb _ _ Hmx En H2).
  reflexivity.
Qed.

Lemma outside_nan mn mx x : is_nan x = true -> outside mn mx x = false.
Proof.
  intros H. unfold outside. rewrite (ltb_nan_l _ _ H), (ltb_nan_r _ _ H).
  reflexivity.
Qed.

Lemma in_interval_nan mn mx x : is_nan x = true -> in_interval mn mx x = false.
Proof.
  intros H. unfold in_interval. rewrite (leb_nan_r _ _ H). reflexivity.
Qed.

(** When the first root is NaN the second one is NaN or infinite. *)
Lemma quad_x_1_nan_x_2 a__ b__ c__ :
  is_nan (quad_x_1 a__ b__ c__) = true ->
  is_finite (quad_x_2 a__ b__ c__) = false.
Proof.
  rewrite is_nan_spec, is_finite_spec. unfold quad_x_1, quad_x_2.
  rewrite !div_spec, add_spec, sub_spec, sqrt_spec, opp_spec.
  set (SD := SF64sqrt (Prim2SF (quad_discriminant a__ b__ c__))).
  set (NB := SFopp (Prim2SF b__)).
  intros H. apply SF64div_nan in H.
  destruct H as [H|[H|[(s & s' & H1 & H2)|(s & s' & H1 & H2)]]].
  - apply SF64add_nan in H. destruct H as [H|[H|(s & H1 & H2)]].
    + rewrite H. reflexivity.
    + rewrite H, SF64sub_nan_r. reflexivity.
    + apply SF64div_of_special. apply SF64sub_special_r. rewrite H2. reflexivity.
  - rewrite H, SF64div_nan_r. reflexivity.
  - rewrite H2. apply SF64div_by_zero.
  - assert (Hsd : Snum SD = false).
    { destruct (mul_two_overflow a__ s' H2) as [s4 H4].
      unfold SD, quad_discriminant. rewrite sub_spec, (mul_spec (4 * a__)), H4.
      pose proof (SF64mul_special_l (S754_infinity s4) (Prim2SF c__)
                    (ex_intro _ s4 eq_refl)) as Hm.
      pose proof (SF64sub_special_r (Prim2SF (b__ * b__)) _ Hm) as Hs.
      destruct (SF64sqrt_of_special _ Hs) as [E|E]; rewrite E; reflexivity. }
    rewrite H2, SF64div_special_inf; [reflexivity|].
    apply SF64sub_special_r. exact Hsd.
Qed.

(** C2.  [_solve_quadratic] over an interval with finite bounds returns
    the root [x_1 = (-b + sqrt(b*b - 4ac)) / (2a)] when it lies in
    [[min_val, max_val]], otherwise the root [x_2 = (-b - sqrt(..)) / (2a)]
    when that one lies in the interval, and NaN when neither does (a
    negative discriminant and [a = 0] make both roots NaN or infinite, so
    they fall in the last case). *)
Theorem solve_quadratic_selects_root a__ b__ c__ min_val max_val :
  is_finite min_val = true -> is_finite max_val = true ->
  let x_1 := quad_x_1 a__ b__ c__ in
  let x_2 := quad_x_2 a__ b__ c__ in
  let r := _solve_quadratic a__ b__ c__ min_val max_val in
  (in_interval min_val max_val x_1 = true -> r = x_1) /\
  (in_interval min_val max_val x_1 = false ->
   in_interval min_val max_val x_2 = true -> r = x_2) /\
  (in_interval min_val max_val x_1 = false ->
   in_interval min_val max_val x_2 = false -> is_nan r = true).
Proof.
  intros Hmn Hmx x_1 x_2 r.
  pose proof (is_finite_not_nan _ Hmn) as Nmn.
  pose proof (is_finite_not_nan _ Hmx) as Nmx.
  unfold r, _solve_quadratic. fold x_1 x_2. cbv zeta.
  split; [|split].
  - intros H1. rewrite (in_interval_not_outside _ _ _ H1).
    rewrite (in_interval_not_outside _ _ _ H1). reflexivity.
  - intros H1 H2.
    destruct (outside min_val max_val x_1) eqn:O1.
    + rewrite (in_interval_not_outside _ _ _ H2). reflexivity.
    + destruct (not_outside_cases _ _ _ Nmn Nmx O1) as [N|I]; [|congruence].
      pose proof (quad_x_1_nan_x_2 _ _ _ N) as F.
      pose proof (in_interval_finite _ _ _ Hmn Hmx H2) as F'.
      fold x_2 in F. congruence.
  - intros H1 H2.
    destruct (outside min_val max_val x_1) eqn:O1.
    + destruct (outside min_val max_val x_2) eqn:O2; [reflexivity|].
      destruct (not_outside_cases _ _ _ Nmn Nmx O2) as [N|I]; congruence.
    + rewrite O1.
      destruct (not_outside_cases _ _ _ Nmn Nmx O1) as [N|I]; congruence.
Qed.

(** The quadratic [x*x - 3x + 2] on [[0, 1]]: [x_1 = 2] is rejected and
    [x_2 = 1] is returned. *)
Lemma solve_quadratic_selects_root_witness :
  _solve_quadratic 1 (-3) 2 0 1 = 1.
Proof.
  apply (solve_quadratic_selects_root 1 (-3) 2 0 1); reflexivity.
Defined.

(** The bounds have to be finite.  With [max_val] infinite, [a = -1],
    [b] infinite and [c = 0], the first root is NaN and is kept, although
    the second root, [+infinity], lies in [[0, +infinity]]. *)
Lemma solve_quadratic_infinite_bound :
  is_nan (quad_x_1 (-1) infinity 0) = true /\
  in_interval 0 infinity (quad_x_2 (-1) infinity 0) = true /\
  is_nan (_solve_quadratic (-1) infinity 0 0 infinity) = true.
Proof. repeat split; reflexivity. Qed.

(** ** Range of the fractional coordinates *)

Lemma not_outside_unit x : outside 0 1 x = false -> nan_or_unit x = true.
Proof.
  intros H. unfold nan_or_unit.
  destruct (not_outside_cases 0 1 x eq_refl eq_refl H) as [E|E]; rewrite E;
    [reflexivity|apply orb_true_r].
Qed.

Lemma get_ts_range pt_1 pt_2 pt_3 pt_4 out_x out_y :
  nan_or_unit (fst (_get_ts pt_1 pt_2 pt_3 pt_4 out_x out_y)) = true /\
  nan_or_unit (snd (_get_ts pt_1 pt_2 pt_3 pt_4 out_x out_y)) = true.
Proof.
  unfold _get_ts. cbv zeta.
  match goal with
  | |- context [if _ then (nan, nan) else ?ts] => generalize ts
  end.
  intros ts. destruct (outside 0 1 (fst ts) || outside 0 1 (snd ts)) eqn:E.
  - split; reflexivity.
  - apply orb_false_elim in E. destruct E as [Et Es].
    split; apply not_outside_unit; assumption.
Qed.

Lemma Forall_map2 {A B C : Type} (f : A -> B -> C) (P : C -> Prop) :
  (forall a b, P (f a b)) -> forall l m, Forall P (map2 f l m).
Proof.
  intros Hf. induction l as [|a l IH]; intros [|b m]; simpl; constructor;
    auto.
Qed.

Lemma get_ts_targets_range cs out_xy ts :
  _get_ts_targets cs out_xy = Ok ts ->
  Forall (fun p => nan_or_unit (fst p) = true /\
                   nan_or_unit (snd p) = true) ts.
Proof.
  unfold _get_ts_targets. cbv zeta.
  destruct (existsb _ cs); [discriminate|].
  destruct (existsb _ cs); [discriminate|].
  intros H. inversion H. subst. clear H.
  apply Forall_map2. intros c o. apply get_ts_range.
Qed.

Lemma forallb_masked_pairs (f : float -> float -> float) (ts : list (float * float)) :
  (forall t s, is_nan t || is_nan s = false ->
               nan_or_unit t = true -> nan_or_unit s = true ->
               nan_or_unit (f t s) = true) ->
  Forall (fun p => nan_or_unit (fst p) = true /\
                   nan_or_unit (snd p) = true) ts ->
  forallb nan_or_unit_entry
    (map2 (fun t s => mask_if_nan t s (f t s)) (map fst ts) (map snd ts)) = true.
Proof.
  intros Hf H. induction H as [|p ts [Ht Hs] _ IH]; simpl; [reflexivity|].
  rewrite IH, andb_true_r. unfold mask_if_nan.
  destruct (is_nan (fst p) || is_nan (snd p)) eqn:E; [reflexivity|].
  simpl. apply Hf; assumption.
Qed.

(** C1.  Every fractional coordinate that [get_bil_info] returns is NaN
    (or a masked entry when [masked=True]) or lies in [[0, 1]]: [_get_ts]
    ends by replacing any pair with a component outside the interval by
    NaN. *)
Theorem get_bil_info_fractions_nan_or_unit
  proj in_lons in_lats out_lons out_lats neighbours masked input_idxs idx_ref
  info :
  get_bil_info proj in_lons in_lats out_lons out_lats neighbours masked
               input_idxs idx_ref = Ok info ->
  forallb nan_or_unit_entry (entries (bi_t info)) = true /\
  forallb nan_or_unit_entry (entries (bi_s info)) = true.
Proof.
  unfold get_bil_info. cbv zeta.
  destruct (_get_input_xy _ _ _ _ _) as [in_xy|e]; cbn [bind]; [|discriminate].
  destruct (bounding_corners_of _ _ _ _) as [cs|e]; cbn [bind]; [|discriminate].
  destruct (_get_ts_targets _ _) as [ts|e] eqn:Ets; cbn [bind]; [|discriminate].
  apply get_ts_targets_range in Ets.
  destruct masked; intros H; inversion H; subst; clear H; cbn [bi_t bi_s entries].
  - split.
    + apply (forallb_masked_pairs (fun t _ => t)); auto.
    + apply (forallb_masked_pairs (fun _ s => s)); auto.
  - rewrite Forall_forall in Ets.
    split; apply forallb_forall; intros x Hx; apply in_map_iff in Hx;
      destruct Hx as (y & <- & Hy); apply in_map_iff in Hy;
      destruct Hy as (p & <- & Hp); apply (Ets p Hp).
Qed.

(** A target inside an irregular quadrilateral of four source points. *)
Lemma get_bil_info_fractions_nan_or_unit_witness :
  forallb nan_or_unit_entry (entries (Plain [0x1.908d8e3868118p-2])) = true /\
  forallb nan_or_unit_entry (entries (Plain [0x1.dad9da12cd5b3p-2])) = true.
Proof.
  apply (get_bil_info_fractions_nan_or_unit planar
           [0; 2; 1; 4] [2; 3; 0; 0] [1.5] [1.5] 4 false
           [true; true; true; true] [[0; 1; 2; 3]]%nat
           (mkbil_info (Plain [0x1.908d8e3868118p-2])
                       (Plain [0x1.dad9da12cd5b3p-2])
                       [true; true; true; true] [(0, 1, 2, 3)]%nat)).
  reflexivity.
Defined.

(** ** Selection of the solver *)

(** C7.  The three index masks of [_get_ts] partition the target points:
    uprights-parallel is selected by vertical-parallel and not
    horizontal-parallel, parallelogram by both tests, irregular by
    vertical-parallel false (whatever the horizontal test says); exactly
    one mask holds, and the result is the selected solver's pair passed
    through the final clip. *)
Theorem get_ts_one_branch pt_1 pt_2 pt_3 pt_4 out_x out_y :
  let vert_parallel := _find_vert_parallels pt_1 pt_2 pt_3 pt_4 in
  let horiz_parallel := _find_horiz_parallels pt_1 pt_2 pt_3 pt_4 in
  let up := mask_uprights vert_parallel horiz_parallel in
  let par := mask_parallellogram vert_parallel horiz_parallel in
  let irr := mask_irregular vert_parallel in
  (up = true <-> vert_parallel = true /\ horiz_parallel = false) /\
  (par = true <-> vert_parallel = true /\ horiz_parallel = true) /\
  (irr = true <-> vert_parallel = false) /\
  (up && par = false /\ up && irr = false /\ par && irr = false) /\
  up || par || irr = true /\
  _get_ts pt_1 pt_2 pt_3 pt_4 out_x out_y =
  final_clip
    (if up then _get_ts_uprights_parallel pt_1 pt_2 pt_3 pt_4 out_y out_x
     else if par then _get_ts_parallellogram pt_1 pt_2 pt_3 out_y out_x
     else _get_ts_irregular pt_1 pt_2 pt_3 pt_4 out_y out_x).
Proof.
  intros vert_parallel horiz_parallel up par irr.
  unfold _get_ts. fold vert_parallel horiz_parallel. cbv zeta.
  fold up par irr. unfold final_clip.
  subst up par irr. unfold mask_uprights, mask_parallellogram, mask_irregular.
  destruct vert_parallel, horiz_parallel; simpl;
    repeat split; intros; try discriminate; try reflexivity;
    match goal with
    | H : _ /\ _ |- _ => destruct H; discriminate
    end.
Qed.

(** ** NaN through the solvers *)

Lemma add_nan_l x y : is_nan x = true -> is_nan (x + y) = true.
Proof. rewrite !is_nan_spec, add_spec. intros ->. reflexivity. Qed.

Lemma add_nan_r x y : is_nan y = true -> is_nan (x + y) = true.
Proof.
  rewrite !is_nan_spec, add_spec. intros ->. destruct (Prim2SF x); reflexivity.
Qed.

Lemma sub_nan_l x y : is_nan x = true -> is_nan (x - y) = true.
Proof. rewrite !is_nan_spec, sub_spec. intros ->. reflexivity. Qed.

Lemma sub_nan_r x y : is_nan y = true -> is_nan (x - y) = true.
Proof.
  rewrite !is_nan_spec, sub_spec. intros ->. apply SF64sub_nan_r.
Qed.

Lemma mul_nan_l x y : is_nan x = true -> is_nan (x * y) = true.
Proof. rewrite !is_nan_spec, mul_spec. intros ->. reflexivity. Qed.

Lemma mul_nan_r x y : is_nan y = true -> is_nan (x * y) = true.
Proof.
  rewrite !is_nan_spec, mul_spec. intros ->. destruct (Prim2SF x); reflexivity.
Qed.

Lemma div_nan_l x y : is_nan x = true -> is_nan (x / y) = true.
Proof. rewrite !is_nan_spec, div_spec. intros ->. reflexivity. Qed.

Lemma div_nan_r x y : is_nan y = true -> is_nan (x / y) = true.
Proof.
  rewrite !is_nan_spec, div_spec. intros ->. apply SF64div_nan_r.
Qed.

Lemma sqrt_nan x : is_nan x = true -> is_nan (sqrt x) = true.
Proof. rewrite !is_nan_spec, sqrt_spec. intros ->. reflexivity. Qed.

Lemma clip01_nan x : is_nan x = true -> is_nan (clip01 x) = true.
Proof.
  intros H. unfold clip01. rewrite (outside_nan _ _ _ H). exact H.
Qed.

Create HintDb nanprop.
#[local] Hint Resolve add_nan_l add_nan_r sub_nan_l sub_nan_r mul_nan_l
  mul_nan_r div_nan_l div_nan_r sqrt_nan clip01_nan : nanprop.


Lemma solve_quadratic_as_clip a__ b__ c__ :
  _solve_quadratic a__ b__ c__ 0 1 =
  clip01 (if outside 0 1 (quad_x_1 a__ b__ c__)
          then quad_x_2 a__ b__ c__ else quad_x_1 a__ b__ c__).
Proof. reflexivity. Qed.


Lemma solve_quadratic_nan_a a__ b__ c__ :
  is_nan a__ = true -> is_nan (_solve_quadratic a__ b__ c__ 0 1) = true.
Proof.
  intros Ha. rewrite solve_quadratic_as_clip. apply clip01_nan.
  destruct (outside 0 1 (quad_x_1 a__ b__ c__)); unfold quad_x_1, quad_x_2;
    auto with nanprop.
Qed.

(** The irregular solver hands a NaN [t__] on to [s__]. *)
Lemma get_ts_irregular_nan_t pt_1 pt_2 pt_3 pt_4 out_y out_x :
  is_nan (fst (_get_ts_irregular pt_1 pt_2 pt_3 pt_4 out_y out_x)) = true ->
  is_nan (snd (_get_ts_irregular pt_1 pt_2 pt_3 pt_4 out_y out_x)) = true.
Proof.
  unfold _get_ts_irregular. cbv zeta. simpl fst. simpl snd. intros H.
  auto 6 with nanprop.
Qed.

(** ** The irregular solver on quadrilaterals with parallel uprights *)

Lemma SF64mul_comm x y : SF64mul x y = SF64mul y x.
Proof.
  unfold SF64mul, SFmul.
  destruct x as [sx|sx| |sx mx ex], y as [sy|sy| |sy my ey];
    try reflexivity; try (rewrite (xorb_comm sx sy); reflexivity).
  rewrite (xorb_comm sx sy), (Pos.mul_comm mx my), (Z.add_comm ex ey).
  reflexivity.
Qed.

Lemma mul_comm x y : x * y = y * x.
Proof.
  apply Prim2SF_inj. rewrite !mul_spec. apply SF64mul_comm.
Qed.





(** ** Corner reproduction *)


(** On the unit square, where [x_31 = 0], the four corners are
    reproduced. *)
Lemma unit_square_corners_reproduced :
  let pt_1 := mkpoint 0 1 in
  let pt_2 := mkpoint 1 1 in
  let pt_3 := mkpoint 0 0 in
  let pt_4 := mkpoint 1 0 in
  _get_ts pt_1 pt_2 pt_3 pt_4 0 1 = (-0, 0) /\
  _get_ts pt_1 pt_2 pt_3 pt_4 1 1 = (-0, 1) /\
  _get_ts pt_1 pt_2 pt_3 pt_4 0 0 = (1, 0) /\
  _get_ts pt_1 pt_2 pt_3 pt_4 1 0 = (1, 1).
Proof. repeat split; reflexivity. Qed.

(** The irregular solver reproduces the four corners of a quadrilateral
    without parallel sides. *)
Lemma irregular_corners_reproduced :
  let pt_1 := mkpoint 0 2 in
  let pt_2 := mkpoint 2 3 in
  let pt_3 := mkpoint 1 0 in
  let pt_4 := mkpoint 4 1 in
  _find_vert_parallels pt_1 pt_2 pt_3 pt_4 = false /\
  _get_ts pt_1 pt_2 pt_3 pt_4 0 2 = (0, 0) /\
  _get_ts pt_1 pt_2 pt_3 pt_4 2 3 = (0, 1) /\
  _get_ts pt_1 pt_2 pt_3 pt_4 1 0 = (1, 0) /\
  _get_ts pt_1 pt_2 pt_3 pt_4 4 1 = (1, 1).
Proof. repeat split; reflexivity. Qed.

(** ** Corner selection *)

Lemma tile_diff (out : float) (l : list float) :
  map2 sub (repeat out (length l)) l = map (fun x => out - x) l.
Proof. induction l as [|x l IH]; simpl; [reflexivity|]. rewrite IH. reflexivity. Qed.

Lemma map2_map_map {A B C D : Type} (f : B -> C -> D) (g : A -> B) (h : A -> C) l :
  map2 f (map g l) (map h l) = map (fun a => f (g a) (h a)) l.
Proof. induction l as [|a l IH]; simpl; [reflexivity|]. rewrite IH. reflexivity. Qed.

Lemma first_true_find {A : Type} (f : A -> bool) (l : list A) :
  match first_true (map f l) with
  | Some j => exists c, nth_error l j = Some c /\ find f l = Some c
  | None => find f l = None
  end.
Proof.
  induction l as [|a l IH]; simpl; [reflexivity|].
  destruct (f a) eqn:Ef.
  - exists a. split; reflexivity.
  - destruct (first_true (map f l)) as [j|]; simpl; exact IH.
Qed.

Lemma np_max_first_true (valid : list bool) :
  np_max valid = match first_true valid with Some _ => true | None => false end.
Proof.
  unfold np_max. induction valid as [|[] v IH]; simpl; try reflexivity.
  rewrite IH. destruct (first_true v); reflexivity.
Qed.

Lemma get_corner_chosen f c0 cands :
  _get_corner (map f (c0 :: cands)) (map cand_x (c0 :: cands))
              (map cand_y (c0 :: cands)) (map cand_idx (c0 :: cands))
  = Ok (chosen f (c0 :: cands) c0).
Proof.
  set (l := c0 :: cands).
  unfold _get_corner, chosen, argmax. rewrite np_max_first_true.
  pose proof (first_true_find f l) as H.
  change (map f l) with (f c0 :: map f cands) at 1.
  cbv iota.
  destruct (first_true (map f l)) as [j|].
  - destruct H as (c & Hn & Hf). rewrite Hf. unfold index.
    rewrite !nth_error_map, Hn. simpl.
    destruct c as [[x y] i]. reflexivity.
  - rewrite H. reflexivity.
Qed.

Lemma quadrant_row valid out_x out_y (row : list (float * float * nat)) :
  map2 valid (map2 sub (repeat out_x (length row)) (map cand_x row))
             (map2 sub (repeat out_y (length row)) (map cand_y row))
  = map (eligible valid out_x out_y) row.
Proof.
  pose proof (tile_diff out_x (map cand_x row)) as Hx.
  pose proof (tile_diff out_y (map cand_y row)) as Hy.
  rewrite length_map in Hx, Hy. rewrite Hx, Hy, !map_map.
  apply (map2_map_map valid).
Qed.

(** The corners in terms of [chosen]. *)
Lemma bounding_corners_lemma out_x out_y c0 cands :
  let row := c0 :: cands in
  let sel valid := chosen (eligible valid out_x out_y) row c0 in
  let corner valid := mkpoint (cand_x (sel valid)) (cand_y (sel valid)) in
  _get_bounding_corners (map cand_x row) (map cand_y row) out_x out_y
                        (length row) (map cand_idx row)
  = Ok (mkcorners (corner valid_upper_left) (corner valid_upper_right)
                  (corner valid_lower_left) (corner valid_lower_right)
                  (cand_idx (sel valid_upper_left),
                   cand_idx (sel valid_upper_right),
                   cand_idx (sel valid_lower_left),
                   cand_idx (sel valid_lower_right))).
Proof.
  intros row sel corner. unfold _get_bounding_corners.
  rewrite !length_map, !Nat.eqb_refl. cbv beta iota zeta. simpl negb. cbv iota.
  rewrite !quadrant_row. unfold row.
  rewrite !get_corner_chosen. fold row. simpl bind.
  unfold corner, sel, cand_x, cand_y, cand_idx.
  destruct (chosen (eligible valid_upper_left out_x out_y) row c0) as [[x1 y1] i1].
  destruct (chosen (eligible valid_upper_right out_x out_y) row c0) as [[x2 y2] i2].
  destruct (chosen (eligible valid_lower_left out_x out_y) row c0) as [[x3 y3] i3].
  destruct (chosen (eligible valid_lower_right out_x out_y) row c0) as [[x4 y4] i4].
  reflexivity.
Qed.

(** C3, as the code has it.  For a non-empty row of candidates, the corner
    of each quadrant is the first candidate of the row, in the order
    given, that is eligible for the quadrant, and there is no corner
    (NaN coordinates) when none is.  Eligibility is tested on target minus
    candidate: upper-left [out_x - in_x > 0] and [out_y - in_y < 0],
    upper-right [< 0, < 0], lower-left [> 0, > 0], lower-right
    [< 0, > 0]. *)
Theorem bounding_corners_first_eligible out_x out_y c0 cands :
  let row := c0 :: cands in
  exists c,
    _get_bounding_corners (map cand_x row) (map cand_y row) out_x out_y
                          (length row) (map cand_idx row) = Ok c /\
    forall q,
      match find (eligible (quadrant_test q) out_x out_y) row with
      | Some cand =>
        eligible (quadrant_test q) out_x out_y cand = true /\
        corner_point c q = mkpoint (cand_x cand) (cand_y cand) /\
        corner_index c q = cand_idx cand
      | None => corner_point c q = mkpoint nan nan
      end.
Proof.
  intros row.
  pose proof (bounding_corners_lemma out_x out_y c0 cands) as H.
  cbv zeta in H. change (c0 :: cands) with row in H. clearbody row.
  eexists. split; [exact H|]. clear H.
  intros q.
  destruct q;
    cbn [quadrant_test corner_point corner_index c_pt_1 c_pt_2 c_pt_3 c_pt_4
         c_idx_ref];
    unfold chosen;
    match goal with
    | |- context [find ?f row] => destruct (find f row) as [cand|] eqn:E
    end; try reflexivity;
    (split; [apply (find_some _ _ E)|split; reflexivity]).
Qed.

(** Target [(0, 0)] with the candidates [(1, -1)] and [(-1, 1)].  On
    candidate minus target the first is upper-left and the second
    lower-right; the code selects the second as upper-left corner and the
    first as lower-right corner. *)
Lemma spec_quadrants_are_mirrored :
  let row := [(1, -1, 5%nat); (-1, 1, 6%nat)] in
  find (spec_upper_left 0 0) row = Some (1, -1, 5%nat) /\
  find (spec_lower_right 0 0) row = Some (-1, 1, 6%nat) /\
  _get_bounding_corners (map cand_x row) (map cand_y row) 0 0 2
                        (map cand_idx row)
  = Ok (mkcorners (mkpoint (-1) 1) (mkpoint nan nan) (mkpoint nan nan)
                  (mkpoint 1 (-1)) (6, 5, 5, 5)%nat).
Proof. repeat split; reflexivity. Qed.

(** ** Absent corners *)

Lemma reduce_index_lt input_size idx :
  (0 < input_size)%nat -> (idx <= input_size)%nat ->
  (reduce_index input_size idx < input_size)%nat.
Proof.
  intros Hp Hle. unfold reduce_index.
  destruct (Nat.eqb_spec idx input_size); lia.
Qed.

(** C4, as the code has it.  When no candidate of the row passes the
    quadrant test, [_get_corner] records NaN for both coordinates and
    stores the reduced index of the first candidate of the row.
    [get_bil_info] has replaced every invalid-slot index [input_size] by 0
    beforehand, so the stored index is below [input_size]: it names a
    valid source point. *)
Theorem absent_corner_first_index input_size valid in_x in_y raw :
  (0 < input_size)%nat ->
  Forall (fun i => (i <= input_size)%nat) raw ->
  raw <> [] ->
  length valid = length raw ->
  length in_x = length raw ->
  length in_y = length raw ->
  np_max valid = false ->
  exists idx,
    _get_corner valid in_x in_y (map (reduce_index input_size) raw)
    = Ok (nan, nan, idx) /\
    nth_error (map (reduce_index input_size) raw) 0 = Some idx /\
    (idx < input_size)%nat.
Proof.
  intros Hp Hraw Hne Lv Lx Ly Hmax.
  destruct raw as [|i raw]; [congruence|].
  destruct valid as [|v valid]; [discriminate|].
  destruct in_x as [|x in_x]; [discriminate|].
  destruct in_y as [|y in_y]; [discriminate|].
  exists (reduce_index input_size i).
  unfold _get_corner, argmax. rewrite Hmax.
  rewrite np_max_first_true in Hmax.
  destruct (first_true (v :: valid)); [discriminate|].
  simpl. repeat split.
  apply reduce_index_lt; [exact Hp|]. inversion Hraw. assumption.
Qed.

Lemma absent_corner_first_index_witness :
  exists idx,
    _get_corner [false; false] [1; -1] [-1; 1]
                (map (reduce_index 3) [1; 3]%nat)
    = Ok (nan, nan, idx) /\
    nth_error (map (reduce_index 3) [1; 3]%nat) 0 = Some idx /\
    (idx < 3)%nat.
Proof.
  apply (absent_corner_first_index 3 [false; false] [1; -1] [-1; 1] [1; 3]%nat);
    try reflexivity; try lia.
  - repeat constructor; lia.
  - discriminate.
Defined.

(** Three valid source points, one target at [(0, 0)] and two
    neighbours, the second one missing (index 3, the invalid slot).  The
    upper-right and lower-left quadrants are empty; the index stored for
    them is 1, a valid source point, and the invalid slot appears nowhere
    in the returned mapping. *)
Lemma absent_corner_stores_source_index :
  let row := [(-1, 1, 1%nat); (1, -1, 0%nat)] in
  find (eligible valid_upper_right 0 0) row = None /\
  find (eligible valid_lower_left 0 0) row = None /\
  get_bil_info planar [1; -1; 5] [-1; 1; 5] [0] [0] 2 false
               [true; true; true] [[1; 3]]%nat
  = Ok (mkbil_info (Plain [nan]) (Plain [nan]) [true; true; true]
                   [(1, 1, 1, 0)]%nat).
Proof. repeat split; reflexivity. Qed.

(** ** Fewer than four candidates *)

Lemma ltb_leb x y : (x <? y) = true -> (x <=? y) = true.
Proof.
  rewrite ltb_spec, leb_spec. unfold SFltb, SFleb.
  destruct (SFcompare (Prim2SF x) (Prim2SF y)) as [[]|]; congruence.
Qed.

Lemma ltb_asym x y : (x <? y) = true -> (y <? x) = false.
Proof. intros H. apply leb_true_ltb. apply ltb_leb. exact H. Qed.

Lemma quadrants_disjoint out_x out_y c : (quadrant_count out_x out_y c <= 1)%nat.
Proof.
  unfold quadrant_count, eligible, valid_upper_left, valid_upper_right,
    valid_lower_left, valid_lower_right.
  set (dx := out_x - cand_x c). set (dy := out_y - cand_y c).
  pose proof (ltb_asym 0 dx) as Hx. pose proof (ltb_asym 0 dy) as Hy.
  destruct (0 <? dx); [rewrite (Hx eq_refl)|];
    (destruct (0 <? dy); [rewrite (Hy eq_refl)|]);
    destruct (dx <? 0), (dy <? 0); simpl; lia.
Qed.

Lemma occupied_quadrants_le out_x out_y row :
  (occupied valid_upper_left out_x out_y row +
   occupied valid_upper_right out_x out_y row +
   occupied valid_lower_left out_x out_y row +
   occupied valid_lower_right out_x out_y row <= length row)%nat.
Proof.
  unfold occupied. induction row as [|c row IH]; simpl; [lia|].
  pose proof (quadrants_disjoint out_x out_y c) as Hc.
  unfold quadrant_count in Hc.
  destruct (eligible valid_upper_left out_x out_y c),
           (eligible valid_upper_right out_x out_y c),
           (eligible valid_lower_left out_x out_y c),
           (eligible valid_lower_right out_x out_y c);
    simpl in *; try lia;
    destruct (existsb (eligible valid_upper_left out_x out_y) row),
             (existsb (eligible valid_upper_right out_x out_y) row),
             (existsb (eligible valid_lower_left out_x out_y) row),
             (existsb (eligible valid_lower_right out_x out_y) row);
    simpl in *; lia.
Qed.

Lemma existsb_false_find {A : Type} (f : A -> bool) l :
  existsb f l = false -> find f l = None.
Proof.
  induction l as [|a l IH]; simpl; [reflexivity|].
  destruct (f a); simpl; [discriminate|exact IH].
Qed.

(** With fewer than four candidates a quadrant stays empty. *)
Lemma empty_quadrant out_x out_y row :
  (length row < 4)%nat ->
  find (eligible valid_upper_left out_x out_y) row = None \/
  find (eligible valid_upper_right out_x out_y) row = None \/
  find (eligible valid_lower_left out_x out_y) row = None \/
  find (eligible valid_lower_right out_x out_y) row = None.
Proof.
  intros Hlen. pose proof (occupied_quadrants_le out_x out_y row) as H.
  unfold occupied in H.
  destruct (existsb (eligible valid_upper_left out_x out_y) row) eqn:E1;
    [|left; apply existsb_false_find; exact E1].
  destruct (existsb (eligible valid_upper_right out_x out_y) row) eqn:E2;
    [|right; left; apply existsb_false_find; exact E2].
  destruct (existsb (eligible valid_lower_left out_x out_y) row) eqn:E3;
    [|right; right; left; apply existsb_false_find; exact E3].
  destruct (existsb (eligible valid_lower_right out_x out_y) row) eqn:E4;
    [|right; right; right; apply existsb_false_find; exact E4].
  simpl in H. lia.
Qed.

Lemma eqb_zero_nan x : is_nan x = true -> (x =? 0) = false.
Proof. apply eqb_nan_l. Qed.

Lemma vert_parallels_nan_corner pt_1 pt_2 pt_3 pt_4 :
  nan_point pt_1 \/ nan_point pt_2 \/ nan_point pt_3 \/ nan_point pt_4 ->
  _find_vert_parallels pt_1 pt_2 pt_3 pt_4 = false.
Proof.
  intros H. unfold _find_vert_parallels. cbv zeta. apply eqb_zero_nan.
  destruct H as [[Hx Hy]|[[Hx Hy]|[[Hx Hy]|[Hx Hy]]]]; auto 6 with nanprop.
Qed.

Lemma get_ts_nan_corner pt_1 pt_2 pt_3 pt_4 out_x out_y :
  nan_point pt_1 \/ nan_point pt_2 \/ nan_point pt_3 \/ nan_point pt_4 ->
  is_nan (fst (_get_ts pt_1 pt_2 pt_3 pt_4 out_x out_y)) = true /\
  is_nan (snd (_get_ts pt_1 pt_2 pt_3 pt_4 out_x out_y)) = true.
Proof.
  intros H.
  pose proof (vert_parallels_nan_corner _ _ _ _ H) as Hv.
  assert (Ht : is_nan (fst (_get_ts_irregular pt_1 pt_2 pt_3 pt_4
                              out_y out_x)) = true).
  { unfold _get_ts_irregular. cbv zeta. simpl fst.
    apply solve_quadratic_nan_a.
    destruct H as [[Hx Hy]|[[Hx Hy]|[[Hx Hy]|[Hx Hy]]]]; auto 6 with nanprop. }
  pose proof (get_ts_irregular_nan_t _ _ _ _ _ _ Ht) as Hs.
  unfold _get_ts. rewrite Hv. cbv zeta.
  unfold mask_uprights, mask_parallellogram, mask_irregular. simpl andb.
  simpl negb. cbv iota.
  rewrite (outside_nan _ _ _ Ht), (outside_nan _ _ _ Hs). simpl.
  split; assumption.
Qed.

Lemma combine_fst_snd {A B : Type} (l : list A) (m : list B) :
  length l = length m ->
  map fst (combine l m) = l /\ map snd (combine l m) = m.
Proof.
  revert m. induction l as [|a l IH]; intros [|b m] H; simpl in *;
    try discriminate; [split; reflexivity|].
  destruct (IH m) as [H1 H2]; [lia|]. rewrite H1, H2. split; reflexivity.
Qed.

(** One target point with one to three candidates: the corners are
    selected without an error and one of them is absent. *)
Lemma bounding_corners_few_candidates neighbours out_x out_y in_xy idx_ref :
  (0 < neighbours < 4)%nat ->
  length in_xy = neighbours -> length idx_ref = neighbours ->
  exists c,
    _get_bounding_corners (map fst in_xy) (map snd in_xy) out_x out_y
                          neighbours idx_ref = Ok c /\
    lacks_corner c.
Proof.
  intros Hn Lxy Lidx.
  set (row := combine in_xy idx_ref).
  destruct (combine_fst_snd in_xy idx_ref) as [Hfst Hsnd]; [lia|].
  assert (Hx : map cand_x row = map fst in_xy).
  { unfold cand_x. rewrite <- (map_map fst fst). unfold row. rewrite Hfst.
    reflexivity. }
  assert (Hy : map cand_y row = map snd in_xy).
  { unfold cand_y. rewrite <- (map_map fst snd). unfold row. rewrite Hfst.
    reflexivity. }
  assert (Hi : map cand_idx row = idx_ref) by exact Hsnd.
  assert (Hlen : length row = neighbours).
  { unfold row. rewrite length_combine. lia. }
  rewrite <- Hx, <- Hy, <- Hi, <- Hlen.
  destruct row as [|c0 cands] eqn:Erow; [simpl in Hlen; lia|].
  rewrite bounding_corners_lemma.
  eexists. split; [reflexivity|].
  unfold lacks_corner. cbn [c_pt_1 c_pt_2 c_pt_3 c_pt_4].
  destruct (empty_quadrant out_x out_y (c0 :: cands)) as [E|[E|[E|E]]];
    [lia| | | |];
    [left|right; left|right; right; left|right; right; right];
    unfold nan_point, chosen; rewrite E; split; reflexivity.
Qed.

Lemma bounding_corners_of_few_candidates neighbours :
  (0 < neighbours < 4)%nat ->
  forall out_xy in_xy idx_ref,
  length out_xy = length idx_ref ->
  Forall (fun row => length row = neighbours) idx_ref ->
  Forall2 (fun (i : list (float * float)) (r : list nat) => length i = length r)
          in_xy idx_ref ->
  exists cs,
    bounding_corners_of neighbours out_xy in_xy idx_ref = Ok cs /\
    Forall lacks_corner cs.
Proof.
  intros Hn out_xy in_xy idx_ref Hlen Hrows H2. revert out_xy Hlen Hrows.
  induction H2 as [|i r in_xy idx_ref Hir _ IH]; intros [|o out_xy] Hlen Hrows;
    simpl in Hlen; try discriminate.
  - exists []. split; [reflexivity|constructor].
  - pose proof (Forall_inv Hrows) as Hr. cbv beta in Hr.
    pose proof (Forall_inv_tail Hrows) as Hrows'.
    destruct (IH out_xy) as [cs [E Hcs]]; [lia|assumption|].
    destruct o as [out_x out_y].
    destruct (bounding_corners_few_candidates neighbours out_x out_y i r Hn
                ltac:(lia) Hr) as (c & Ec & Hc).
    cbn [bounding_corners_of]. rewrite Ec. cbn [bind]. rewrite E. cbn [bind].
    eexists. split; [reflexivity|]. constructor; assumption.
Qed.

(** Targets that lack a corner all take the irregular solver, so the
    one-dimensional target arrays are never indexed with two indices, and
    their fractional coordinates are NaN. *)
Lemma get_ts_targets_lacking_corners cs out_xy :
  Forall lacks_corner cs ->
  exists ts,
    _get_ts_targets cs out_xy = Ok ts /\
    Forall (fun p => is_nan (fst p) = true /\ is_nan (snd p) = true) ts.
Proof.
  intros H. unfold _get_ts_targets. cbv zeta.
  assert (Hv : forall h : corners -> bool,
             existsb (fun c => _find_vert_parallels (c_pt_1 c) (c_pt_2 c)
                                 (c_pt_3 c) (c_pt_4 c) && h c) cs = false).
  { intros h. induction H as [|c cs Hc _ IH]; simpl; [reflexivity|].
    rewrite (vert_parallels_nan_corner _ _ _ _ Hc), IH. reflexivity. }
  unfold mask_uprights, mask_parallellogram.
  rewrite (Hv (fun c => negb (_find_horiz_parallels (c_pt_1 c) (c_pt_2 c)
                                (c_pt_3 c) (c_pt_4 c)))).
  rewrite (Hv (fun c => _find_horiz_parallels (c_pt_1 c) (c_pt_2 c)
                          (c_pt_3 c) (c_pt_4 c))).
  eexists. split; [reflexivity|].
  clear Hv. revert out_xy.
  induction H as [|c cs Hc _ IH]; intros [|o out_xy]; simpl;
    try constructor.
  - apply get_ts_nan_corner. exact Hc.
  - apply IH.
Qed.

Lemma absent_entries_plain (f : float * float -> float) ts :
  Forall (fun p => is_nan (f p) = true) ts ->
  forallb absent_entry (map Some (map f ts)) = true.
Proof.
  induction 1 as [|p ts Hp _ IH]; simpl; [reflexivity|].
  rewrite Hp, IH. reflexivity.
Qed.

Lemma absent_entries_masked (f : float -> float -> float)
  (ts : list (float * float)) :
  Forall (fun p => is_nan (fst p) = true /\ is_nan (snd p) = true) ts ->
  forallb absent_entry
    (map2 (fun t s => mask_if_nan t s (f t s)) (map fst ts) (map snd ts)) = true.
Proof.
  induction 1 as [|p ts [Ht Hs] _ IH]; simpl; [reflexivity|].
  rewrite IH. unfold mask_if_nan. rewrite Ht. reflexivity.
Qed.

Lemma select_length {A : Type} (l : list A) (b : list bool) :
  length l = length b -> length (select l b) = length (filter (fun x => x) b).
Proof.
  revert b. induction l as [|a l IH]; intros [|[] b] H; simpl in *;
    try discriminate; try reflexivity; rewrite IH by lia; reflexivity.
Qed.

Lemma map2_length {A B C : Type} (f : A -> B -> C) l m :
  length l = length m -> length (map2 f l m) = length l.
Proof.
  revert m. induction l as [|a l IH]; intros [|b m] H; simpl in *;
    try discriminate; [reflexivity|]. rewrite IH by lia. reflexivity.
Qed.

Lemma mapM_index_ok {A B : Type} (g : A -> B) (l : list A) (idx : list nat) :
  Forall (fun i => (i < length l)%nat) idx ->
  exists bs, mapM (fun i => a <- index l i ;; Ok (g a)) idx = Ok bs /\
             length bs = length idx.
Proof.
  induction 1 as [|i idx Hi _ [bs [IH Hl]]]; simpl.
  - exists []. split; reflexivity.
  - unfold index at 1. destruct (nth_error l i) as [a|] eqn:E.
    + simpl. rewrite IH. simpl. eexists. split; [reflexivity|]. simpl. lia.
    + apply nth_error_None in E. lia.
Qed.

Lemma mapM_rows_ok {A B : Type} (g : A -> B) (l : list A) (rows : list (list nat)) :
  Forall (Forall (fun i => (i < length l)%nat)) rows ->
  exists bss, mapM (mapM (fun i => a <- index l i ;; Ok (g a))) rows = Ok bss /\
              Forall2 (fun bs row => length bs = length row) bss rows.
Proof.
  induction 1 as [|row rows Hrow _ [bss [IH Hl]]]; simpl.
  - exists []. split; [reflexivity|constructor].
  - destruct (mapM_index_ok g l row Hrow) as [bs [E Hb]].
    rewrite E. simpl. rewrite IH. simpl.
    eexists. split; [reflexivity|]. constructor; assumption.
Qed.

Lemma bool_index_ok {A : Type} (l : list A) (b : list bool) :
  length l = length b -> bool_index l b = Ok (select l b).
Proof. intros H. unfold bool_index. rewrite H, Nat.eqb_refl. reflexivity. Qed.

(** C9, as the code has it.  [get_bil_info] does not check
    [neighbours].  With a candidate table of two or three columns, on
    inputs of matching shapes with at least one valid source point, it
    returns without an error, and every fractional coordinate is NaN
    (masked when [masked=True]). *)
Theorem get_bil_info_few_neighbours
  proj in_lons in_lats out_lons out_lats neighbours masked input_idxs idx_ref :
  let input_size := length (filter (fun b => b) input_idxs) in
  (2 <= neighbours < 4)%nat ->
  length in_lons = length input_idxs ->
  length in_lats = length input_idxs ->
  length out_lons = length idx_ref ->
  length out_lats = length idx_ref ->
  (0 < input_size)%nat ->
  Forall (fun row => length row = neighbours /\
                     Forall (fun i => (i <= input_size)%nat) row) idx_ref ->
  exists info,
    get_bil_info proj in_lons in_lats out_lons out_lats neighbours masked
                 input_idxs idx_ref = Ok info /\
    forallb absent_entry (entries (bi_t info)) = true /\
    forallb absent_entry (entries (bi_s info)) = true.
Proof.
  intros input_size Hn Llon Llat Lolon Lolat Hsize Hrows.
  unfold get_bil_info. fold input_size. cbv zeta.
  set (idx' := map (map (reduce_index input_size)) idx_ref).
  unfold _get_input_xy.
  rewrite (bool_index_ok in_lons input_idxs Llon),
          (bool_index_ok in_lats input_idxs Llat).
  cbn [bind].
  set (lonlats := map2 _mask_coordinates (select in_lons input_idxs)
                       (select in_lats input_idxs)).
  assert (Hll : length lonlats = input_size).
  { unfold lonlats. rewrite map2_length; rewrite !select_length by assumption;
      reflexivity. }
  assert (Hidx : Forall (Forall (fun i => (i < length lonlats)%nat)) idx').
  { unfold idx'. rewrite Hll. apply Forall_map.
    eapply Forall_impl; [|exact Hrows]. intros row [_ Hrow].
    apply Forall_map. eapply Forall_impl; [|exact Hrow].
    intros i Hi. apply reduce_index_lt; assumption. }
  destruct (mapM_rows_ok (fun ll => proj (fst ll) (snd ll)) lonlats idx' Hidx)
    as [in_xy [Exy Hxy]].
  rewrite Exy. cbn [bind].
  assert (Hlen' : Forall (fun row : list nat => length row = neighbours) idx').
  { unfold idx'. apply Forall_map. eapply Forall_impl; [|exact Hrows].
    intros row [Hrow _]. rewrite length_map. exact Hrow. }
  destruct (bounding_corners_of_few_candidates neighbours ltac:(lia)
              (_get_output_xy proj out_lons out_lats) in_xy idx')
    as [cs [Ecs Hcs]].
  { unfold _get_output_xy, idx'. rewrite map2_length, length_map; lia. }
  { exact Hlen'. }
  { exact Hxy. }
  rewrite Ecs. cbn [bind].
  destruct (get_ts_targets_lacking_corners cs
              (_get_output_xy proj out_lons out_lats) Hcs) as [ps [Eps Hps]].
  rewrite Eps. cbn [bind].
  destruct masked; eexists; (split; [reflexivity|]); cbn [bi_t bi_s entries].
  - split.
    + apply (absent_entries_masked (fun t _ => t)). exact Hps.
    + apply (absent_entries_masked (fun _ s => s)). exact Hps.
  - split; apply absent_entries_plain;
      (eapply Forall_impl; [|exact Hps]); intros p [Ht Hs]; assumption.
Qed.

(** Three valid source points and a target with three neighbours. *)
Lemma get_bil_info_few_neighbours_witness :
  exists info,
    get_bil_info planar [-1; 1; -1] [1; 1; -1] [0] [0] 3 false
                 [true; true; true] [[0; 1; 2]]%nat = Ok info /\
    forallb absent_entry (entries (bi_t info)) = true /\
    forallb absent_entry (entries (bi_s info)) = true.
Proof.
  apply (get_bil_info_few_neighbours planar [-1; 1; -1] [1; 1; -1] [0] [0] 3
           false [true; true; true] [[0; 1; 2]]%nat);
    try reflexivity; try (simpl; lia).
  repeat constructor; simpl; lia.
Defined.

(** With three neighbours, the upper-left, upper-right and lower-left
    corners of the target [(0, 0)] are found and the lower-right one is
    not: the call returns, and [t] and [s] are NaN. *)
Lemma three_neighbours_return_nan :
  get_bil_info planar [-1; 1; -1] [1; 1; -1] [0] [0] 3 false
               [true; true; true] [[0; 1; 2]]%nat
  = Ok (mkbil_info (Plain [nan]) (Plain [nan]) [true; true; true]
                   [(0, 1, 2, 0)]%nat).
Proof. reflexivity. Qed.

(** ** The extrapolation guard *)

Lemma guard_spec data_min data_max r :
  guard data_min data_max r =
  match r with
  | None => None
  | Some v =>
    if (v <? data_min) || (data_max <? v) || is_nan v then None else Some v
  end.
Proof.
  destruct r as [v|]; [|reflexivity]. unfold guard.
  destruct (data_max <? v), (v <? data_min), (is_nan v); reflexivity.
Qed.

(** The bounds ignore NaN: they are NaN only when every entry is. *)
Lemma fmin_not_nan x y :
  is_nan x = false \/ is_nan y = false -> is_nan (fmin x y) = false.
Proof.
  unfold fmin. destruct (is_nan x) eqn:Ex, (is_nan y) eqn:Ey;
    intros [H|H]; try discriminate; try assumption;
    destruct (y <? x); assumption.
Qed.

Lemma fmax_not_nan x y :
  is_nan x = false \/ is_nan y = false -> is_nan (fmax x y) = false.
Proof.
  unfold fmax. destruct (is_nan x) eqn:Ex, (is_nan y) eqn:Ey;
    intros [H|H]; try discriminate; try assumption;
    destruct (x <? y); assumption.
Qed.

Lemma fold_not_nan (f : float -> float -> float) :
  (forall x y, is_nan x = false \/ is_nan y = false -> is_nan (f x y) = false) ->
  forall l x,
  is_nan x = false \/ existsb (fun y => negb (is_nan y)) l = true ->
  is_nan (fold_left f l x) = false.
Proof.
  intros Hf. induction l as [|y l IH]; intros x H; simpl in *.
  - destruct H as [H|H]; [exact H|discriminate].
  - apply IH. destruct H as [H|H].
    + left. apply Hf. left. exact H.
    + apply orb_true_iff in H. destruct H as [H|H].
      * left. apply Hf. right. destruct (is_nan y); [discriminate|reflexivity].
      * right. exact H.
Qed.

Lemma reduce_not_nan (f : float -> float -> float) l b :
  (forall x y, is_nan x = false \/ is_nan y = false -> is_nan (f x y) = false) ->
  existsb (fun y => negb (is_nan y)) l = true ->
  reduce f l = Ok b -> is_nan b = false.
Proof.
  intros Hf He. destruct l as [|x l]; simpl; [discriminate|].
  intros H. inversion H. subst. apply fold_not_nan; [exact Hf|].
  simpl in He. apply orb_true_iff in He. destruct He as [He|He].
  - left. destruct (is_nan x); [discriminate|reflexivity].
  - right. exact He.
Qed.

Lemma nanreduce_not_nan (f : float -> float -> float) a b :
  (forall x y, is_nan x = false \/ is_nan y = false -> is_nan (f x y) = false) ->
  existsb (fun y => negb (is_nan y)) (compressed (entries a)) = true ->
  nanreduce f a = Ok b -> is_nan b = false.
Proof.
  intros Hf He. destruct a as [v|v]; simpl in *.
  - assert (Hc : compressed (map Some v) = v).
    { clear. induction v as [|x v IH]; simpl; [reflexivity|]. rewrite IH.
      reflexivity. }
    rewrite Hc in He. apply reduce_not_nan; assumption.
  - destruct v as [|o v]; [discriminate|].
    destruct (compressed (o :: v)) as [|x l] eqn:Ec; [discriminate|].
    intros H. apply (reduce_not_nan f (x :: l) b Hf He). exact H.
Qed.

(** C5, as the code has it.  The bounds of the guard are the
    NaN-ignoring minimum and maximum of the whole reduced data
    [data[input_idxs]], taken before the corners are looked up, whether
    or not a corner refers to an entry.  An output entry is masked when its
    weighted sum is masked, NaN, strictly below the minimum or strictly
    above the maximum, and is the weighted sum otherwise. *)
Theorem guard_bounds_whole_reduced_data data t__ s__ input_idxs idx_arr out :
  get_sample_from_bil_info data t__ s__ input_idxs idx_arr = Ok out ->
  exists new_data data_min data_max sums,
    ndarray_bool_index data input_idxs = Ok new_data /\
    nanmin new_data = Ok data_min /\
    nanmax new_data = Ok data_max /\
    (existsb (fun y => negb (is_nan y)) (compressed (entries new_data)) = true ->
     is_nan data_min = false /\ is_nan data_max = false) /\
    weighted_result data t__ s__ input_idxs idx_arr
    = Ok (new_data, data_min, data_max, sums) /\
    Forall2 (fun r o =>
               match r with
               | None => o = None
               | Some v =>
                 if (v <? data_min) || (data_max <? v) || is_nan v
                 then o = None else o = Some v
               end) sums out.
Proof.
  unfold get_sample_from_bil_info.
  destruct (weighted_result data t__ s__ input_idxs idx_arr)
    as [[[[new_data data_min] data_max] sums]|e] eqn:Ew; [|discriminate].
  cbn [bind]. intros H.
  exists new_data, data_min, data_max, sums.
  pose proof Ew as Ew'. unfold weighted_result in Ew'.
  destruct (ndarray_bool_index data input_idxs) as [nd|] eqn:E1;
    [|discriminate]. cbn [bind] in Ew'.
  destruct (nanmin nd) as [mn|] eqn:E2; [|discriminate]. cbn [bind] in Ew'.
  destruct (nanmax nd) as [mx|] eqn:E3; [|discriminate]. cbn [bind] in Ew'.
  destruct (mapM (gather_row (entries nd)) idx_arr) as [ps|]; [|discriminate].
  cbn [bind] in Ew'.
  destruct (weighted_sums ps (entries s__) (entries t__)) as [rs|];
    [|discriminate].
  cbn [bind] in Ew'. inversion Ew'. subst. clear Ew'.
  split; [first [reflexivity|assumption]|].
  split; [first [reflexivity|assumption]|].
  split; [first [reflexivity|assumption]|].
  split; [|split; [first [reflexivity|assumption]|]].
  - intros He. split.
    + apply (nanreduce_not_nan fmin new_data); auto using fmin_not_nan.
    + apply (nanreduce_not_nan fmax new_data); auto using fmax_not_nan.
  - destruct (is_masked_array new_data || is_masked_array s__
              || is_masked_array t__); [|discriminate].
    inversion H. subst. clear.
    induction sums as [|r sums IH]; simpl; constructor; [|exact IH].
    rewrite guard_spec. destruct r as [v|]; [|reflexivity].
    destruct ((v <? data_min) || (data_max <? v) || is_nan v); reflexivity.
Qed.

Lemma guard_bounds_whole_reduced_data_witness :
  exists new_data data_min data_max sums,
    ndarray_bool_index (MaskedArray [Some 0; Some 0; Some 0; Some 10; Some 100])
                       [true; true; true; true; true] = Ok new_data /\
    nanmin new_data = Ok data_min /\
    nanmax new_data = Ok data_max /\
    (existsb (fun y => negb (is_nan y)) (compressed (entries new_data)) = true ->
     is_nan data_min = false /\ is_nan data_max = false) /\
    weighted_result (MaskedArray [Some 0; Some 0; Some 0; Some 10; Some 100])
                    (Plain [2]) (Plain [2]) [true; true; true; true; true]
                    [[0; 1; 2; 3]]%nat
    = Ok (new_data, data_min, data_max, sums) /\
    Forall2 (fun r o =>
               match r with
               | None => o = None
               | Some v =>
                 if (v <? data_min) || (data_max <? v) || is_nan v
                 then o = None else o = Some v
               end) sums [Some 40].
Proof.
  apply (guard_bounds_whole_reduced_data
           (MaskedArray [Some 0; Some 0; Some 0; Some 10; Some 100])
           (Plain [2]) (Plain [2]) [true; true; true; true; true]
           [[0; 1; 2; 3]]%nat [Some 40]).
  reflexivity.
Defined.

(** Reduced data [0, 0, 0, 10, 100] of which the only target point
    refers to the first four entries, with [t = s = 2].  The weighted sum
    is 40, above the maximum 10 of the referenced entries, and it is not
    masked: the bound of the code is 100. *)
Lemma guard_bound_is_not_over_referenced_data :
  let new_data := [Some 0; Some 0; Some 0; Some 10; Some 100] in
  let idx_arr := [[0; 1; 2; 3]]%nat in
  spec_data_max new_data idx_arr = Ok 10 /\
  (10 <? 40) = true /\
  nanmax (MaskedArray new_data) = Ok 100 /\
  get_sample_from_bil_info (MaskedArray new_data) (Plain [2]) (Plain [2])
                           [true; true; true; true; true] idx_arr
  = Ok [Some 40].
Proof. repeat split; reflexivity. Qed.

(** ** The mask of the weighted sum *)

(** C10, as the code has it.  Once the weighted sum is computed,
    [get_sample_from_bil_info] raises [AttributeError] exactly when the
    reduced data, [s__] and [t__] are all plain arrays; when one of the
    three is a masked array it returns the guarded sums. *)
Theorem plain_operands_raise_attribute_error
  data t__ s__ input_idxs idx_arr new_data data_min data_max sums :
  weighted_result data t__ s__ input_idxs idx_arr
  = Ok (new_data, data_min, data_max, sums) ->
  is_masked_array new_data = is_masked_array data /\
  (get_sample_from_bil_info data t__ s__ input_idxs idx_arr
   = Raise AttributeError <->
   is_masked_array data = false /\ is_masked_array s__ = false /\
   is_masked_array t__ = false) /\
  (is_masked_array data || is_masked_array s__ || is_masked_array t__ = true ->
   get_sample_from_bil_info data t__ s__ input_idxs idx_arr
   = Ok (map (guard data_min data_max) sums)).
Proof.
  intros Ew.
  assert (Hk : is_masked_array new_data = is_masked_array data).
  { unfold weighted_result in Ew.
    destruct (ndarray_bool_index data input_idxs) as [nd|] eqn:E1;
      [|discriminate]. cbn [bind] in Ew.
    destruct (nanmin nd); [|discriminate]. cbn [bind] in Ew.
    destruct (nanmax nd); [|discriminate]. cbn [bind] in Ew.
    destruct (mapM _ idx_arr); [|discriminate]. cbn [bind] in Ew.
    destruct (weighted_sums _ _ _); [|discriminate]. cbn [bind] in Ew.
    inversion Ew. subst. clear Ew.
    destruct data as [v|v]; simpl in E1;
      destruct (bool_index v input_idxs); try discriminate;
      inversion E1; reflexivity. }
  split; [exact Hk|].
  unfold get_sample_from_bil_info. rewrite Ew. cbn [bind]. rewrite Hk.
  destruct (is_masked_array data), (is_masked_array s__),
    (is_masked_array t__); simpl; split;
    try (split; [intros H; try discriminate; repeat split; reflexivity
                |intros (H1 & H2 & H3); try discriminate; reflexivity]);
    intros; try discriminate; reflexivity.
Qed.

Lemma plain_operands_raise_attribute_error_witness :
  is_masked_array (Plain [0; 0; 0; 10]) = is_masked_array (Plain [0; 0; 0; 10]) /\
  (get_sample_from_bil_info (Plain [0; 0; 0; 10]) (Plain [0.5]) (Plain [0.5])
     [true; true; true; true] [[0; 1; 2; 3]]%nat
   = Raise AttributeError <->
   is_masked_array (Plain [0; 0; 0; 10]) = false /\
   is_masked_array (Plain [0.5]) = false /\
   is_masked_array (Plain [0.5]) = false) /\
  (is_masked_array (Plain [0; 0; 0; 10]) || is_masked_array (Plain [0.5])
   || is_masked_array (Plain [0.5]) = true ->
   get_sample_from_bil_info (Plain [0; 0; 0; 10]) (Plain [0.5]) (Plain [0.5])
     [true; true; true; true] [[0; 1; 2; 3]]%nat
   = Ok (map (guard 0 10) [Some 2.5])).
Proof.
  apply (plain_operands_raise_attribute_error
           (Plain [0; 0; 0; 10]) (Plain [0.5]) (Plain [0.5])
           [true; true; true; true] [[0; 1; 2; 3]]%nat
           (Plain [0; 0; 0; 10]) 0 10 [Some 2.5]).
  reflexivity.
Defined.

(** Plain data, reduced to a plain array, with the masked [t__] that
    [get_bil_info] returns for [masked=True]: the weighted sum is a masked
    array and the call returns. *)
Lemma plain_data_masked_fraction_returns :
  is_masked_array (Plain [0; 0; 0; 10]) = false /\
  ndarray_bool_index (Plain [0; 0; 0; 10]) [true; true; true; true]
  = Ok (Plain [0; 0; 0; 10]) /\
  get_sample_from_bil_info (Plain [0; 0; 0; 10]) (MaskedArray [Some 0.5])
    (MaskedArray [Some 0.5]) [true; true; true; true] [[0; 1; 2; 3]]%nat
  = Ok [Some 2.5].
Proof. repeat split; reflexivity. Qed.

(** * Further properties of the module *)

(** ** The quadratic solver *)

(** X1.  Whatever the coefficients, [_solve_quadratic] never returns a number
    outside the interval: the result is NaN or lies in
    [[min_val, max_val]].  The bounds must not be NaN, since a NaN bound
    compares false with every root. *)
Theorem solve_quadratic_nan_or_in_interval a__ b__ c__ min_val max_val :
  is_nan min_val = false -> is_nan max_val = false ->
  is_nan (_solve_quadratic a__ b__ c__ min_val max_val) = true \/
  in_interval min_val max_val (_solve_quadratic a__ b__ c__ min_val max_val)
  = true.
Proof.
  intros Hmn Hmx. unfold _solve_quadratic. cbv zeta.
  match goal with
  | |- context [if outside _ _ ?x then nan else _] =>
    destruct (outside min_val max_val x) eqn:E
  end.
  - left. reflexivity.
  - apply not_outside_cases; assumption.
Qed.

Lemma solve_quadratic_nan_or_in_interval_witness :
  is_nan (_solve_quadratic 1 (-3) 2 0 1) = true \/
  in_interval 0 1 (_solve_quadratic 1 (-3) 2 0 1) = true.
Proof.
  apply (solve_quadratic_nan_or_in_interval 1 (-3) 2 0 1); reflexivity.
Defined.

Lemma outside_infinite mn mx x :
  is_finite mn = true -> is_finite mx = true ->
  is_finite x = false -> is_nan x = false -> outside mn mx x = true.
Proof.
  rewrite !is_finite_spec, is_nan_false_spec. unfold outside.
  rewrite !ltb_spec. unfold SFltb. intros Hmn Hmx Hx Hn.
  destruct (Prim2SF x) as [s|[]| |s m e]; try discriminate; try congruence.
  - destruct (Prim2SF mn); try discriminate; reflexivity.
  - destruct (Prim2SF mx); try discriminate; simpl; apply orb_true_r.
Qed.

Lemma clip_not_finite mn mx x :
  is_finite mn = true -> is_finite mx = true -> is_finite x = false ->
  is_nan (if outside mn mx x then nan else x) = true.
Proof.
  intros Hmn Hmx Hx. destruct (is_nan x) eqn:En.
  - rewrite (outside_nan _ _ _ En). exact En.
  - rewrite (outside_infinite _ _ _ Hmn Hmx Hx En). reflexivity.
Qed.

Lemma div_by_zero_not_finite x y :
  (y =? 0) = true -> is_finite (x / y) = false.
Proof.
  rewrite FloatAxioms.eqb_spec, is_finite_spec, div_spec.
  change (Prim2SF 0) with (S754_zero false).
  destruct (Prim2SF y) as [s|[]| |[] m e]; try discriminate.
  intros _. apply SF64div_by_zero.
Qed.

Lemma two_times_zero a__ : (a__ =? 0) = true -> (2 * a__ =? 0) = true.
Proof.
  rewrite !FloatAxioms.eqb_spec, mul_spec.
  change (Prim2SF 0) with (S754_zero false).
  change (Prim2SF 2) with (S754_finite false 4503599627370496 (-51)).
  destruct (Prim2SF a__) as [[]|[]| |[] m e]; try discriminate; reflexivity.
Qed.

(** X2.  A zero leading coefficient is not solved as a linear equation: the
    division by [2 * a__ = 0] makes both roots NaN or infinite and the
    result is NaN, also when [b x + c = 0] has its root in the
    interval. *)
Theorem solve_quadratic_degenerate_nan a__ b__ c__ min_val max_val :
  is_finite min_val = true -> is_finite max_val = true ->
  (a__ =? 0) = true ->
  is_nan (_solve_quadratic a__ b__ c__ min_val max_val) = true.
Proof.
  intros Hmn Hmx Ha. unfold _solve_quadratic. cbv zeta.
  apply clip_not_finite; try assumption.
  pose proof (two_times_zero _ Ha) as H2.
  destruct (outside min_val max_val (quad_x_1 a__ b__ c__));
    unfold quad_x_1, quad_x_2; apply div_by_zero_not_finite; exact H2.
Qed.

(** [0 x^2 + 2 x - 1 = 0] has the root 0.5, inside [[0, 1]]. *)
Lemma solve_quadratic_degenerate_nan_witness :
  is_nan (_solve_quadratic 0 2 (-1) 0 1) = true.
Proof.
  apply (solve_quadratic_degenerate_nan 0 2 (-1) 0 1); reflexivity.
Defined.

Lemma sqrt_negative x : (x <? 0) = true -> is_nan (sqrt x) = true.
Proof.
  rewrite ltb_spec, is_nan_spec, sqrt_spec. unfold SFltb.
  change (Prim2SF 0) with (S754_zero false).
  destruct (Prim2SF x) as [s|[]| |[] m e]; try discriminate; reflexivity.
Qed.

(** X3.  A negative discriminant gives NaN, whatever the interval is. *)
Theorem solve_quadratic_negative_discriminant a__ b__ c__ min_val max_val :
  (quad_discriminant a__ b__ c__ <? 0) = true ->
  is_nan (_solve_quadratic a__ b__ c__ min_val max_val) = true.
Proof.
  intros Hd. pose proof (sqrt_negative _ Hd) as Hs.
  assert (H1 : is_nan (quad_x_1 a__ b__ c__) = true)
    by (unfold quad_x_1; auto with nanprop).
  unfold _solve_quadratic. cbv zeta.
  rewrite (outside_nan _ _ _ H1), (outside_nan _ _ _ H1). exact H1.
Qed.

(** [x^2 + 1 = 0] *)
Lemma solve_quadratic_negative_discriminant_witness :
  is_nan (_solve_quadratic 1 0 1 0 1) = true.
Proof.
  apply (solve_quadratic_negative_discriminant 1 0 1 0 1); reflexivity.
Defined.

(** ** The three solvers of the fractional coordinates *)

Lemma clip01_range x : nan_or_unit (clip01 x) = true.
Proof.
  unfold clip01. destruct (outside 0 1 x) eqn:E; [reflexivity|].
  apply not_outside_unit. exact E.
Qed.

Lemma solve_quadratic_unit_range a__ b__ c__ :
  nan_or_unit (_solve_quadratic a__ b__ c__ 0 1) = true.
Proof. rewrite solve_quadratic_as_clip. apply clip01_range. Qed.

(** X4.  The irregular solver returns each coordinate as NaN or within
    [[0, 1]], and a NaN [t] leaves [s] NaN too, [s] being computed from
    [t]. *)
Theorem get_ts_irregular_range pt_1 pt_2 pt_3 pt_4 out_y out_x :
  let ts := _get_ts_irregular pt_1 pt_2 pt_3 pt_4 out_y out_x in
  nan_or_unit (fst ts) = true /\ nan_or_unit (snd ts) = true /\
  (is_nan (fst ts) = true -> is_nan (snd ts) = true).
Proof.
  cbv zeta. split; [|split].
  - unfold _get_ts_irregular. cbv zeta. cbn [fst].
    apply solve_quadratic_unit_range.
  - unfold _get_ts_irregular. cbv zeta. cbn [snd]. apply clip01_range.
  - apply get_ts_irregular_nan_t.
Qed.

Lemma get_ts_uprights_nan_s pt_1 pt_2 pt_3 pt_4 out_y out_x :
  is_nan (snd (_get_ts_uprights_parallel pt_1 pt_2 pt_3 pt_4 out_y out_x))
  = true ->
  is_nan (fst (_get_ts_uprights_parallel pt_1 pt_2 pt_3 pt_4 out_y out_x))
  = true.
Proof.
  unfold _get_ts_uprights_parallel. cbv zeta. cbn [fst snd].
  intros H. auto 6 with nanprop.
Qed.

Lemma get_ts_parallellogram_nan_t pt_1 pt_2 pt_3 out_y out_x :
  is_nan (fst (_get_ts_parallellogram pt_1 pt_2 pt_3 out_y out_x)) = true ->
  is_nan (snd (_get_ts_parallellogram pt_1 pt_2 pt_3 out_y out_x)) = true.
Proof.
  unfold _get_ts_parallellogram. cbv zeta. cbn [fst snd].
  intros H. auto 6 with nanprop.
Qed.

(** X5.  The solver for parallel uprights: [s] comes from the quadratic, [t]
    from [s]; both are NaN or within [[0, 1]] and a NaN [s] leaves [t]
    NaN. *)
Theorem get_ts_uprights_parallel_range pt_1 pt_2 pt_3 pt_4 out_y out_x :
  let ts := _get_ts_uprights_parallel pt_1 pt_2 pt_3 pt_4 out_y out_x in
  nan_or_unit (fst ts) = true /\ nan_or_unit (snd ts) = true /\
  (is_nan (snd ts) = true -> is_nan (fst ts) = true).
Proof.
  cbv zeta. unfold _get_ts_uprights_parallel. cbv zeta. cbn [fst snd].
  split; [|split].
  - apply clip01_range.
  - apply solve_quadratic_unit_range.
  - intros H. auto 6 with nanprop.
Qed.

(** X6.  The parallelogram solver: [t] is clipped before [s] is computed from
    it; both are NaN or within [[0, 1]] and a NaN [t] (also a [t] clipped
    away) leaves [s] NaN. *)
Theorem get_ts_parallellogram_range pt_1 pt_2 pt_3 out_y out_x :
  let ts := _get_ts_parallellogram pt_1 pt_2 pt_3 out_y out_x in
  nan_or_unit (fst ts) = true /\ nan_or_unit (snd ts) = true /\
  (is_nan (fst ts) = true -> is_nan (snd ts) = true).
Proof.
  cbv zeta. unfold _get_ts_parallellogram. cbv zeta. cbn [fst snd].
  split; [|split].
  - apply clip01_range.
  - apply clip01_range.
  - intros H. auto 6 with nanprop.
Qed.

Lemma solve_quadratic_nan_b a__ b__ c__ :
  is_nan b__ = true -> is_nan (_solve_quadratic a__ b__ c__ 0 1) = true.
Proof.
  intros Hb. rewrite solve_quadratic_as_clip. apply clip01_nan.
  assert (Hs : is_nan (sqrt (quad_discriminant a__ b__ c__)) = true)
    by (unfold quad_discriminant; auto with nanprop).
  destruct (outside 0 1 (quad_x_1 a__ b__ c__)); unfold quad_x_1, quad_x_2;
    auto with nanprop.
Qed.

Lemma get_ts_irregular_nan_target pt_1 pt_2 pt_3 pt_4 out_y out_x :
  is_nan out_x = true \/ is_nan out_y = true ->
  is_nan (fst (_get_ts_irregular pt_1 pt_2 pt_3 pt_4 out_y out_x)) = true /\
  is_nan (snd (_get_ts_irregular pt_1 pt_2 pt_3 pt_4 out_y out_x)) = true.
Proof.
  intros H.
  assert (Ht : is_nan (fst (_get_ts_irregular pt_1 pt_2 pt_3 pt_4
                              out_y out_x)) = true).
  { unfold _get_ts_irregular. cbv zeta. cbn [fst].
    apply solve_quadratic_nan_b. destruct H as [H|H]; auto 8 with nanprop. }
  split; [exact Ht|]. apply get_ts_irregular_nan_t. exact Ht.
Qed.

Lemma get_ts_uprights_nan_target pt_1 pt_2 pt_3 pt_4 out_y out_x :
  is_nan out_x = true \/ is_nan out_y = true ->
  is_nan (fst (_get_ts_uprights_parallel pt_1 pt_2 pt_3 pt_4 out_y out_x))
  = true /\
  is_nan (snd (_get_ts_uprights_parallel pt_1 pt_2 pt_3 pt_4 out_y out_x))
  = true.
Proof.
  intros H.
  assert (Hs : is_nan (snd (_get_ts_uprights_parallel pt_1 pt_2 pt_3 pt_4
                              out_y out_x)) = true).
  { unfold _get_ts_uprights_parallel. cbv zeta. cbn [snd].
    apply solve_quadratic_nan_b. destruct H as [H|H]; auto 8 with nanprop. }
  split; [|exact Hs]. apply get_ts_uprights_nan_s. exact Hs.
Qed.

Lemma get_ts_parallellogram_nan_target pt_1 pt_2 pt_3 out_y out_x :
  is_nan out_x = true \/ is_nan out_y = true ->
  is_nan (fst (_get_ts_parallellogram pt_1 pt_2 pt_3 out_y out_x)) = true /\
  is_nan (snd (_get_ts_parallellogram pt_1 pt_2 pt_3 out_y out_x)) = true.
Proof.
  intros H.
  assert (Ht : is_nan (fst (_get_ts_parallellogram pt_1 pt_2 pt_3
                              out_y out_x)) = true).
  { unfold _get_ts_parallellogram. cbv zeta. cbn [fst].
    apply clip01_nan. destruct H as [H|H]; auto 8 with nanprop. }
  split; [exact Ht|]. apply get_ts_parallellogram_nan_t. exact Ht.
Qed.

(** X7.  [_get_ts] gives [(NaN, NaN)] for a target one of whose four corners
    is absent (NaN coordinates) and for a target whose own coordinates
    are NaN, whichever solver the parallel tests select. *)
Theorem get_ts_invalid_input_nan pt_1 pt_2 pt_3 pt_4 out_x out_y :
  nan_point pt_1 \/ nan_point pt_2 \/ nan_point pt_3 \/ nan_point pt_4 \/
  is_nan out_x = true \/ is_nan out_y = true ->
  is_nan (fst (_get_ts pt_1 pt_2 pt_3 pt_4 out_x out_y)) = true /\
  is_nan (snd (_get_ts pt_1 pt_2 pt_3 pt_4 out_x out_y)) = true.
Proof.
  intros H.
  assert (Hc : (nan_point pt_1 \/ nan_point pt_2 \/ nan_point pt_3 \/
                nan_point pt_4) \/ (is_nan out_x = true \/ is_nan out_y = true))
    by tauto.
  clear H. destruct Hc as [Hc|Ho]; [apply get_ts_nan_corner; exact Hc|].
  pose proof (get_ts_irregular_nan_target pt_1 pt_2 pt_3 pt_4 out_y out_x Ho)
    as [Hi1 Hi2].
  pose proof (get_ts_uprights_nan_target pt_1 pt_2 pt_3 pt_4 out_y out_x Ho)
    as [Hu1 Hu2].
  pose proof (get_ts_parallellogram_nan_target pt_1 pt_2 pt_3 out_y out_x Ho)
    as [Hp1 Hp2].
  unfold _get_ts. cbv zeta.
  unfold mask_uprights, mask_parallellogram, mask_irregular.
  destruct (_find_vert_parallels pt_1 pt_2 pt_3 pt_4),
           (_find_horiz_parallels pt_1 pt_2 pt_3 pt_4); cbn [andb negb];
    cbv iota;
    match goal with
    | |- context [if outside 0 1 (fst ?ts) || _ then _ else _] =>
      assert (Ht : is_nan (fst ts) = true) by assumption;
      assert (Hs : is_nan (snd ts) = true) by assumption;
      rewrite (outside_nan _ _ _ Ht), (outside_nan _ _ _ Hs)
    end; split; assumption.
Qed.

(** An irregular quadrilateral and a target without an [x]
    coordinate. *)
Lemma get_ts_invalid_input_nan_witness :
  is_nan (fst (_get_ts (mkpoint 0 2) (mkpoint 2 3) (mkpoint 1 0) (mkpoint 4 1)
                       nan 1)) = true /\
  is_nan (snd (_get_ts (mkpoint 0 2) (mkpoint 2 3) (mkpoint 1 0) (mkpoint 4 1)
                       nan 1)) = true.
Proof.
  apply (get_ts_invalid_input_nan (mkpoint 0 2) (mkpoint 2 3) (mkpoint 1 0)
           (mkpoint 4 1) nan 1).
  right; right; right; right; left. reflexivity.
Defined.

(** ** Masking of coordinates *)

(** X8.  [_mask_coordinates] returns a pair whose longitude is NaN or within
    [[-180, 180]] and whose latitude is NaN or within [[-90, 90]]; the
    two are replaced together; and masking a masked pair changes nothing,
    as when [resample_bilinear] masks a coordinate tuple that
    [_get_input_xy] masks again. *)
Theorem mask_coordinates_range_idempotent lon lat :
  let m := _mask_coordinates lon lat in
  (is_nan (fst m) = true \/ in_interval (-180) 180 (fst m) = true) /\
  (is_nan (snd m) = true \/ in_interval (-90) 90 (snd m) = true) /\
  (m = (lon, lat) \/ m = (nan, nan)) /\
  _mask_coordinates (fst m) (snd m) = m.
Proof.
  cbv zeta. unfold _mask_coordinates.
  destruct ((lon <? -180) || (180 <? lon) || (lat <? -90) || (90 <? lat)) eqn:E.
  - repeat split; auto.
  - cbn [fst snd]. rewrite E.
    apply orb_false_elim in E. destruct E as [E E4].
    apply orb_false_elim in E. destruct E as [E E3].
    repeat split; auto.
    + apply (not_outside_cases (-180) 180 lon eq_refl eq_refl).
      unfold outside. exact E.
    + apply (not_outside_cases (-90) 90 lat eq_refl eq_refl).
      unfold outside. rewrite E3, E4. reflexivity.
Qed.

(** ** Selection of the corners *)

Lemma ltb_sub_nan_l x y z : is_nan x = true \/ is_nan y = true ->
  (x - y <? z) = false /\ (z <? x - y) = false.
Proof.
  intros H.
  assert (Hn : is_nan (x - y) = true) by (destruct H; auto with nanprop).
  split; [apply ltb_nan_l|apply ltb_nan_r]; exact Hn.
Qed.

Lemma eligible_nan q out_x out_y c :
  is_nan out_x = true \/ is_nan out_y = true \/
  is_nan (cand_x c) = true \/ is_nan (cand_y c) = true ->
  eligible (quadrant_test q) out_x out_y c = false.
Proof.
  intros H. unfold eligible.
  assert (Hxy : (is_nan out_x = true \/ is_nan (cand_x c) = true) \/
                (is_nan out_y = true \/ is_nan (cand_y c) = true)) by tauto.
  destruct Hxy as [Hx|Hy].
  - destruct (ltb_sub_nan_l out_x (cand_x c) 0 Hx) as [H1 H2].
    destruct q; unfold quadrant_test, valid_upper_left, valid_upper_right,
      valid_lower_left, valid_lower_right; rewrite ?H1, ?H2; reflexivity.
  - destruct (ltb_sub_nan_l out_y (cand_y c) 0 Hy) as [H1 H2].
    destruct q; unfold quadrant_test, valid_upper_left, valid_upper_right,
      valid_lower_left, valid_lower_right; rewrite ?H1, ?H2;
      apply andb_false_r.
Qed.

Lemma find_none_nan_target q out_x out_y row :
  is_nan out_x = true \/ is_nan out_y = true ->
  find (eligible (quadrant_test q) out_x out_y) row = None.
Proof.
  intros H. induction row as [|c row IH]; simpl; [reflexivity|].
  rewrite eligible_nan by tauto. exact IH.
Qed.

Lemma corner_of_chosen out_x out_y c0 cands c :
  _get_bounding_corners (map cand_x (c0 :: cands)) (map cand_y (c0 :: cands))
      out_x out_y (length (c0 :: cands)) (map cand_idx (c0 :: cands)) = Ok c ->
  forall q,
    corner_point c q =
    mkpoint (cand_x (chosen (eligible (quadrant_test q) out_x out_y)
                            (c0 :: cands) c0))
            (cand_y (chosen (eligible (quadrant_test q) out_x out_y)
                            (c0 :: cands) c0)) /\
    corner_index c q =
    cand_idx (chosen (eligible (quadrant_test q) out_x out_y) (c0 :: cands) c0).
Proof.
  pose proof (bounding_corners_lemma out_x out_y c0 cands) as H.
  cbv zeta in H. rewrite H. intros E. inversion E. subst. clear E H.
  intros q. destruct q; split; reflexivity.
Qed.

(** X9.  Invalid points take no part in the corners.  A candidate with a NaN
    planar coordinate (a source point outside the valid longitudes and
    latitudes) is never selected: every corner is absent or is a
    candidate of the row with both coordinates not NaN.  A target with a
    NaN coordinate gets no corner at all. *)
Theorem bounding_corners_skip_nan out_x out_y c0 cands :
  let row := c0 :: cands in
  exists c,
    _get_bounding_corners (map cand_x row) (map cand_y row) out_x out_y
                          (length row) (map cand_idx row) = Ok c /\
    (forall q,
       corner_point c q = mkpoint nan nan \/
       exists cand,
         In cand row /\
         corner_point c q = mkpoint (cand_x cand) (cand_y cand) /\
         corner_index c q = cand_idx cand /\
         is_nan (cand_x cand) = false /\ is_nan (cand_y cand) = false) /\
    (is_nan out_x = true \/ is_nan out_y = true ->
     forall q, corner_point c q = mkpoint nan nan).
Proof.
  intros row.
  pose proof (bounding_corners_lemma out_x out_y c0 cands) as H.
  cbv zeta in H.
  match type of H with _ = Ok ?r => remember r as c eqn:Ec end. clear Ec.
  exists c. split; [exact H|].
  pose proof (corner_of_chosen out_x out_y c0 cands _ H) as Hc.
  fold row in Hc. split.
  - intros q. destruct (Hc q) as [Hp Hi]. rewrite Hp, Hi. unfold chosen.
    destruct (find (eligible (quadrant_test q) out_x out_y) row) as [cand|]
      eqn:E; [right|left; reflexivity].
    apply find_some in E. destruct E as [Hin He].
    exists cand. repeat split; try assumption.
    + destruct (is_nan (cand_x cand)) eqn:En; [|reflexivity].
      rewrite eligible_nan in He by tauto. discriminate.
    + destruct (is_nan (cand_y cand)) eqn:En; [|reflexivity].
      rewrite eligible_nan in He by tauto. discriminate.
  - intros Hn q. destruct (Hc q) as [Hp _]. rewrite Hp. unfold chosen.
    rewrite (find_none_nan_target q out_x out_y row Hn). reflexivity.
Qed.

Lemma eligible_exclusive q1 q2 out_x out_y c :
  q1 <> q2 ->
  eligible (quadrant_test q1) out_x out_y c = true ->
  eligible (quadrant_test q2) out_x out_y c = false.
Proof.
  intros Hq H1. pose proof (quadrants_disjoint out_x out_y c) as Hd.
  unfold quadrant_count in Hd.
  destruct q1, q2; try congruence; cbn [quadrant_test] in *;
    rewrite H1 in Hd;
    match goal with
    | |- ?e = false => destruct e; [simpl in Hd; lia|reflexivity]
    end.
Qed.

(** X10.  The corners found for one target are pairwise different points: a
    candidate is eligible for one quadrant only, so no source point
    serves as two corners and no side of the quadrilateral has length
    zero. *)
Theorem bounding_corners_distinct out_x out_y c0 cands :
  let row := c0 :: cands in
  exists c,
    _get_bounding_corners (map cand_x row) (map cand_y row) out_x out_y
                          (length row) (map cand_idx row) = Ok c /\
    forall q1 q2,
      q1 <> q2 ->
      is_nan (px (corner_point c q1)) = false ->
      is_nan (px (corner_point c q2)) = false ->
      corner_point c q1 <> corner_point c q2.
Proof.
  intros row.
  pose proof (bounding_corners_lemma out_x out_y c0 cands) as H.
  cbv zeta in H.
  match type of H with _ = Ok ?r => remember r as c eqn:Ec end. clear Ec.
  exists c. split; [exact H|].
  pose proof (corner_of_chosen out_x out_y c0 cands _ H) as Hc.
  fold row in Hc.
  intros q1 q2 Hq.
  destruct (Hc q1) as [Hp1 _]. destruct (Hc q2) as [Hp2 _].
  rewrite Hp1, Hp2. unfold chosen. cbn [px].
  destruct (find (eligible (quadrant_test q1) out_x out_y) row) as [cand1|]
    eqn:E1; [|intros; discriminate].
  destruct (find (eligible (quadrant_test q2) out_x out_y) row) as [cand2|]
    eqn:E2; [|intros; discriminate].
  intros _ _ Heq. inversion Heq as [[Hx Hy]].
  apply find_some in E1. destruct E1 as [_ He1].
  apply find_some in E2. destruct E2 as [_ He2].
  pose proof (eligible_exclusive q1 q2 out_x out_y cand1 Hq He1) as Hex.
  unfold eligible in Hex, He2. rewrite Hx, Hy in Hex. congruence.
Qed.

(** ** The weighted sum at the corners *)

Lemma digits_shift52 m :
  Zdigits2 (Zpos (Pos.iter xO m 52)) = (Zpos (digits2_pos m) + 52)%Z.
Proof.
  cbn [Pos.iter]. cbn [Zdigits2 digits2_pos].
  rewrite !Pos2Z.inj_succ. lia.
Qed.

Lemma shr_shift52 m :
  SpecFloat.iter_pos shr_1 52
    {| shr_m := Zpos (Pos.iter xO m 52); shr_r := false; shr_s := false |}
  = {| shr_m := Zpos m; shr_r := false; shr_s := false |}.
Proof. reflexivity. Qed.

(** Multiplication by one is exact: the product of the mantissas is
    shifted back by the 52 bits that the mantissa of 1 adds. *)
Lemma SF64mul_one_l x :
  valid_binary x = true ->
  SF64mul (S754_finite false 4503599627370496 (-52)) x = x.
Proof.
  intros Hv. destruct x as [s|s| |s m e]; try reflexivity.
  unfold SF64mul, SFmul. cbv beta iota. change (xorb false s) with s.
  change (4503599627370496 * m)%positive with (Pos.iter xO m 52).
  rewrite bra_unfold. cbv zeta.
  simpl in Hv. unfold bounded, canonical_mantissa in Hv.
  apply andb_prop in Hv. destruct Hv as [Hc Hb].
  apply Z.eqb_eq in Hc. apply Z.leb_le in Hb.
  assert (P1 : pass (Zpos (Pos.iter xO m 52)) (-52 + e) loc_Exact
               = ({| shr_m := Zpos m; shr_r := false; shr_s := false |}, e)).
  { unfold pass, shr_fexp. rewrite digits_shift52.
    replace (Zpos (digits2_pos m) + 52 + (-52 + e))%Z
      with (Zpos (digits2_pos m) + e)%Z by lia.
    rewrite Hc. replace (e - (-52 + e))%Z with 52%Z by lia.
    unfold shr. cbn [shr_record_of_loc]. rewrite shr_shift52.
    f_equal. lia. }
  rewrite P1. cbn [fst snd shr_m loc_of_shr_record round_nearest_even].
  assert (P2 : pass (Zpos m) e loc_Exact
               = ({| shr_m := Zpos m; shr_r := false; shr_s := false |}, e)).
  { unfold pass, shr_fexp. cbn [Zdigits2]. rewrite Hc.
    rewrite Z.sub_diag. reflexivity. }
  rewrite P2. cbn [fst snd shr_m].
  destruct (Z.leb_spec e 971); [reflexivity|].
  change (emax - prec)%Z with 971%Z in Hb. lia.
Qed.

Lemma mul_one_l x : 1 * x = x.
Proof.
  apply Prim2SF_inj. rewrite mul_spec.
  change (Prim2SF 1) with (S754_finite false 4503599627370496 (-52)).
  apply SF64mul_one_l. apply Prim2SF_valid.
Qed.

Lemma mul_one_r x : x * 1 = x.
Proof. rewrite mul_comm. apply mul_one_l. Qed.

Lemma eqb_zero_spec z :
  (z =? 0) = true <-> exists s, Prim2SF z = S754_zero s.
Proof.
  rewrite FloatAxioms.eqb_spec. change (Prim2SF 0) with (S754_zero false).
  split.
  - destruct (Prim2SF z) as [s|[]| |[] m e]; try discriminate. eauto.
  - intros [s ->]. reflexivity.
Qed.

Lemma zero_is_finite z : (z =? 0) = true -> is_finite z = true.
Proof.
  rewrite eqb_zero_spec, is_finite_spec. intros [s ->]. reflexivity.
Qed.

Lemma mul_zero_r p z :
  is_finite p = true -> (z =? 0) = true -> (p * z =? 0) = true.
Proof.
  rewrite is_finite_spec, !eqb_zero_spec, mul_spec. intros Hp [s ->].
  destruct (Prim2SF p) as [sp|sp| |sp m e]; try discriminate; eexists;
    reflexivity.
Qed.

Lemma mul_zero_l z p :
  (z =? 0) = true -> is_finite p = true -> (z * p =? 0) = true.
Proof. intros Hz Hp. rewrite mul_comm. apply mul_zero_r; assumption. Qed.

Lemma one_minus_zero z : (z =? 0) = true -> 1 - z = 1.
Proof.
  rewrite eqb_zero_spec. intros [s Hz]. apply Prim2SF_inj.
  rewrite sub_spec, Hz. reflexivity.
Qed.

Lemma add_zero_zero x y :
  (x =? 0) = true -> (y =? 0) = true -> (x + y =? 0) = true.
Proof.
  rewrite !eqb_zero_spec, add_spec. intros [sx ->] [sy ->].
  destruct sx, sy; eexists; reflexivity.
Qed.

Lemma eqb_refl_finite x : is_finite x = true -> (x =? x) = true.
Proof.
  intros H. apply is_finite_not_nan in H. unfold is_nan in H.
  destruct (x =? x); [reflexivity|discriminate].
Qed.

Lemma add_zero_r_same x y z :
  is_finite x = true -> (y =? x) = true -> (z =? 0) = true ->
  (y + z =? x) = true.
Proof.
  rewrite is_finite_spec, eqb_zero_spec, !FloatAxioms.eqb_spec, add_spec.
  intros Hx Hyx [s ->]. unfold SF64add, SFadd.
  destruct (Prim2SF x) as [sx|sx| |sx mx ex]; try discriminate;
    destruct (Prim2SF y) as [sy|sy| |sy my ey]; try discriminate;
    try exact Hyx;
    try (destruct sy; discriminate); try (destruct sx; discriminate).
  destruct sy, s; reflexivity.
Qed.

Lemma add_zero_l_same z x :
  (z =? 0) = true -> is_finite x = true -> (z + x =? x) = true.
Proof.
  rewrite is_finite_spec, eqb_zero_spec, !FloatAxioms.eqb_spec, add_spec.
  intros [s ->] Hx. unfold SF64add, SFadd, SFeqb.
  destruct (Prim2SF x) as [sx|sx| |sx mx ex] eqn:Ex; try discriminate.
  - destruct s, sx; reflexivity.
  - rewrite SFcompare_refl by discriminate. reflexivity.
Qed.

(** X11.  At the four corners of the unit square of [(s, t)] the weighted sum
    is the data value of the corresponding corner, without any rounding
    error: [p_1] at [(0, 0)], [p_2] at [s = 1], [p_3] at [t = 1] and
    [p_4] at [(1, 1)], for finite data values.  A zero may be [-0], as
    the solvers return it. *)
Theorem bilinear_sum_corner_values p_1 p_2 p_3 p_4 zs zt :
  is_finite p_1 = true -> is_finite p_2 = true ->
  is_finite p_3 = true -> is_finite p_4 = true ->
  (zs =? 0) = true -> (zt =? 0) = true ->
  (bilinear_sum p_1 p_2 p_3 p_4 zs zt =? p_1) = true /\
  (bilinear_sum p_1 p_2 p_3 p_4 1 zt =? p_2) = true /\
  (bilinear_sum p_1 p_2 p_3 p_4 zs 1 =? p_3) = true /\
  (bilinear_sum p_1 p_2 p_3 p_4 1 1 =? p_4) = true.
Proof.
  intros F1 F2 F3 F4 Hs Ht.
  pose proof (zero_is_finite _ Hs) as Fs.
  pose proof (zero_is_finite _ Ht) as Ft.
  assert (H0 : (0 =? 0) = true) by reflexivity.
  assert (F0 : is_finite 0 = true) by reflexivity.
  unfold bilinear_sum.
  rewrite (one_minus_zero _ Hs), (one_minus_zero _ Ht).
  change (1 - 1) with 0. rewrite !mul_one_r.
  assert (Z : forall p a b, is_finite p = true -> (a =? 0) = true ->
              (b =? 0) = true -> (p * a * b =? 0) = true).
  { intros p a b Fp Ha Hb. apply mul_zero_l; [|apply zero_is_finite; exact Hb].
    apply mul_zero_r; assumption. }
  repeat split.
  - apply add_zero_r_same; [exact F1| |apply Z; assumption].
    apply add_zero_r_same; [exact F1| |apply mul_zero_r; assumption].
    apply add_zero_r_same; [exact F1| |apply mul_zero_r; assumption].
    apply eqb_refl_finite. exact F1.
  - apply add_zero_r_same; [exact F2| |apply mul_zero_r; assumption].
    apply add_zero_r_same; [exact F2| |apply Z; assumption].
    apply add_zero_l_same; [apply mul_zero_r; assumption|exact F2].
  - apply add_zero_r_same; [exact F3| |apply mul_zero_r; assumption].
    apply add_zero_l_same; [|exact F3].
    apply add_zero_zero; [apply mul_zero_r; assumption|apply Z; assumption].
  - apply add_zero_l_same; [|exact F4].
    apply add_zero_zero; [|apply mul_zero_r; assumption].
    apply add_zero_zero; [apply Z; assumption|apply mul_zero_r; assumption].
Qed.

Lemma bilinear_sum_corner_values_witness :
  (bilinear_sum 10 20 30 40 (-0) 0 =? 10) = true /\
  (bilinear_sum 10 20 30 40 1 0 =? 20) = true /\
  (bilinear_sum 10 20 30 40 (-0) 1 =? 30) = true /\
  (bilinear_sum 10 20 30 40 1 1 =? 40) = true.
Proof.
  apply (bilinear_sum_corner_values 10 20 30 40 (-0) 0); reflexivity.
Defined.

(** ** What [get_sample_from_bil_info] returns *)

Lemma bilinear_sum_nan p_1 p_2 p_3 p_4 s__ t__ :
  is_nan p_1 = true \/ is_nan p_2 = true \/ is_nan p_3 = true \/
  is_nan p_4 = true \/ is_nan s__ = true \/ is_nan t__ = true ->
  is_nan (bilinear_sum p_1 p_2 p_3 p_4 s__ t__) = true.
Proof.
  unfold bilinear_sum. intros [H|[H|[H|[H|[H|H]]]]]; auto 8 with nanprop.
Qed.

Lemma mapM_length {A B : Type} (f : A -> result B) l bs :
  mapM f l = Ok bs -> length bs = length l.
Proof.
  revert bs. induction l as [|a l IH]; intros bs; simpl.
  - intros H. inversion H. reflexivity.
  - destruct (f a) as [b|]; [|discriminate]. cbn [bind].
    destruct (mapM f l) as [bs'|]; [|discriminate]. cbn [bind].
    intros H. inversion H. simpl. rewrite (IH bs' eq_refl). reflexivity.
Qed.

Lemma mapM_nth_error {A B : Type} (f : A -> result B) l bs :
  mapM f l = Ok bs ->
  forall i b, nth_error bs i = Some b ->
  exists a, nth_error l i = Some a /\ f a = Ok b.
Proof.
  revert bs. induction l as [|a l IH]; intros bs; simpl.
  - intros H. inversion H. intros [|i] b; discriminate.
  - destruct (f a) as [b0|] eqn:Ea; [|discriminate]. cbn [bind].
    destruct (mapM f l) as [bs'|]; [|discriminate]. cbn [bind].
    intros H. inversion H. subst. intros [|i] b; simpl.
    + intros Hb. inversion Hb. subst. exists a. split; [reflexivity|exact Ea].
    + apply (IH bs' eq_refl).
Qed.

Lemma index_inv {A : Type} (l : list A) i a :
  index l i = Ok a -> nth_error l i = Some a.
Proof.
  unfold index. destruct (nth_error l i); intros H; inversion H; reflexivity.
Qed.

Lemma gather_row_inv new_data row p_1 p_2 p_3 p_4 :
  gather_row new_data row = Ok (p_1, p_2, p_3, p_4) ->
  exists i1 i2 i3 i4 rest,
    row = i1 :: i2 :: i3 :: i4 :: rest /\
    nth_error new_data i1 = Some p_1 /\ nth_error new_data i2 = Some p_2 /\
    nth_error new_data i3 = Some p_3 /\ nth_error new_data i4 = Some p_4.
Proof.
  unfold gather_row.
  destruct (mapM (index new_data) row) as [vals|] eqn:Em; [|discriminate].
  cbn [bind]. pose proof (mapM_nth_error _ _ _ Em) as Hn.
  pose proof (mapM_length _ _ _ Em) as Hl.
  destruct vals as [|v1 [|v2 [|v3 [|v4 vals]]]]; try discriminate.
  destruct row as [|i1 [|i2 [|i3 [|i4 rest]]]]; try discriminate.
  cbn [index nth_error bind]. intros H. inversion H. subst. clear H.
  exists i1, i2, i3, i4, rest. split; [reflexivity|].
  destruct (Hn 0%nat p_1 eq_refl) as (a1 & Ha1 & Hp1).
  destruct (Hn 1%nat p_2 eq_refl) as (a2 & Ha2 & Hp2).
  destruct (Hn 2%nat p_3 eq_refl) as (a3 & Ha3 & Hp3).
  destruct (Hn 3%nat p_4 eq_refl) as (a4 & Ha4 & Hp4).
  simpl in Ha1, Ha2, Ha3, Ha4.
  inversion Ha1; inversion Ha2; inversion Ha3; inversion Ha4; subst.
  repeat split; apply index_inv; assumption.
Qed.

Lemma broadcast_length_inv n m k :
  broadcast_length n m = Ok k ->
  (n = k \/ n = 1%nat) /\ (m = k \/ m = 1%nat) /\ (n = k \/ m = k).
Proof.
  unfold broadcast_length.
  destruct (Nat.eqb n m) eqn:E1.
  { apply Nat.eqb_eq in E1. intros H. inversion H. lia. }
  destruct (Nat.eqb n 1) eqn:E2.
  { apply Nat.eqb_eq in E2. intros H. inversion H. lia. }
  destruct (Nat.eqb m 1) eqn:E3; [|discriminate].
  apply Nat.eqb_eq in E3. intros H. inversion H. lia.
Qed.

Lemma broadcast_length_same n : broadcast_length n n = Ok n.
Proof. unfold broadcast_length. rewrite Nat.eqb_refl. reflexivity. Qed.

Lemma broadcast_to_length {A : Type} n (l : list A) :
  length l = n \/ length l = 1%nat -> length (broadcast_to n l) = n.
Proof.
  destruct l as [|a [|b l]]; simpl; intros H.
  - lia.
  - apply repeat_length.
  - lia.
Qed.

Lemma broadcast_to_same {A : Type} (l : list A) :
  broadcast_to (length l) l = l.
Proof. destruct l as [|a [|b l]]; reflexivity. Qed.

Lemma broadcast_to_nth_error {A : Type} n (l : list A) i :
  (i < n)%nat ->
  nth_error (broadcast_to n l) i = nth_error l (broadcast_index l i).
Proof.
  destruct l as [|a [|b l]]; simpl; intros H; try reflexivity.
  apply nth_error_repeat. exact H.
Qed.

Lemma weighted_entries_length ps : forall s__ t__,
  length s__ = length ps -> length t__ = length ps ->
  length (weighted_entries ps s__ t__) = length ps.
Proof.
  induction ps as [|[[[p_1 p_2] p_3] p_4] ps IH]; intros [|s s__] [|t t__];
    simpl; try discriminate; intros Ls Lt; [reflexivity|].
  rewrite IH; lia.
Qed.

Lemma weighted_entries_nth_error ps : forall s__ t__ i r,
  nth_error (weighted_entries ps s__ t__) i = Some r ->
  exists p_1 p_2 p_3 p_4 s t,
    nth_error ps i = Some (p_1, p_2, p_3, p_4) /\
    nth_error s__ i = Some s /\ nth_error t__ i = Some t /\
    r = bilinear_entry p_1 p_2 p_3 p_4 s t.
Proof.
  induction ps as [|[[[p_1 p_2] p_3] p_4] ps IH]; intros [|s s__] [|t t__] i r;
    simpl; try (destruct i; discriminate).
  destruct i as [|i]; simpl.
  - intros Hr. inversion Hr. subst. exists p_1, p_2, p_3, p_4, s, t. auto.
  - apply IH.
Qed.

(** What a weighted sum that is computed tells about its operands. *)
Lemma weighted_sums_inv ps s__ t__ rs :
  weighted_sums ps s__ t__ = Ok rs ->
  let n := length rs in
  (length ps = n \/ length ps = 1%nat) /\
  (length s__ = n \/ length s__ = 1%nat) /\
  (length t__ = n \/ length t__ = 1%nat) /\
  (length ps = n \/ length s__ = n \/ length t__ = n) /\
  rs = weighted_entries (broadcast_to n ps) (broadcast_to n s__)
                        (broadcast_to n t__).
Proof.
  unfold weighted_sums.
  destruct (broadcast_length (length ps) (length s__)) as [n1|] eqn:E1;
    [|discriminate]. cbn [bind].
  destruct (broadcast_length n1 (length t__)) as [n|] eqn:E2;
    [|discriminate]. cbn [bind].
  apply broadcast_length_inv in E1. apply broadcast_length_inv in E2.
  intros H. inversion H as [Hrs]. clear H.
  assert (Lp : length ps = n \/ length ps = 1%nat) by lia.
  assert (Ls : length s__ = n \/ length s__ = 1%nat) by lia.
  assert (Lt : length t__ = n \/ length t__ = 1%nat) by lia.
  assert (Ln : length (weighted_entries (broadcast_to n ps)
                         (broadcast_to n s__) (broadcast_to n t__)) = n).
  { rewrite weighted_entries_length; rewrite !broadcast_to_length;
      auto. }
  cbv zeta. rewrite Ln. repeat split; try assumption; lia.
Qed.

Lemma weighted_sums_same_length ps s__ t__ :
  length s__ = length ps -> length t__ = length ps ->
  weighted_sums ps s__ t__ = Ok (weighted_entries ps s__ t__) /\
  length (weighted_entries ps s__ t__) = length ps.
Proof.
  intros Ls Lt. split; [|apply weighted_entries_length; assumption].
  unfold weighted_sums. rewrite Ls, broadcast_length_same. cbn [bind].
  rewrite Lt, broadcast_length_same. cbn [bind].
  rewrite broadcast_to_same.
  replace (broadcast_to (length ps) s__) with s__
    by (rewrite <- Ls; symmetry; apply broadcast_to_same).
  replace (broadcast_to (length ps) t__) with t__
    by (rewrite <- Lt; symmetry; apply broadcast_to_same).
  reflexivity.
Qed.

Lemma weighted_result_inv data t__ s__ input_idxs idx_arr nd mn mx sums :
  weighted_result data t__ s__ input_idxs idx_arr = Ok (nd, mn, mx, sums) ->
  ndarray_bool_index data input_idxs = Ok nd /\
  nanmin nd = Ok mn /\ nanmax nd = Ok mx /\
  exists ps, mapM (gather_row (entries nd)) idx_arr = Ok ps /\
             weighted_sums ps (entries s__) (entries t__) = Ok sums.
Proof.
  unfold weighted_result.
  destruct (ndarray_bool_index data input_idxs) as [nd'|]; [|discriminate].
  cbn [bind].
  destruct (nanmin nd') as [mn'|] eqn:E2; [|discriminate]. cbn [bind].
  destruct (nanmax nd') as [mx'|] eqn:E3; [|discriminate]. cbn [bind].
  destruct (mapM (gather_row (entries nd')) idx_arr) as [ps|] eqn:E4;
    [|discriminate]. cbn [bind].
  destruct (weighted_sums ps (entries s__) (entries t__)) as [rs|] eqn:E5;
    [|discriminate]. cbn [bind].
  intros H. inversion H. subst. repeat split; try assumption.
  exists ps. split; assumption.
Qed.

Lemma get_sample_inv data t__ s__ input_idxs idx_arr out :
  get_sample_from_bil_info data t__ s__ input_idxs idx_arr = Ok out ->
  exists nd mn mx sums,
    weighted_result data t__ s__ input_idxs idx_arr = Ok (nd, mn, mx, sums) /\
    out = map (guard mn mx) sums.
Proof.
  unfold get_sample_from_bil_info.
  destruct (weighted_result data t__ s__ input_idxs idx_arr)
    as [[[[nd mn] mx] sums]|]; [|discriminate]. cbn [bind].
  destruct (is_masked_array nd || is_masked_array s__ || is_masked_array t__);
    [|discriminate].
  intros H. inversion H. exists nd, mn, mx, sums. split; reflexivity.
Qed.

Lemma broadcast_index_length {A B : Type} (l : list A) (l' : list B) i :
  length l = length l' -> broadcast_index l i = broadcast_index l' i.
Proof.
  destruct l as [|a [|b l]], l' as [|a' [|b' l']]; simpl; intros H;
    try discriminate; reflexivity.
Qed.

(** X12.  When [get_sample_from_bil_info] returns, the rows of [idx_arr],
    [t__] and [s__] have been broadcast against each other: each of the
    three has as many entries as the result or exactly one entry, and one
    of them has as many as the result.  With one pair of fractions per
    row of [idx_arr], as [get_bil_info] gives them, the result has one
    entry per row. *)
Theorem get_sample_broadcast_shape data t__ s__ input_idxs idx_arr out :
  get_sample_from_bil_info data t__ s__ input_idxs idx_arr = Ok out ->
  (length idx_arr = length out \/ length idx_arr = 1%nat) /\
  (length (entries t__) = length out \/ length (entries t__) = 1%nat) /\
  (length (entries s__) = length out \/ length (entries s__) = 1%nat) /\
  (length idx_arr = length out \/ length (entries t__) = length out \/
   length (entries s__) = length out) /\
  (length (entries t__) = length idx_arr ->
   length (entries s__) = length idx_arr ->
   length out = length idx_arr).
Proof.
  intros H. destruct (get_sample_inv _ _ _ _ _ _ H) as (nd & mn & mx & sums & Ew & ->).
  destruct (weighted_result_inv _ _ _ _ _ _ _ _ _ Ew)
    as (_ & _ & _ & ps & Eg & Es).
  apply mapM_length in Eg. apply weighted_sums_inv in Es. cbv zeta in Es.
  destruct Es as (H1 & H2 & H3 & H4 & _). rewrite length_map.
  rewrite Eg in H1, H4. repeat split; try assumption; lia.
Qed.

(** One row of indices with two pairs of fractions: the row is read for
    both. *)
Lemma get_sample_broadcast_shape_witness :
  (length [[0; 1; 2; 3]]%nat = length [Some 25; Some 17.5]
   \/ length [[0; 1; 2; 3]]%nat = 1%nat) /\
  (length (entries (Plain [0.5; 0.25])) = length [Some 25; Some 17.5]
   \/ length (entries (Plain [0.5; 0.25])) = 1%nat) /\
  (length (entries (Plain [0.5; 0.25])) = length [Some 25; Some 17.5]
   \/ length (entries (Plain [0.5; 0.25])) = 1%nat) /\
  (length [[0; 1; 2; 3]]%nat = length [Some 25; Some 17.5]
   \/ length (entries (Plain [0.5; 0.25])) = length [Some 25; Some 17.5]
   \/ length (entries (Plain [0.5; 0.25])) = length [Some 25; Some 17.5]) /\
  (length (entries (Plain [0.5; 0.25])) = length [[0; 1; 2; 3]]%nat ->
   length (entries (Plain [0.5; 0.25])) = length [[0; 1; 2; 3]]%nat ->
   length [Some 25; Some 17.5] = length [[0; 1; 2; 3]]%nat).
Proof.
  apply (get_sample_broadcast_shape
           (MaskedArray [Some 10; Some 20; Some 30; Some 40])
           (Plain [0.5; 0.25]) (Plain [0.5; 0.25]) [true; true; true; true]
           [[0; 1; 2; 3]]%nat [Some 25; Some 17.5]).
  reflexivity.
Defined.

(** X13.  An entry that is not masked in the result is the weighted sum of
    the four values that the first four indices of its row select in the
    reduced data, with the fractions of that entry, each operand being
    read where broadcasting reads it: at the position of the entry, or at
    its only entry.  None of these six numbers is masked or NaN, and
    neither is the sum.  So a NaN fraction (an unresolved target) and a
    NaN or masked corner value always give a masked entry. *)
Theorem get_sample_unmasked_entry data t__ s__ input_idxs idx_arr out i v :
  get_sample_from_bil_info data t__ s__ input_idxs idx_arr = Ok out ->
  nth_error out i = Some (Some v) ->
  exists new_data i1 i2 i3 i4 rest p_1 p_2 p_3 p_4 s t,
    ndarray_bool_index data input_idxs = Ok new_data /\
    nth_error idx_arr (broadcast_index idx_arr i)
    = Some (i1 :: i2 :: i3 :: i4 :: rest) /\
    nth_error (entries new_data) i1 = Some (Some p_1) /\
    nth_error (entries new_data) i2 = Some (Some p_2) /\
    nth_error (entries new_data) i3 = Some (Some p_3) /\
    nth_error (entries new_data) i4 = Some (Some p_4) /\
    nth_error (entries s__) (broadcast_index (entries s__) i)
    = Some (Some s) /\
    nth_error (entries t__) (broadcast_index (entries t__) i)
    = Some (Some t) /\
    v = bilinear_sum p_1 p_2 p_3 p_4 s t /\
    is_nan p_1 = false /\ is_nan p_2 = false /\ is_nan p_3 = false /\
    is_nan p_4 = false /\ is_nan s = false /\ is_nan t = false /\
    is_nan v = false.
Proof.
  intros H Hv.
  destruct (get_sample_inv _ _ _ _ _ _ H) as (nd & mn & mx & sums & Ew & ->).
  destruct (weighted_result_inv _ _ _ _ _ _ _ _ _ Ew)
    as (Ei & _ & _ & ps & Eg & Es).
  rewrite nth_error_map in Hv.
  destruct (nth_error sums i) as [r|] eqn:Er; [|discriminate].
  cbn [option_map] in Hv.
  assert (Hi : (i < length sums)%nat).
  { apply nth_error_Some. rewrite Er. discriminate. }
  apply weighted_sums_inv in Es. cbv zeta in Es.
  destruct Es as (_ & _ & _ & _ & Es).
  rewrite Es in Er.
  destruct (weighted_entries_nth_error _ _ _ _ _ Er)
    as (o1 & o2 & o3 & o4 & os & ot & Hps & Hs & Ht & ->).
  rewrite broadcast_to_nth_error in Hps by exact Hi.
  rewrite broadcast_to_nth_error in Hs by exact Hi.
  rewrite broadcast_to_nth_error in Ht by exact Hi.
  rewrite (broadcast_index_length ps idx_arr i (mapM_length _ _ _ Eg)) in Hps.
  destruct (mapM_nth_error _ _ _ Eg _ _ Hps) as (row & Hrow & Hg).
  destruct (gather_row_inv _ _ _ _ _ _ Hg)
    as (i1 & i2 & i3 & i4 & rest & -> & H1 & H2 & H3 & H4).
  destruct o1 as [p_1|], o2 as [p_2|], o3 as [p_3|], o4 as [p_4|],
    os as [s|], ot as [t|]; try (inversion Hv; discriminate).
  cbn [bilinear_entry guard] in Hv.
  destruct (is_nan (bilinear_sum p_1 p_2 p_3 p_4 s t)) eqn:En.
  { rewrite orb_true_r in Hv. discriminate Hv. }
  destruct ((mx <? bilinear_sum p_1 p_2 p_3 p_4 s t)
            || (bilinear_sum p_1 p_2 p_3 p_4 s t <? mn) || false);
    [discriminate Hv|].
  assert (Hv' : bilinear_sum p_1 p_2 p_3 p_4 s t = v) by congruence.
  subst v.
  exists nd, i1, i2, i3, i4, rest, p_1, p_2, p_3, p_4, s, t.
  repeat split; try assumption; try reflexivity;
    match goal with
    | |- is_nan ?x = false =>
      destruct (is_nan x) eqn:Ex; [|reflexivity];
      rewrite bilinear_sum_nan in En by tauto; discriminate
    end.
Qed.

(** The second entry of the result for one row of indices and two pairs
    of fractions. *)
Lemma get_sample_unmasked_entry_witness :
  exists new_data i1 i2 i3 i4 rest p_1 p_2 p_3 p_4 s t,
    ndarray_bool_index (MaskedArray [Some 10; Some 20; Some 30; Some 40])
                       [true; true; true; true] = Ok new_data /\
    nth_error [[0; 1; 2; 3]]%nat (broadcast_index [[0; 1; 2; 3]]%nat 1)
    = Some (i1 :: i2 :: i3 :: i4 :: rest) /\
    nth_error (entries new_data) i1 = Some (Some p_1) /\
    nth_error (entries new_data) i2 = Some (Some p_2) /\
    nth_error (entries new_data) i3 = Some (Some p_3) /\
    nth_error (entries new_data) i4 = Some (Some p_4) /\
    nth_error (entries (Plain [0.5; 0.25]))
              (broadcast_index (entries (Plain [0.5; 0.25])) 1)
    = Some (Some s) /\
    nth_error (entries (Plain [0.5; 0.25]))
              (broadcast_index (entries (Plain [0.5; 0.25])) 1)
    = Some (Some t) /\
    17.5 = bilinear_sum p_1 p_2 p_3 p_4 s t /\
    is_nan p_1 = false /\ is_nan p_2 = false /\ is_nan p_3 = false /\
    is_nan p_4 = false /\ is_nan s = false /\ is_nan t = false /\
    is_nan 17.5 = false.
Proof.
  apply (get_sample_unmasked_entry
           (MaskedArray [Some 10; Some 20; Some 30; Some 40])
           (Plain [0.5; 0.25]) (Plain [0.5; 0.25]) [true; true; true; true]
           [[0; 1; 2; 3]]%nat [Some 25; Some 17.5] 1 17.5); reflexivity.
Defined.

(** ** What [get_bil_info] returns *)

Lemma get_corner_index_in valid in_x in_y idx_ref x y idx :
  _get_corner valid in_x in_y idx_ref = Ok (x, y, idx) -> In idx idx_ref.
Proof.
  unfold _get_corner. destruct valid as [|v valid]; [discriminate|].
  destruct (index in_x _) as [x0|]; [|discriminate]. cbn [bind].
  destruct (index in_y _) as [y0|]; [|discriminate]. cbn [bind].
  destruct (index idx_ref _) as [i0|] eqn:Ei; [|discriminate]. cbn [bind].
  intros H. inversion H. subst. apply index_inv in Ei.
  eapply nth_error_In. exact Ei.
Qed.

Lemma bounding_corners_indices_in in_x in_y out_x out_y neighbours idx_ref c :
  _get_bounding_corners in_x in_y out_x out_y neighbours idx_ref = Ok c ->
  forall q, In (corner_index c q) idx_ref.
Proof.
  unfold _get_bounding_corners. cbv zeta.
  destruct (negb _); [discriminate|].
  repeat match goal with
  | |- context [bind (_get_corner ?v in_x in_y idx_ref) _] =>
    let E := fresh "E" in
    destruct (_get_corner v in_x in_y idx_ref) as [[[? ?] ?]|] eqn:E;
    [apply get_corner_index_in in E|discriminate]; cbn [bind]
  end.
  intros H. inversion H. subst. clear H.
  intros q. destruct q; assumption.
Qed.

Lemma bounding_corners_of_inv neighbours out_xy : forall in_xy idx_ref cs,
  bounding_corners_of neighbours out_xy in_xy idx_ref = Ok cs ->
  length cs = length out_xy /\ length cs = length idx_ref /\
  forall i c, nth_error cs i = Some c ->
  exists row, nth_error idx_ref i = Some row /\
              forall q, In (corner_index c q) row.
Proof.
  induction out_xy as [|[out_x out_y] out_xy IH]; intros [|i0 in_xy] [|r idx_ref] cs;
    simpl; try discriminate.
  - intros H. inversion H. repeat split. intros [|i] c; discriminate.
  - destruct (_get_bounding_corners _ _ _ _ _ _) as [c0|] eqn:Ec;
      [|discriminate]. cbn [bind].
    destruct (bounding_corners_of neighbours out_xy in_xy idx_ref) as [cs'|]
      eqn:Ecs; [|discriminate]. cbn [bind].
    intros H. inversion H. subst. clear H.
    destruct (IH _ _ _ Ecs) as (L1 & L2 & Hn).
    simpl. repeat split; try lia.
    intros [|i] c; simpl.
    + intros Hc. inversion Hc. subst. exists r. split; [reflexivity|].
      eapply bounding_corners_indices_in. exact Ec.
    + apply Hn.
Qed.

Lemma get_ts_targets_length cs out_xy ts :
  _get_ts_targets cs out_xy = Ok ts ->
  length cs = length out_xy -> length ts = length cs.
Proof.
  unfold _get_ts_targets. cbv zeta.
  destruct (existsb _ cs); [discriminate|].
  destruct (existsb _ cs); [discriminate|].
  intros H. inversion H. intros L. apply map2_length. exact L.
Qed.

Lemma mapM_Forall {A B : Type} (f : A -> result B) l bs :
  mapM f l = Ok bs -> Forall (fun a => exists b, f a = Ok b) l.
Proof.
  revert bs. induction l as [|a l IH]; intros bs; simpl; [constructor|].
  destruct (f a) as [b|] eqn:Ea; [|discriminate]. cbn [bind].
  destruct (mapM f l) as [bs'|]; [|discriminate]. cbn [bind].
  intros _. constructor; [eauto|]. apply (IH bs' eq_refl).
Qed.

Lemma bool_index_inv {A : Type} (l : list A) b l' :
  bool_index l b = Ok l' -> length l = length b /\ l' = select l b.
Proof.
  unfold bool_index. destruct (Nat.eqb_spec (length l) (length b));
    [|discriminate]. intros H. inversion H. auto.
Qed.

(** The indices that [_get_input_xy] could look up are below the number
    of valid source points. *)
Lemma get_input_xy_indices proj in_lons in_lats input_idxs idx_ref in_xy :
  _get_input_xy proj in_lons in_lats input_idxs idx_ref = Ok in_xy ->
  length in_lons = length input_idxs /\
  length in_lats = length input_idxs /\
  Forall (Forall (fun i => (i < length (filter (fun b => b) input_idxs))%nat))
         idx_ref.
Proof.
  unfold _get_input_xy.
  destruct (bool_index in_lons input_idxs) as [lons|] eqn:E1; [|discriminate].
  cbn [bind].
  destruct (bool_index in_lats input_idxs) as [lats|] eqn:E2; [|discriminate].
  cbn [bind].
  apply bool_index_inv in E1, E2. destruct E1 as [L1 ->], E2 as [L2 ->].
  intros H. split; [exact L1|]. split; [exact L2|].
  apply mapM_Forall in H.
  eapply Forall_impl; [|exact H]. intros row [bs Hrow]. cbv beta in Hrow.
  apply mapM_Forall in Hrow.
  eapply Forall_impl; [|exact Hrow]. intros i [b Hb]. cbv beta in Hb.
  unfold index in Hb.
  destruct (nth_error _ i) as [ll|] eqn:En; [|discriminate].
  assert (Hi : (i < length (map2 _mask_coordinates (select in_lons input_idxs)
                              (select in_lats input_idxs)))%nat).
  { apply nth_error_Some. congruence. }
  rewrite map2_length in Hi by (rewrite !select_length by assumption;
                                reflexivity).
  rewrite select_length in Hi by assumption. exact Hi.
Qed.

Lemma get_bil_info_inv proj in_lons in_lats out_lons out_lats neighbours masked
  input_idxs idx_ref info :
  get_bil_info proj in_lons in_lats out_lons out_lats neighbours masked
               input_idxs idx_ref = Ok info ->
  let input_size := length (filter (fun b => b) input_idxs) in
  let idx' := map (map (reduce_index input_size)) idx_ref in
  let out_xy := _get_output_xy proj out_lons out_lats in
  exists in_xy cs ts,
    _get_input_xy proj in_lons in_lats input_idxs idx' = Ok in_xy /\
    bounding_corners_of neighbours out_xy in_xy idx' = Ok cs /\
    _get_ts_targets cs out_xy = Ok ts /\
    bi_input_idxs info = input_idxs /\
    bi_idx_ref info = map c_idx_ref cs /\
    (if masked
     then bi_t info = MaskedArray (map2 (fun t s => mask_if_nan t s t)
                                        (map fst ts) (map snd ts)) /\
          bi_s info = MaskedArray (map2 (fun t s => mask_if_nan t s s)
                                        (map fst ts) (map snd ts))
     else bi_t info = Plain (map fst ts) /\ bi_s info = Plain (map snd ts)).
Proof.
  unfold get_bil_info. cbv zeta.
  destruct (_get_input_xy _ _ _ _ _) as [in_xy|] eqn:E1; [|discriminate].
  cbn [bind].
  destruct (bounding_corners_of _ _ _ _) as [cs|] eqn:E2; [|discriminate].
  cbn [bind].
  destruct (_get_ts_targets _ _) as [ts|] eqn:E3; [|discriminate].
  cbn [bind].
  intros H. exists in_xy, cs, ts.
  destruct masked; inversion H; subst; cbn [bi_t bi_s bi_input_idxs bi_idx_ref];
    repeat split; first [reflexivity|assumption].
Qed.

Lemma mask_if_nan_shared l1 : forall l2 i,
  nth_error (map2 (fun t s => mask_if_nan t s t) l1 l2) i = Some None <->
  nth_error (map2 (fun t s => mask_if_nan t s s) l1 l2) i = Some None.
Proof.
  induction l1 as [|t l1 IH]; intros [|s l2] [|i]; simpl; try tauto.
  - unfold mask_if_nan. destruct (is_nan t || is_nan s); split; intros H;
      try reflexivity; discriminate.
  - apply IH.
Qed.

Lemma get_bil_info_lengths
  proj in_lons in_lats out_lons out_lats neighbours masked input_idxs idx_ref
  info :
  length out_lons = length out_lats ->
  get_bil_info proj in_lons in_lats out_lons out_lats neighbours masked
               input_idxs idx_ref = Ok info ->
  length (entries (bi_t info)) = length out_lons /\
  length (entries (bi_s info)) = length out_lons /\
  length (bi_idx_ref info) = length out_lons /\
  length idx_ref = length out_lons /\
  bi_input_idxs info = input_idxs /\
  (forall i, nth_error (entries (bi_t info)) i = Some None <->
             nth_error (entries (bi_s info)) i = Some None).
Proof.
  intros Lo H.
  destruct (get_bil_info_inv _ _ _ _ _ _ _ _ _ _ H)
    as (in_xy & cs & ts & E1 & E2 & E3 & Hi & Hr & Hts).
  apply bounding_corners_of_inv in E2. destruct E2 as (L1 & L2 & _).
  assert (Lxy : length (_get_output_xy proj out_lons out_lats)
                = length out_lons)
    by (unfold _get_output_xy; apply map2_length; exact Lo).
  pose proof (get_ts_targets_length _ _ _ E3 L1) as L3.
  rewrite !length_map in L2. rewrite Lxy in L1.
  rewrite Hr, length_map.
  destruct masked; destruct Hts as [-> ->]; cbn [entries].
  - rewrite !map2_length by (rewrite !length_map; reflexivity).
    rewrite !length_map. repeat split; try lia; try assumption;
      apply mask_if_nan_shared.
  - rewrite !length_map. repeat split; try lia; try assumption;
      rewrite nth_error_map; destruct (nth_error _ i); discriminate.
Qed.

(** X14.  The weight table has one entry per target point: [t], [s] and the
    index mapping have the length of the target coordinates, and the
    flags of the valid source points are passed through unchanged.  With
    [masked=True], [t] and [s] are masked at the same entries. *)
Theorem get_bil_info_shapes
  proj in_lons in_lats out_lons out_lats neighbours masked input_idxs idx_ref
  info :
  length out_lons = length out_lats ->
  get_bil_info proj in_lons in_lats out_lons out_lats neighbours masked
               input_idxs idx_ref = Ok info ->
  length (entries (bi_t info)) = length out_lons /\
  length (entries (bi_s info)) = length out_lons /\
  length (bi_idx_ref info) = length out_lons /\
  length idx_ref = length out_lons /\
  bi_input_idxs info = input_idxs /\
  (forall i, nth_error (entries (bi_t info)) i = Some None <->
             nth_error (entries (bi_s info)) i = Some None).
Proof. apply get_bil_info_lengths. Qed.

Lemma get_bil_info_shapes_witness :
  length (entries (MaskedArray [Some 0x1.908d8e3868118p-2; None]))
  = length [1.5; 2] /\
  length (entries (MaskedArray [Some 0x1.dad9da12cd5b3p-2; None]))
  = length [1.5; 2] /\
  length [(0, 1, 2, 3); (0, 0, 2, 3)]%nat = length [1.5; 2] /\
  length [[0; 1; 2; 3]; [0; 1; 2; 3]]%nat = length [1.5; 2] /\
  [true; true; true; true] = [true; true; true; true] /\
  (forall i,
     nth_error (entries (MaskedArray [Some 0x1.908d8e3868118p-2; None])) i
     = Some None <->
     nth_error (entries (MaskedArray [Some 0x1.dad9da12cd5b3p-2; None])) i
     = Some None).
Proof.
  apply (get_bil_info_shapes planar [0; 2; 1; 4] [2; 3; 0; 0] [1.5; 2] [1.5; 1]
           4 true [true; true; true; true] [[0; 1; 2; 3]; [0; 1; 2; 3]]%nat
           (mkbil_info (MaskedArray [Some 0x1.908d8e3868118p-2; None])
                       (MaskedArray [Some 0x1.dad9da12cd5b3p-2; None])
                       [true; true; true; true]
                       [(0, 1, 2, 3); (0, 0, 2, 3)]%nat));
    reflexivity.
Defined.

Lemma index_row_corner_index c :
  index_row (c_idx_ref c) =
  [corner_index c UpperLeft; corner_index c UpperRight;
   corner_index c LowerLeft; corner_index c LowerRight].
Proof.
  unfold corner_index, index_row. destruct (c_idx_ref c) as [[[a b] d] e].
  reflexivity.
Qed.

Lemma get_bil_info_indices_below
  proj in_lons in_lats out_lons out_lats neighbours masked input_idxs idx_ref
  info :
  get_bil_info proj in_lons in_lats out_lons out_lats neighbours masked
               input_idxs idx_ref = Ok info ->
  Forall (fun r => Forall (fun i => (i < length (filter (fun b => b)
                                                        input_idxs))%nat)
                          (index_row r))
         (bi_idx_ref info).
Proof.
  intros H.
  destruct (get_bil_info_inv _ _ _ _ _ _ _ _ _ _ H)
    as (in_xy & cs & ts & E1 & E2 & E3 & Hi & Hr & Hts).
  apply get_input_xy_indices in E1. destruct E1 as (_ & _ & Hidx).
  apply bounding_corners_of_inv in E2. destruct E2 as (_ & _ & Hn).
  rewrite Hr. apply Forall_map. apply Forall_forall. intros c Hc.
  apply In_nth_error in Hc. destruct Hc as [i Hc].
  destruct (Hn i c Hc) as (row & Hrow & Hq).
  apply nth_error_In in Hrow.
  rewrite Forall_forall in Hidx. pose proof (Hidx row Hrow) as Hlt.
  rewrite Forall_forall in Hlt.
  rewrite index_row_corner_index.
  repeat constructor; apply Hlt; apply Hq.
Qed.

(** X15.  Every index of the returned mapping is below the number of valid
    source points, for absent corners too: it can be looked up in any
    data layer reduced by [input_idxs]. *)
Theorem get_bil_info_indices_valid
  proj in_lons in_lats out_lons out_lats neighbours masked input_idxs idx_ref
  info :
  get_bil_info proj in_lons in_lats out_lons out_lats neighbours masked
               input_idxs idx_ref = Ok info ->
  Forall (fun r => Forall (fun i => (i < length (filter (fun b => b)
                                                        input_idxs))%nat)
                          (index_row r))
         (bi_idx_ref info).
Proof. apply get_bil_info_indices_below. Qed.

Lemma get_bil_info_indices_valid_witness :
  Forall (fun r => Forall (fun i => (i < length (filter (fun b => b)
                                                   [true; true; true]))%nat)
                          (index_row r))
         [(1, 1, 1, 0)]%nat.
Proof.
  apply (get_bil_info_indices_valid planar [1; -1; 5] [-1; 1; 5] [0] [0] 2
           false [true; true; true] [[1; 3]]%nat
           (mkbil_info (Plain [nan]) (Plain [nan]) [true; true; true]
                       [(1, 1, 1, 0)]%nat)).
  reflexivity.
Defined.

Lemma existsb_uprights_split (h : corners -> bool) cs :
  existsb (fun c => mask_uprights (uprights_parallel c) (h c)) cs
  || existsb (fun c => mask_parallellogram (uprights_parallel c) (h c)) cs
  = existsb uprights_parallel cs.
Proof.
  unfold mask_uprights, mask_parallellogram.
  induction cs as [|c cs IH]; simpl; [reflexivity|].
  rewrite <- IH.
  destruct (uprights_parallel c), (h c); simpl;
    repeat match goal with
           | |- context [existsb ?f cs] => destruct (existsb f cs)
           end; reflexivity.
Qed.

Lemma get_ts_targets_raises cs out_xy :
  _get_ts_targets cs out_xy = Raise IndexError <->
  existsb uprights_parallel cs = true.
Proof.
  rewrite <- (existsb_uprights_split
                (fun c => _find_horiz_parallels (c_pt_1 c) (c_pt_2 c)
                            (c_pt_3 c) (c_pt_4 c)) cs).
  unfold _get_ts_targets. cbv zeta. fold uprights_parallel.
  change (fun c : corners =>
            mask_uprights (_find_vert_parallels (c_pt_1 c) (c_pt_2 c)
                             (c_pt_3 c) (c_pt_4 c))
              (_find_horiz_parallels (c_pt_1 c) (c_pt_2 c) (c_pt_3 c)
                 (c_pt_4 c)))
    with (fun c : corners =>
            mask_uprights (uprights_parallel c)
              (_find_horiz_parallels (c_pt_1 c) (c_pt_2 c) (c_pt_3 c)
                 (c_pt_4 c))).
  change (fun c : corners =>
            mask_parallellogram (_find_vert_parallels (c_pt_1 c) (c_pt_2 c)
                                   (c_pt_3 c) (c_pt_4 c))
              (_find_horiz_parallels (c_pt_1 c) (c_pt_2 c) (c_pt_3 c)
                 (c_pt_4 c)))
    with (fun c : corners =>
            mask_parallellogram (uprights_parallel c)
              (_find_horiz_parallels (c_pt_1 c) (c_pt_2 c) (c_pt_3 c)
                 (c_pt_4 c))).
  set (e1 := existsb (fun c => mask_uprights _ _) cs).
  set (e2 := existsb (fun c => mask_parallellogram _ _) cs).
  destruct e1; [simpl; split; reflexivity|].
  destruct e2; simpl; [split; reflexivity|].
  split; discriminate.
Qed.

(** X16.  With the one-dimensional target coordinates that it builds,
    [get_bil_info] supports the irregular solver only: once the corners
    are selected, it raises [IndexError] exactly when the corners of some
    target have exactly parallel uprights, as the corners of any
    axis-aligned rectangle of source points do. *)
Theorem get_bil_info_parallel_uprights_raise
  proj in_lons in_lats out_lons out_lats neighbours masked input_idxs idx_ref
  in_xy cs :
  let input_size := length (filter (fun b => b) input_idxs) in
  let idx' := map (map (reduce_index input_size)) idx_ref in
  let out_xy := _get_output_xy proj out_lons out_lats in
  _get_input_xy proj in_lons in_lats input_idxs idx' = Ok in_xy ->
  bounding_corners_of neighbours out_xy in_xy idx' = Ok cs ->
  (get_bil_info proj in_lons in_lats out_lons out_lats neighbours masked
                input_idxs idx_ref = Raise IndexError <->
   exists c, In c cs /\ uprights_parallel c = true).
Proof.
  intros input_size idx' out_xy E1 E2.
  unfold get_bil_info. fold input_size idx' out_xy. cbv zeta.
  fold idx'. rewrite E1. cbn [bind]. rewrite E2. cbn [bind].
  rewrite <- existsb_exists, <- (get_ts_targets_raises cs out_xy).
  destruct (_get_ts_targets cs out_xy) as [ts|e]; cbn [bind].
  - destruct masked; split; discriminate.
  - split; intros H; inversion H; reflexivity.
Qed.

(** A target inside the unit square of four source points. *)
Lemma get_bil_info_parallel_uprights_raise_witness :
  get_bil_info planar [0; 1; 0; 1] [1; 1; 0; 0] [0.25] [0.75] 4 false
               [true; true; true; true] [[0; 1; 2; 3]]%nat = Raise IndexError <->
  exists c,
    In c [mkcorners (mkpoint 0 1) (mkpoint 1 1) (mkpoint 0 0) (mkpoint 1 0)
                    (0, 1, 2, 3)%nat] /\
    uprights_parallel c = true.
Proof.
  apply (get_bil_info_parallel_uprights_raise planar [0; 1; 0; 1] [1; 1; 0; 0]
           [0.25] [0.75] 4 false [true; true; true; true] [[0; 1; 2; 3]]%nat
           [[(0, 1); (1, 1); (0, 0); (1, 0)]]); reflexivity.
Defined.

(** ** The weight table applied to a data layer *)

Lemma nanreduce_ok (f : float -> float -> float) a :
  (0 < length (entries a))%nat -> exists b, nanreduce f a = Ok b.
Proof.
  destruct a as [v|v]; simpl; intros H.
  - destruct v as [|x v]; simpl in *; [lia|]. eauto.
  - destruct v as [|o v]; [simpl in H; lia|].
    destruct (compressed (o :: v)) as [|x l]; simpl; eauto.
Qed.

Lemma ndarray_bool_index_ok data b :
  length (entries data) = length b ->
  exists nd, ndarray_bool_index data b = Ok nd /\
             length (entries nd) = length (filter (fun x => x) b) /\
             is_masked_array nd = is_masked_array data.
Proof.
  destruct data as [v|v]; simpl; intros L.
  - rewrite length_map in L. rewrite (bool_index_ok v b L). cbn [bind].
    eexists. split; [reflexivity|]. simpl. rewrite length_map.
    split; [apply select_length; exact L|reflexivity].
  - rewrite (bool_index_ok v b L). cbn [bind].
    eexists. split; [reflexivity|]. simpl.
    split; [apply select_length; exact L|reflexivity].
Qed.

Lemma index_ok {A : Type} (l : list A) i :
  (i < length l)%nat -> exists a, index l i = Ok a.
Proof.
  intros H. unfold index. destruct (nth_error l i) as [a|] eqn:E; [eauto|].
  apply nth_error_None in E. lia.
Qed.

Lemma gather_row_ok new_data r :
  Forall (fun i => (i < length new_data)%nat) (index_row r) ->
  exists p, gather_row new_data (index_row r) = Ok p.
Proof.
  destruct r as [[[a b] c] d]. unfold index_row. intros H.
  inversion H as [|? ? Ha H1]; subst. inversion H1 as [|? ? Hb H2]; subst.
  inversion H2 as [|? ? Hc H3]; subst. inversion H3 as [|? ? Hd _]; subst.
  destruct (index_ok new_data a Ha) as [pa Ea].
  destruct (index_ok new_data b Hb) as [pb Eb].
  destruct (index_ok new_data c Hc) as [pc Ec].
  destruct (index_ok new_data d Hd) as [pd Ed].
  unfold gather_row. cbn [mapM]. rewrite Ea, Eb, Ec, Ed. cbn [bind].
  eexists. reflexivity.
Qed.

Lemma mapM_ok {A B : Type} (f : A -> result B) l :
  Forall (fun a => exists b, f a = Ok b) l -> exists bs, mapM f l = Ok bs.
Proof.
  induction 1 as [|a l [b Hb] _ [bs IH]]; simpl; [eauto|].
  rewrite Hb. cbn [bind]. rewrite IH. cbn [bind]. eauto.
Qed.

(** X17.  The table that [get_bil_info] returns can be applied as it is: for
    any data layer with one entry per source point (at least one of them
    valid), [get_sample_from_bil_info] finds every index and every shape
    in order and returns one entry per target point, provided the weighted
    sum carries a mask, that is, the table was computed with
    [masked=True] or the data is a masked array. *)
Theorem weight_table_applies
  proj in_lons in_lats out_lons out_lats neighbours masked input_idxs idx_ref
  info data :
  get_bil_info proj in_lons in_lats out_lons out_lats neighbours masked
               input_idxs idx_ref = Ok info ->
  length out_lons = length out_lats ->
  length (entries data) = length input_idxs ->
  (0 < length (filter (fun b => b) input_idxs))%nat ->
  masked = true \/ is_masked_array data = true ->
  exists out,
    get_sample_from_bil_info data (bi_t info) (bi_s info) (bi_input_idxs info)
                             (map index_row (bi_idx_ref info)) = Ok out /\
    length out = length out_lons.
Proof.
  intros H Lo Ld Hsize Hmask.
  destruct (get_bil_info_lengths _ _ _ _ _ _ _ _ _ _ Lo H)
    as (Lt & Ls & Lr & _ & Hii & _).
  pose proof (get_bil_info_indices_below _ _ _ _ _ _ _ _ _ _ H) as Hidx.
  destruct (get_bil_info_inv _ _ _ _ _ _ _ _ _ _ H)
    as (_ & _ & ts & _ & _ & _ & _ & _ & Hts).
  rewrite Hii.
  destruct (ndarray_bool_index_ok data input_idxs Ld) as (nd & End & Lnd & Knd).
  destruct (nanreduce_ok fmin nd ltac:(lia)) as [mn Emn].
  destruct (nanreduce_ok fmax nd ltac:(lia)) as [mx Emx].
  assert (Hps : exists ps, mapM (gather_row (entries nd))
                                (map index_row (bi_idx_ref info)) = Ok ps).
  { apply mapM_ok. apply Forall_map.
    eapply Forall_impl; [|exact Hidx]. intros r Hr. cbv beta in Hr.
    apply gather_row_ok. rewrite Lnd. exact Hr. }
  destruct Hps as [ps Eps].
  pose proof (mapM_length _ _ _ Eps) as Lps. rewrite length_map in Lps.
  destruct (weighted_sums_same_length ps (entries (bi_s info))
              (entries (bi_t info))) as [Esums Lsums]; try lia.
  remember (weighted_entries ps (entries (bi_s info)) (entries (bi_t info)))
    as sums.
  assert (Hk : is_masked_array nd || is_masked_array (bi_s info)
               || is_masked_array (bi_t info) = true).
  { destruct Hmask as [->|Hd].
    - destruct Hts as [-> ->]. simpl. apply orb_true_r.
    - rewrite Knd, Hd. reflexivity. }
  exists (map (guard mn mx) sums).
  unfold get_sample_from_bil_info, weighted_result, nanmin, nanmax.
  rewrite End. cbn [bind]. rewrite Emn. cbn [bind]. rewrite Emx. cbn [bind].
  rewrite Eps. cbn [bind]. rewrite Esums. cbn [bind]. rewrite Hk.
  split; [reflexivity|].
  rewrite length_map. lia.
Qed.

Lemma weight_table_applies_witness :
  exists out,
    get_sample_from_bil_info (Plain [10; 20; 30; 40])
      (MaskedArray [Some 0x1.908d8e3868118p-2; None])
      (MaskedArray [Some 0x1.dad9da12cd5b3p-2; None])
      [true; true; true; true]
      (map index_row [(0, 1, 2, 3); (0, 0, 2, 3)]%nat) = Ok out /\
    length out = length [1.5; 2].
Proof.
  apply (weight_table_applies planar [0; 2; 1; 4] [2; 3; 0; 0] [1.5; 2] [1.5; 1]
           4 true [true; true; true; true] [[0; 1; 2; 3]; [0; 1; 2; 3]]%nat
           (mkbil_info (MaskedArray [Some 0x1.908d8e3868118p-2; None])
                       (MaskedArray [Some 0x1.dad9da12cd5b3p-2; None])
                       [true; true; true; true]
                       [(0, 1, 2, 3); (0, 0, 2, 3)]%nat)
           (Plain [10; 20; 30; 40]));
    try reflexivity.
  - simpl. lia.
  - left. reflexivity.
Defined.

(** ** The wrapper [resample_bilinear] *)

Lemma eqb_nan_r x : (x =? nan) = false.
Proof.
  rewrite FloatAxioms.eqb_spec.
  change (Prim2SF nan) with S754_nan.
  destruct (Prim2SF x) as [[|]|[|]| |[|] m e]; reflexivity.
Qed.

Lemma get_sample_plain_operands data t__ s__ input_idxs idx_arr out :
  get_sample_from_bil_info data (Plain t__) (Plain s__) input_idxs idx_arr
  = Ok out ->
  is_masked_array data = true.
Proof.
  unfold get_sample_from_bil_info.
  destruct (weighted_result data (Plain t__) (Plain s__) input_idxs idx_arr)
    as [[[[nd mn] mx] sums]|] eqn:Ew; [|discriminate]. cbn [bind].
  unfold weighted_result in Ew.
  destruct (ndarray_bool_index data input_idxs) as [nd'|] eqn:E1;
    [|discriminate]. cbn [bind] in Ew.
  destruct (nanmin nd'); [|discriminate]. cbn [bind] in Ew.
  destruct (nanmax nd'); [|discriminate]. cbn [bind] in Ew.
  destruct (mapM _ idx_arr); [|discriminate]. cbn [bind] in Ew.
  destruct (weighted_sums _ _ _); [|discriminate]. cbn [bind] in Ew.
  inversion Ew. subst. clear Ew.
  destruct data as [v|v]; simpl in E1;
    destruct (bool_index v input_idxs); try discriminate;
    inversion E1; simpl; [discriminate|reflexivity].
Qed.

Lemma stored_length under r : forall j, length (stored under j r) = length r.
Proof.
  induction r as [|[v|] r IH]; intros j; simpl; [reflexivity| |];
    rewrite IH; reflexivity.
Qed.

Lemma resample_dataset_length under data rows num_dsets out_size info i col :
  resample_dataset under data rows num_dsets out_size info i = Ok col ->
  length col = out_size.
Proof.
  unfold resample_dataset.
  destruct (get_sample_from_bil_info _ _ _ _ _) as [r|]; [|discriminate].
  cbn [bind].
  destruct (Nat.eqb (length r) out_size) eqn:E.
  - intros H. inversion H. rewrite stored_length.
    apply Nat.eqb_eq. exact E.
  - destruct (stored (under i) 0 r) as [|v [|w l]]; try discriminate.
    intros H. inversion H. apply repeat_length.
Qed.

Lemma resampling_info_plain proj tuple in_lons in_lats out_lons out_lats
  neighbours input_idxs idx_ref info :
  resampling_info proj tuple in_lons in_lats out_lons out_lats neighbours
                  input_idxs idx_ref = Ok info ->
  bi_input_idxs info = input_idxs /\
  exists t__ s__, bi_t info = Plain t__ /\ bi_s info = Plain s__.
Proof.
  unfold resampling_info.
  destruct (if tuple then _ else _) as [ll|]; [|discriminate]. cbn [bind].
  intros H. apply get_bil_info_inv in H. cbv zeta in H.
  destruct H as (in_xy & cs & ts & _ & _ & _ & Hi & _ & Ht & Hs).
  split; [exact Hi|]. eauto.
Qed.

Lemma datasets_of_inv shape n_source num_dsets rows :
  datasets_of shape n_source = Ok (num_dsets, rows) ->
  (1 < num_dsets)%nat ->
  exists s0 s1 rest,
    shape = s0 :: s1 :: num_dsets :: rest /\ (s0 * s1)%nat = n_source /\
    rows = n_source.
Proof.
  unfold datasets_of.
  destruct shape as [|s0 [|s1 [|s2 rest]]]; try discriminate;
    try (intros H; inversion H; lia).
  destruct (Nat.eqb (s0 * s1) n_source) eqn:E;
    [|intros H; inversion H; lia].
  apply Nat.eqb_eq in E.
  destruct (Nat.eqb _ _); [|discriminate].
  intros H _. inversion H. subst.
  exists s0, s1, rest. repeat split; reflexivity.
Qed.

Lemma resample_bilinear_inv proj under data tuple in_lons in_lats out_lons
  out_lats neighbours fill_value input_idxs idx_ref r :
  resample_bilinear proj under data tuple in_lons in_lats out_lons out_lats
                    neighbours fill_value input_idxs idx_ref = Returns r ->
  exists info num_dsets rows cols,
    resampling_info proj tuple in_lons in_lats out_lons out_lats neighbours
                    input_idxs idx_ref = Ok info /\
    datasets_of (d_shape data) (length (bi_input_idxs info))
    = Ok (num_dsets, rows) /\
    (1 < num_dsets)%nat /\
    mapM (resample_dataset under (d_values data) rows num_dsets
                           (length out_lons) info) (seq 0 num_dsets)
    = Ok cols /\
    r = match fill_value with
        | None => MaskedResult
                    (map (map (fun x => if is_nan x then None else Some x)) cols)
        | Some fill => PlainResult
                    (map (map (fun x => if x =? nan then fill else x)) cols)
        end.
Proof.
  unfold resample_bilinear.
  destruct (resampling_info _ _ _ _ _ _ _ _ _) as [info|] eqn:Ei;
    [|discriminate].
  cbn [lift obind].
  destruct (datasets_of _ _) as [[num_dsets rows]|] eqn:Ed; [|discriminate].
  cbn [lift obind].
  destruct (Nat.ltb 1 num_dsets) eqn:E; [|discriminate].
  destruct (mapM _ _) as [cols|] eqn:Em; [|discriminate].
  cbn [lift obind]. intros H.
  exists info, num_dsets, rows, cols. apply Nat.ltb_lt in E.
  repeat split; try assumption; try reflexivity.
  destruct fill_value; injection H as <-; reflexivity.
Qed.

Lemma mapM_column_lengths {A : Type} (f : A -> result (list float)) n l cols :
  (forall a col, f a = Ok col -> length col = n) ->
  mapM f l = Ok cols ->
  map (@length float) cols = repeat n (length l).
Proof.
  intros Hf. revert cols. induction l as [|a l IH]; intros cols; simpl.
  - intros H. inversion H. reflexivity.
  - destruct (f a) as [col|] eqn:Ea; [|discriminate]. cbn [bind].
    destruct (mapM f l) as [cols'|]; [|discriminate]. cbn [bind].
    intros H. inversion H. simpl.
    rewrite (Hf a col Ea), (IH cols' eq_refl). reflexivity.
Qed.

(** X18.  For data of one or two dimensions [resample_bilinear] never reaches
    the interpolation: once the resampling information is computed, the
    branch for a single dataset reads the unbound loop variable and the
    call ends in [UnboundLocalError]. *)
Theorem resample_bilinear_single_dataset_unbound proj under data tuple
  in_lons in_lats out_lons out_lats neighbours fill_value input_idxs idx_ref
  info :
  (length (d_shape data) = 1 \/ length (d_shape data) = 2)%nat ->
  resampling_info proj tuple in_lons in_lats out_lons out_lats neighbours
                  input_idxs idx_ref = Ok info ->
  resample_bilinear proj under data tuple in_lons in_lats out_lons out_lats
                    neighbours fill_value input_idxs idx_ref
  = Raises UnboundLocalError.
Proof.
  intros Hd Hi. unfold resample_bilinear. rewrite Hi. cbn [lift obind].
  destruct (d_shape data) as [|s0 [|s1 [|s2 rest]]]; simpl in Hd;
    try (exfalso; lia); reflexivity.
Qed.

(** A flat data array over the four source points of an irregular
    quadrilateral. *)
Lemma resample_bilinear_single_dataset_unbound_witness :
  resample_bilinear planar (fun _ _ => 0)
    (mkdata [4%nat] (MaskedArray [Some 10; Some 20; Some 30; Some 40])) false
    [0; 2; 1; 4] [2; 3; 0; 0] [1.5] [1.5] 4 (Some 0)
    [true; true; true; true] [[0; 1; 2; 3]]%nat
  = Raises UnboundLocalError.
Proof.
  apply (resample_bilinear_single_dataset_unbound planar (fun _ _ => 0)
           (mkdata [4%nat] (MaskedArray [Some 10; Some 20; Some 30; Some 40]))
           false [0; 2; 1; 4] [2; 3; 0; 0] [1.5] [1.5] 4 (Some 0)
           [true; true; true; true] [[0; 1; 2; 3]]%nat
           (mkbil_info (Plain [0x1.908d8e3868118p-2])
                       (Plain [0x1.dad9da12cd5b3p-2])
                       [true; true; true; true] [(0, 1, 2, 3)]%nat)).
  - left. reflexivity.
  - reflexivity.
Defined.

(** X19.  [resample_bilinear] returns only for a masked data array of three or
    more dimensions whose first two multiply to the number of source
    points and whose third holds at least two datasets: plain data ends
    in the missing [mask] attribute, a single dataset in the unbound loop
    variable. *)
Theorem resample_bilinear_returns_only_masked_stack proj under data tuple
  in_lons in_lats out_lons out_lats neighbours fill_value input_idxs idx_ref r :
  resample_bilinear proj under data tuple in_lons in_lats out_lons out_lats
                    neighbours fill_value input_idxs idx_ref = Returns r ->
  is_masked_array (d_values data) = true /\
  exists s0 s1 num_dsets rest,
    d_shape data = s0 :: s1 :: num_dsets :: rest /\
    (s0 * s1)%nat = length input_idxs /\ (2 <= num_dsets)%nat.
Proof.
  intros H. apply resample_bilinear_inv in H.
  destruct H as (info & num_dsets & rows & cols & Hi & Hd & Hn & Hm & _).
  apply resampling_info_plain in Hi.
  destruct Hi as (Hidx & t__ & s__ & Ht & Hs).
  destruct (datasets_of_inv _ _ _ _ Hd Hn) as (s0 & s1 & rest & Hsh & Hp & _).
  rewrite Hidx in Hp. split.
  - apply mapM_Forall in Hm.
    destruct num_dsets as [|n]; [lia|]. simpl in Hm.
    inversion Hm as [|a l [col Hc] _]. subst.
    unfold resample_dataset in Hc. rewrite Ht, Hs in Hc.
    destruct (get_sample_from_bil_info _ _ _ _ _) as [out|] eqn:Eg;
      [|discriminate].
    apply get_sample_plain_operands in Eg.
    destruct (d_values data); [discriminate|reflexivity].
  - exists s0, s1, num_dsets, rest. repeat split; [exact Hsh|exact Hp|lia].
Qed.

(** Two datasets over the four source points, given as a masked array of
    shape [(2, 2, 2)]. *)
Lemma resample_bilinear_returns_only_masked_stack_witness :
  is_masked_array
    (d_values (mkdata [2; 2; 2]%nat
       (MaskedArray [Some 10; Some 1; Some 20; Some 2;
                     Some 30; Some 3; Some 40; Some 4]))) = true /\
  exists s0 s1 num_dsets rest,
    d_shape (mkdata [2; 2; 2]%nat
       (MaskedArray [Some 10; Some 1; Some 20; Some 2;
                     Some 30; Some 3; Some 40; Some 4]))
    = s0 :: s1 :: num_dsets :: rest /\
    (s0 * s1)%nat = length [true; true; true; true] /\ (2 <= num_dsets)%nat.
Proof.
  eapply (resample_bilinear_returns_only_masked_stack planar (fun _ _ => 0)
            (mkdata [2; 2; 2]%nat
               (MaskedArray [Some 10; Some 1; Some 20; Some 2;
                             Some 30; Some 3; Some 40; Some 4]))
            false [0; 2; 1; 4] [2; 3; 0; 0] [1.5] [1.5] 4 (Some 0)
            [true; true; true; true] [[0; 1; 2; 3]]%nat).
  reflexivity.
Defined.

(** X20.  When [resample_bilinear] returns, the result has one column per
    dataset and one row per target point, and it is a masked array
    exactly when [fill_value] is [None]. *)
Theorem resample_bilinear_result_shape proj under data tuple
  in_lons in_lats out_lons out_lats neighbours fill_value input_idxs idx_ref r :
  resample_bilinear proj under data tuple in_lons in_lats out_lons out_lats
                    neighbours fill_value input_idxs idx_ref = Returns r ->
  column_lengths r = repeat (length out_lons) (nth 2 (d_shape data) 0%nat) /\
  is_masked_result r = match fill_value with None => true | Some _ => false end.
Proof.
  intros H. apply resample_bilinear_inv in H.
  destruct H as (info & num_dsets & rows & cols & Hi & Hd & Hn & Hm & Hr).
  destruct (datasets_of_inv _ _ _ _ Hd Hn) as (s0 & s1 & rest & Hsh & _ & _).
  rewrite Hsh. cbn [nth].
  apply (mapM_column_lengths _ (length out_lons)) in Hm;
    [|intros a col; apply resample_dataset_length].
  rewrite length_seq in Hm.
  subst r. destruct fill_value as [fill|]; cbn [column_lengths is_masked_result];
    (split; [|reflexivity]);
    rewrite map_map; rewrite <- Hm; apply map_ext; intros col;
    apply length_map.
Qed.

Lemma resample_bilinear_result_shape_witness :
  exists r,
    resample_bilinear planar (fun _ _ => 0)
      (mkdata [2; 2; 2]%nat
         (MaskedArray [Some 10; Some 1; Some 20; Some 2;
                       Some 30; Some 3; Some 40; Some 4]))
      false [0; 2; 1; 4] [2; 3; 0; 0] [1.5] [1.5] 4 None
      [true; true; true; true] [[0; 1; 2; 3]]%nat = Returns r /\
    column_lengths r = [1; 1]%nat /\ is_masked_result r = true.
Proof.
  eexists. split; [reflexivity|].
  apply (resample_bilinear_result_shape planar (fun _ _ => 0)
           (mkdata [2; 2; 2]%nat
              (MaskedArray [Some 10; Some 1; Some 20; Some 2;
                            Some 30; Some 3; Some 40; Some 4]))
           false [0; 2; 1; 4] [2; 3; 0; 0] [1.5] [1.5] 4 None
           [true; true; true; true] [[0; 1; 2; 3]]%nat).
  reflexivity.
Defined.

(** X21.  [fill_value] has no effect when it is given: the comparison of the
    result with NaN selects no entry, so the result, with the NaN of its
    undetermined pixels, is the same for every fill value. *)
Theorem resample_bilinear_fill_value_ignored proj under data tuple
  in_lons in_lats out_lons out_lats neighbours fill fill' input_idxs idx_ref :
  resample_bilinear proj under data tuple in_lons in_lats out_lons out_lats
                    neighbours (Some fill) input_idxs idx_ref
  = resample_bilinear proj under data tuple in_lons in_lats out_lons out_lats
                      neighbours (Some fill') input_idxs idx_ref.
Proof.
  unfold resample_bilinear.
  destruct (resampling_info _ _ _ _ _ _ _ _ _) as [info|]; [|reflexivity].
  cbn [lift obind].
  destruct (datasets_of _ _) as [[num_dsets rows]|]; [|reflexivity].
  cbn [lift obind].
  destruct (Nat.ltb 1 num_dsets); [|reflexivity].
  destruct (mapM _ _) as [cols|]; [|reflexivity].
  cbn [lift obind]. do 2 f_equal.
  apply map_ext. intros col. apply map_ext. intros x.
  rewrite eqb_nan_r. reflexivity.
Qed.
